(** * Signed invitation claims of the Aevium partner API examples

    A shallow embedding of [examples/subscribe-link.ts]
    ([generateInvitationClaim], [generateSubscribeLink]) together with the
    parts of the JavaScript host the two functions call: string joining and
    sorting, [Date], [crypto.randomBytes] and [crypto.createHmac]. *)

From Stdlib Require Import ZArith List Bool Ascii String DecimalString Lia.
From Stdlib Require Import Permutation Sorted.
Import ListNotations.

Local Open Scope Z_scope.

(** ** Bytes and hexadecimal rendering *)

(** A byte is an integer in [0, 256); a buffer is a list of bytes. *)
Definition Buffer := list Z.

Definition byte_of_ascii (c : ascii) : Z := Z.of_N (N_of_ascii c).

(** The bytes of a string handed to the crypto module.  A string is held
    as the bytes of its UTF-8 encoding, the encoding the crypto module
    applies to string arguments, so the bytes hashed are the characters of
    the string; for ASCII text a character is a code unit of the host. *)
Fixpoint bytes_of_string (s : string) : Buffer :=
  match s with
  | EmptyString => []
  | String c s' => byte_of_ascii c :: bytes_of_string s'
  end.

Definition hex_alphabet : list ascii :=
  ["0"; "1"; "2"; "3"; "4"; "5"; "6"; "7";
   "8"; "9"; "a"; "b"; "c"; "d"; "e"; "f"]%char%list.

Definition hex_digit (n : Z) : ascii :=
  nth (Z.to_nat (n mod 16)) hex_alphabet "0"%char.

(** [Buffer.prototype.toString("hex")]: two lowercase digits per byte. *)
Fixpoint Buffer_toString_hex (b : Buffer) : string :=
  match b with
  | [] => EmptyString
  | x :: b' =>
      String (hex_digit (x / 16)) (String (hex_digit x) (Buffer_toString_hex b'))
  end.

Definition is_lower_hex (c : ascii) : Prop := In c hex_alphabet.

Fixpoint string_forall (P : ascii -> Prop) (s : string) : Prop :=
  match s with
  | EmptyString => True
  | String c s' => P c /\ string_forall P s'
  end.

(** ** SHA-256 (FIPS 180-4) on 32-bit words kept in [Z] *)

Module SHA256.

Definition wrap (x : Z) : Z := x mod 2 ^ 32.
Definition add (x y : Z) : Z := wrap (x + y).
Definition rotr (n x : Z) : Z :=
  Z.lor (Z.shiftr x n) (wrap (Z.shiftl x (32 - n))).
Definition not32 (x : Z) : Z := Z.lxor x (2 ^ 32 - 1).

Definition Ch (x y z : Z) : Z := Z.lxor (Z.land x y) (Z.land (not32 x) z).
Definition Maj (x y z : Z) : Z :=
  Z.lxor (Z.lxor (Z.land x y) (Z.land x z)) (Z.land y z).
Definition bsig0 (x : Z) : Z :=
  Z.lxor (Z.lxor (rotr 2 x) (rotr 13 x)) (rotr 22 x).
Definition bsig1 (x : Z) : Z :=
  Z.lxor (Z.lxor (rotr 6 x) (rotr 11 x)) (rotr 25 x).
Definition ssig0 (x : Z) : Z :=
  Z.lxor (Z.lxor (rotr 7 x) (rotr 18 x)) (Z.shiftr x 3).
Definition ssig1 (x : Z) : Z :=
  Z.lxor (Z.lxor (rotr 17 x) (rotr 19 x)) (Z.shiftr x 10).

(** The constants of the algorithm come from the first primes: the round
    constants are the first 32 bits of the fractional parts of the cube
    roots of the first 64 primes, the initial chaining words those of the
    square roots of the first 8. *)
Definition is_prime (n : nat) : bool :=
  forallb (fun d => negb (Nat.eqb (Nat.modulo n d) 0)) (seq 2 (n - 2)).

Definition first_primes (n : nat) : list Z :=
  map Z.of_nat (firstn n (filter is_prime (seq 2 400))).

(** The integer cube root of [x], found bit by bit below [2 ^ bits]. *)
Fixpoint cube_root (bits : nat) (x r : Z) : Z :=
  match bits with
  | O => r
  | S b =>
      let r' := r + 2 ^ Z.of_nat b in
      cube_root b x (if r' * r' * r' <=? x then r' else r)
  end.

Definition round_constants : list Z :=
  Eval vm_compute in
    map (fun p => wrap (cube_root 40 (p * 2 ^ 96) 0)) (first_primes 64).

(** The eight chaining words. *)
Record state := mkState
  { ha : Z; hb : Z; hc : Z; hd : Z; he : Z; hf : Z; hg : Z; hh : Z }.

Definition of_words (l : list Z) : state :=
  mkState (nth 0 l 0) (nth 1 l 0) (nth 2 l 0) (nth 3 l 0)
          (nth 4 l 0) (nth 5 l 0) (nth 6 l 0) (nth 7 l 0).

Definition initial : state :=
  Eval vm_compute in
    of_words (map (fun p => wrap (Z.sqrt (p * 2 ^ 64))) (first_primes 8)).

(** Padding: a 1 bit, zeros up to 56 mod 64 bytes, the bit length on
    eight big-endian bytes. *)
Definition be_bytes (n : nat) (x : Z) : Buffer :=
  map (fun i => (x / 2 ^ (8 * Z.of_nat i)) mod 256) (rev (seq 0 n)).

Definition pad (msg : Buffer) : Buffer :=
  let len := Z.of_nat (List.length msg) in
  msg ++ [128] ++ repeat 0 (Z.to_nat ((55 - len) mod 64))
      ++ be_bytes 8 (8 * len).

Fixpoint be_words (n : nat) (b : Buffer) : list Z :=
  match n, b with
  | S n', b0 :: b1 :: b2 :: b3 :: rest =>
      (((b0 * 256 + b1) * 256 + b2) * 256 + b3) :: be_words n' rest
  | _, _ => []
  end.

(** The message schedule, newest word first: [w] holds W(t-1), W(t-2), ... *)
Fixpoint extend (n : nat) (w : list Z) : list Z :=
  match n with
  | O => w
  | S n' =>
      let wt := add (add (ssig1 (nth 1 w 0)) (nth 6 w 0))
                    (add (ssig0 (nth 14 w 0)) (nth 15 w 0)) in
      extend n' (wt :: w)
  end.

Definition schedule (block : Buffer) : list Z :=
  rev (extend 48 (rev (be_words 16 block))).

Definition round (s : state) (kw : Z * Z) : state :=
  let t1 := add (add (add (hh s) (bsig1 (he s))) (Ch (he s) (hf s) (hg s)))
                (add (fst kw) (snd kw)) in
  let t2 := add (bsig0 (ha s)) (Maj (ha s) (hb s) (hc s)) in
  mkState (add t1 t2) (ha s) (hb s) (hc s) (add (hd s) t1) (he s) (hf s) (hg s).

Definition compress (s : state) (block : Buffer) : state :=
  let r := fold_left round (combine round_constants (schedule block)) s in
  mkState (add (ha s) (ha r)) (add (hb s) (hb r)) (add (hc s) (hc r))
          (add (hd s) (hd r)) (add (he s) (he r)) (add (hf s) (hf r))
          (add (hg s) (hg r)) (add (hh s) (hh r)).

Fixpoint blocks (n : nat) (b : Buffer) : list Buffer :=
  match n with
  | O => []
  | S n' => firstn 64 b :: blocks n' (skipn 64 b)
  end.

Definition output (s : state) : Buffer :=
  be_bytes 4 (ha s) ++ be_bytes 4 (hb s) ++ be_bytes 4 (hc s)
    ++ be_bytes 4 (hd s) ++ be_bytes 4 (he s) ++ be_bytes 4 (hf s)
    ++ be_bytes 4 (hg s) ++ be_bytes 4 (hh s).

Definition digest (msg : Buffer) : Buffer :=
  let p := pad msg in
  output (fold_left compress (blocks (List.length p / 64) p) initial).

End SHA256.

(** ** HMAC (RFC 2104) instantiated with SHA-256 *)

Module HMAC.

Definition block_size : nat := 64.

(** Keys longer than a block are hashed first, then zero-filled. *)
Definition block_key (key : Buffer) : Buffer :=
  let k := if (block_size <? List.length key)%nat then SHA256.digest key else key in
  k ++ repeat 0 (block_size - List.length k).

Definition xor_pad (c : Z) (k : Buffer) : Buffer := map (Z.lxor c) k.

Definition sha256 (key msg : Buffer) : Buffer :=
  let k := block_key key in
  SHA256.digest (xor_pad 0x5c k ++ SHA256.digest (xor_pad 0x36 k ++ msg)).

End HMAC.

Local Open Scope string_scope.
Local Open Scope Z_scope.

(** ** Strings and arrays of the host *)

(** [Array.prototype.join]. *)
Fixpoint join (sep : string) (l : list string) : string :=
  match l with
  | [] => ""
  | x :: rest =>
      match rest with
      | [] => x
      | _ :: _ => x ++ sep ++ join sep rest
      end
  end.

(** A string of the host is a sequence of 16-bit code units.  It is held
    as the bytes of its UTF-8 encoding, which [utf8_encode] writes: a
    surrogate pair gives the four bytes of its character.  The strings
    considered are those in which every surrogate has its pair; they are
    held without loss.  A surrogate without its pair is written as U+FFFD,
    as the host writes it when it hashes or prints the string: it is met
    only where the code units of a text are taken one by one. *)
Definition ascii_of_byte (b : Z) : ascii := ascii_of_N (Z.to_N b).

Definition high_surrogate (x : Z) : bool := (0xD800 <=? x) && (x <=? 0xDBFF).
Definition low_surrogate (x : Z) : bool := (0xDC00 <=? x) && (x <=? 0xDFFF).

Definition utf8_2 (cp : Z) (rest : string) : string :=
  String (ascii_of_byte (0xC0 + cp / 64))
    (String (ascii_of_byte (0x80 + cp mod 64)) rest).

Definition utf8_3 (cp : Z) (rest : string) : string :=
  String (ascii_of_byte (0xE0 + cp / 4096))
    (String (ascii_of_byte (0x80 + (cp / 64) mod 64))
       (String (ascii_of_byte (0x80 + cp mod 64)) rest)).

Definition utf8_4 (cp : Z) (rest : string) : string :=
  String (ascii_of_byte (0xF0 + cp / 262144))
    (String (ascii_of_byte (0x80 + (cp / 4096) mod 64))
       (String (ascii_of_byte (0x80 + (cp / 64) mod 64))
          (String (ascii_of_byte (0x80 + cp mod 64)) rest))).

Fixpoint utf8_encode (units : list Z) : string :=
  match units with
  | [] => ""
  | x :: rest =>
      if x <? 0x80 then String (ascii_of_byte x) (utf8_encode rest)
      else if x <? 0x800 then utf8_2 x (utf8_encode rest)
      else if high_surrogate x then
        match rest with
        | y :: rest' =>
            if low_surrogate y
            then utf8_4 (0x10000 + (x - 0xD800) * 1024 + (y - 0xDC00))
                   (utf8_encode rest')
            else utf8_3 0xFFFD (utf8_encode rest)
        | [] => utf8_3 0xFFFD ""
        end
      else if low_surrogate x then utf8_3 0xFFFD (utf8_encode rest)
      else utf8_3 x (utf8_encode rest)
  end.

(** The character a sequence of two, three or four bytes encodes, when it
    is the UTF-8 encoding of one (no overlong form, no surrogate, nothing
    above U+10FFFF). *)
Definition continuation (b : Z) : bool := (0x80 <=? b) && (b <=? 0xBF).

Definition scalar_2 (b0 b1 : Z) : option Z :=
  if (0xC2 <=? b0) && (b0 <=? 0xDF) && continuation b1
  then Some ((b0 - 0xC0) * 64 + (b1 - 0x80))
  else None.

Definition scalar_3 (b0 b1 b2 : Z) : option Z :=
  let cp := (b0 - 0xE0) * 4096 + (b1 - 0x80) * 64 + (b2 - 0x80) in
  if (0xE0 <=? b0) && (b0 <=? 0xEF) && continuation b1 && continuation b2
     && (0x800 <=? cp) && negb ((0xD800 <=? cp) && (cp <=? 0xDFFF))
  then Some cp
  else None.

Definition scalar_4 (b0 b1 b2 b3 : Z) : option Z :=
  let cp :=
    (b0 - 0xF0) * 262144 + (b1 - 0x80) * 4096 + (b2 - 0x80) * 64 + (b3 - 0x80) in
  if (0xF0 <=? b0) && (b0 <=? 0xF4)
     && continuation b1 && continuation b2 && continuation b3
     && (0x10000 <=? cp) && (cp <=? 0x10FFFF)
  then Some cp
  else None.

(** The code units of the string held: one per character of the basic
    plane, a surrogate pair per character beyond it.  A byte that begins no
    character reads U+FFFD; no string of the host is held with such a
    byte. *)
Fixpoint code_units (s : string) : list Z :=
  match s with
  | EmptyString => []
  | String c0 s1 =>
      let b0 := byte_of_ascii c0 in
      if b0 <? 0x80 then b0 :: code_units s1
      else
        match s1 with
        | EmptyString => [0xFFFD]
        | String c1 s2 =>
            let b1 := byte_of_ascii c1 in
            match scalar_2 b0 b1 with
            | Some cp => cp :: code_units s2
            | None =>
                match s2 with
                | EmptyString => 0xFFFD :: code_units s1
                | String c2 s3 =>
                    let b2 := byte_of_ascii c2 in
                    match scalar_3 b0 b1 b2 with
                    | Some cp => cp :: code_units s3
                    | None =>
                        match s3 with
                        | EmptyString => 0xFFFD :: code_units s1
                        | String c3 s4 =>
                            match scalar_4 b0 b1 b2 (byte_of_ascii c3) with
                            | Some cp =>
                                (0xD800 + (cp - 0x10000) / 1024)
                                :: (0xDC00 + (cp - 0x10000) mod 1024)
                                :: code_units s4
                            | None => 0xFFFD :: code_units s1
                            end
                        end
                    end
                end
            end
        end
  end.

(** A held string that is the encoding of its code units: text. *)
Definition is_text (s : string) : Prop := utf8_encode (code_units s) = s.

(** Sequences of code units compared lexicographically, unit by unit, a
    proper prefix coming first: the order [<] puts two strings in. *)
Fixpoint units_compare (u v : list Z) : comparison :=
  match u, v with
  | [], [] => Eq
  | [], _ :: _ => Lt
  | _ :: _, [] => Gt
  | x :: u', y :: v' =>
      match Z.compare x y with
      | Eq => units_compare u' v'
      | c => c
      end
  end.

(** [SortCompare] of [Array.prototype.sort()] called without a comparator,
    on two strings: the order of their code units.  Two strings of the host
    with the same code units are one string; the bytes decide between two
    byte sequences that hold no string and read alike. *)
Definition SortCompare (x y : string) : comparison :=
  match units_compare (code_units x) (code_units y) with
  | Eq => String.compare x y
  | c => c
  end.

(** [Array.prototype.sort()]: the sorted array is built here by insertion.
    The result does not depend on how the host sorts, a total order having
    one sorted arrangement of distinct keys. *)
Fixpoint sort_insert (k : string) (l : list string) : list string :=
  match l with
  | [] => [k]
  | h :: t =>
      match SortCompare k h with
      | Gt => h :: sort_insert k t
      | _ => k :: l
      end
  end.

Fixpoint Array_sort (l : list string) : list string :=
  match l with
  | [] => []
  | h :: t => sort_insert h (Array_sort t)
  end.

(** [String.prototype.slice(from, to)] for non-negative indices. *)
Definition slice (from to : nat) (s : string) : string :=
  substring from (to - from) s.

(** A [Record<string, string>]: the own enumerable properties in the order
    [Object.keys] lists them.  Keys of an object are pairwise distinct
    ([NoDup (Object_keys o)]); supplying the same properties in another
    insertion order gives a permutation of the list. *)
Definition Record_string := list (string * string).

Definition Object_keys (o : Record_string) : list string := map fst o.

Fixpoint Object_get (o : Record_string) (key : string) : option string :=
  match o with
  | [] => None
  | (k, v) :: o' => if String.eqb k key then Some v else Object_get o' key
  end.

(** A property read inside a template literal: a missing property reads
    [undefined] and is rendered as such. *)
Definition template_get (o : Record_string) (key : string) : string :=
  match Object_get o key with
  | Some v => v
  | None => "undefined"
  end.

(** ** Dates *)

(** The time value of a [Date]: milliseconds since the epoch, or [None] for
    NaN (an invalid date). *)
Definition Date := option Z.

Definition TimeClip (t : Z) : Date :=
  if Z.abs t <=? 8640000000000000 then Some t else None.

(** [a < b] on two dates compares the time values as numbers; a comparison
    with NaN is false. *)
Definition Date_lt (a b : Date) : bool :=
  match a, b with
  | Some x, Some y => x <? y
  | _, _ => false
  end.

Definition msPerDay : Z := 86400000.

(** Year, month and day of a day number counted from 1970-01-01 in the
    proleptic Gregorian calendar. *)
Definition civil_from_days (days : Z) : Z * Z * Z :=
  let z := days + 719468 in
  let era := z / 146097 in
  let doe := z mod 146097 in
  let yoe := (doe - doe / 1460 + doe / 36524 - doe / 146096) / 365 in
  let doy := doe - (365 * yoe + yoe / 4 - yoe / 100) in
  let mp := (5 * doy + 2) / 153 in
  let d := doy - (153 * mp + 2) / 5 + 1 in
  let m := if mp <? 10 then mp + 3 else mp - 9 in
  let y := yoe + era * 400 + (if m <=? 2 then 1 else 0) in
  (y, m, d).

Definition days_from_civil (y m d : Z) : Z :=
  let y' := if m <=? 2 then y - 1 else y in
  let era := y' / 400 in
  let yoe := y' mod 400 in
  let doy := (153 * (if 2 <? m then m - 3 else m + 9) + 2) / 5 + d - 1 in
  let doe := yoe * 365 + yoe / 4 - yoe / 100 + doy in
  era * 146097 + doe - 719468.

Definition YearFromTime (t : Z) : Z := fst (fst (civil_from_days (t / msPerDay))).
Definition MonthFromTime (t : Z) : Z := snd (fst (civil_from_days (t / msPerDay))).
Definition DateFromTime (t : Z) : Z := snd (civil_from_days (t / msPerDay)).
Definition HourFromTime (t : Z) : Z := (t mod msPerDay) / 3600000.
Definition MinFromTime (t : Z) : Z := (t / 60000) mod 60.
Definition SecFromTime (t : Z) : Z := (t / 1000) mod 60.
Definition msFromTime (t : Z) : Z := t mod 1000.

Definition digit_char (d : Z) : ascii := ascii_of_N (Z.to_N (48 + d mod 10)).

(** The [n] low decimal digits of [x], most significant first. *)
Fixpoint digits (n : nat) (x : Z) : string :=
  match n with
  | O => ""
  | S n' => String (digit_char (x / 10 ^ Z.of_nat n')) (digits n' x)
  end.

Definition iso_year (y : Z) : string :=
  if (0 <=? y) && (y <=? 9999) then digits 4 y
  else (if y <? 0 then "-" else "+") ++ digits 6 (Z.abs y).

(** The text [Date.prototype.toISOString] produces for a valid time value:
    [YYYY-MM-DDTHH:mm:ss.sssZ], in UTC. *)
Definition iso_string (t : Z) : string :=
  iso_year (YearFromTime t) ++ "-" ++ digits 2 (MonthFromTime t) ++ "-"
    ++ digits 2 (DateFromTime t) ++ "T" ++ digits 2 (HourFromTime t) ++ ":"
    ++ digits 2 (MinFromTime t) ++ ":" ++ digits 2 (SecFromTime t) ++ "."
    ++ digits 3 (msFromTime t) ++ "Z".

(** ** The host: clock, random source, date parser *)

Inductive Exception : Type :=
| Error (message : string)
| RangeError (message : string)
| TypeError (message : string).

Inductive completion (A : Type) : Type :=
| Normal (a : A)
| Throw (e : Exception).
Arguments Normal {A} a.
Arguments Throw {A} e.

(** What a call can observe and change outside its arguments.
    [Date_parse] is the host's reading of a date string (it depends on the
    engine and on the local time zone), [None] standing for NaN;
    [clock] gives the successive readings of [new Date()];
    [entropy] the successive bytes of the random source;
    [digests] counts the HMAC digests computed so far. *)
Record World : Type := mkWorld
  { Date_parse : string -> option Z;
    clock : nat -> Z;
    clock_reads : nat;
    entropy : nat -> Z;
    entropy_drawn : nat;
    digests : nat }.

Definition JS (A : Type) : Type := World -> completion A * World.

Definition ret {A : Type} (a : A) : JS A := fun w => (Normal a, w).

Definition throw {A : Type} (e : Exception) : JS A := fun w => (Throw e, w).

Definition bind {A B : Type} (m : JS A) (k : A -> JS B) : JS B :=
  fun w =>
    match m w with
    | (Normal a, w') => k a w'
    | (Throw e, w') => (Throw e, w')
    end.

Notation "x <- m ;; k" := (bind m (fun x => k))
  (at level 61, m at next level, right associativity).

(** The world after one reading of the clock, after [n] random bytes were
    drawn, and after one digest was computed. *)
Definition World_tick (w : World) : World :=
  mkWorld (Date_parse w) (clock w) (S (clock_reads w))
          (entropy w) (entropy_drawn w) (digests w).

Definition World_draw (n : nat) (w : World) : World :=
  mkWorld (Date_parse w) (clock w) (clock_reads w)
          (entropy w) (entropy_drawn w + n) (digests w).

Definition World_digest (w : World) : World :=
  mkWorld (Date_parse w) (clock w) (clock_reads w)
          (entropy w) (entropy_drawn w) (S (digests w)).

(** The reading the next [new Date()] gives. *)
Definition World_now (w : World) : Z := clock w (clock_reads w).

(** [new Date()]. *)
Definition Date_new : JS Date :=
  fun w => (Normal (Some (World_now w)), World_tick w).

(** [new Date(s)] for a string [s]. *)
Definition Date_of_string (s : string) : JS Date :=
  fun w => (Normal (Date_parse w s), w).

(** [new Date(n)] for a number [n]. *)
Definition Date_of_number (n : Z) : Date := TimeClip n.

(** [Date.prototype.toISOString]. *)
Definition toISOString (d : Date) : JS string :=
  match d with
  | Some t => ret (iso_string t)
  | None => throw (RangeError "Invalid time value")
  end.

(** [crypto.randomBytes(n)]. *)
Definition World_bytes (n : nat) (w : World) : Buffer :=
  map (fun i => entropy w (entropy_drawn w + i)%nat mod 256) (seq 0 n).

Definition randomBytes (n : nat) : JS Buffer :=
  fun w => (Normal (World_bytes n w), World_draw n w).

(** The object [crypto.createHmac] returns: the key and the data fed so far. *)
Record Hmac : Type := mkHmac { hmac_key : Buffer; hmac_data : Buffer }.

Definition createHmac (algorithm key : string) : JS Hmac :=
  if String.eqb algorithm "sha256"
  then ret (mkHmac (bytes_of_string key) [])
  else throw (Error "Invalid digest").

Definition Hmac_update (h : Hmac) (data : string) : Hmac :=
  mkHmac (hmac_key h) (hmac_data h ++ bytes_of_string data)%list.

Definition Hmac_digest_hex (h : Hmac) : JS string :=
  fun w =>
    (Normal (Buffer_toString_hex (HMAC.sha256 (hmac_key h) (hmac_data h))),
     World_digest w).

(** ** examples/subscribe-link.ts *)

Definition CLAIM_DURATION_SECONDS : Z := 60 * 15.

(** The local [claim] of [generateInvitationClaim]: the four fixed
    parameters, then one [field_<key>=<value>] per key of the sorted keys,
    joined by an ampersand. *)
Definition claim_string (partner : string) (invitationFields : Record_string)
    (learnerKey salt dateExpiresString : string) : string :=
  let sortedFields := Array_sort (Object_keys invitationFields) in
  join "&"
    (("partner=" ++ partner)
     :: ("learner_key=" ++ learnerKey)
     :: ("salt=" ++ salt)
     :: ("date_expires=" ++ dateExpiresString)
     :: map (fun key => "field_" ++ key ++ "=" ++ template_get invitationFields key)
            sortedFields).

Definition generateInvitationClaim (partner : string)
    (invitationFields : Record_string)
    (invitationSecret learnerKey salt dateExpiresString : string) : JS string :=
  expires <- Date_of_string dateExpiresString ;;
  now <- Date_new ;;
  if Date_lt expires now
  then throw (Error "Expiration date must be in the future")
  else
    let claim :=
      claim_string partner invitationFields learnerKey salt dateExpiresString in
    hmac <- createHmac "sha256" invitationSecret ;;
    let hmac := Hmac_update hmac claim in
    signature <- Hmac_digest_hex hmac ;;
    ret (claim ++ "&signature=" ++ signature).

(** The two trailing parameters are optional: [None] is an omitted
    argument, for which the default is evaluated at the call, salt first. *)
Definition generateSubscribeLink (aeviumBaseUrl partner : string)
    (invitationFields : Record_string) (invitationSecret learnerKey : string)
    (salt : option string) (dateExpires : option Date) : JS string :=
  salt <- match salt with
          | Some s => ret s
          | None => b <- randomBytes 8 ;; ret (Buffer_toString_hex b)
          end ;;
  dateExpires <- match dateExpires with
                 | Some d => ret d
                 | None =>
                     now <- Date_new ;;
                     match now with
                     | Some t =>
                         ret (Date_of_number (t + CLAIM_DURATION_SECONDS * 1000))
                     | None => ret None
                     end
                 end ;;
  iso <- toISOString dateExpires ;;
  claim <- generateInvitationClaim partner invitationFields invitationSecret
             learnerKey salt (slice 0 19 iso) ;;
  ret (aeviumBaseUrl ++ "/invitation-claim/?" ++ claim).

(** The token the function returns when nothing is thrown: the claim, the
    signature marker, and the hexadecimal HMAC-SHA256 of the claim. *)
Definition hmac_sha256_hex (secret message : string) : string :=
  Buffer_toString_hex
    (HMAC.sha256 (bytes_of_string secret) (bytes_of_string message)).

Definition signed_claim (secret claim : string) : string :=
  claim ++ "&signature=" ++ hmac_sha256_hex secret claim.

(** The order [Array_sort] puts strings in: that of their code units. *)
Definition string_le (a b : string) : Prop := SortCompare a b <> Gt.

(** A sequence of code units in which every surrogate has its pair. *)
Fixpoint well_paired (u : list Z) : Prop :=
  match u with
  | [] => True
  | x :: rest =>
      0 <= x < 65536
      /\ (if high_surrogate x
          then match rest with
               | y :: rest' => low_surrogate y = true /\ well_paired rest'
               | [] => False
               end
          else low_surrogate x = false /\ well_paired rest)
  end.


(** All strings of a list, one after the other. *)
Definition concat_all (l : list string) : string := fold_right append "" l.

(** The [&field_<key>=<value>] parameters of an object, keys sorted. *)
Definition field_params (o : Record_string) : string :=
  concat_all (map (fun key => "&field_" ++ key ++ "=" ++ template_get o key)
                  (Array_sort (Object_keys o))).

(** Whether [s] begins with [p]. *)
Fixpoint starts_with (p s : string) : bool :=
  match p, s with
  | EmptyString, _ => true
  | String a p', String b s' => Ascii.eqb a b && starts_with p' s'
  | String _ _, EmptyString => false
  end.

(** The part of [s] before the first occurrence of [marker] (all of [s]
    when there is none). *)
Fixpoint before (marker s : string) : string :=
  if starts_with marker s then ""
  else match s with
       | EmptyString => ""
       | String c s' => String c (before marker s')
       end.

Definition canonical_portion (token : string) : string :=
  before "&signature=" token.

(** The link built around the outcome of signing: the base URL and the
    path in front of a token, a thrown exception passed on. *)
Definition link_with (aeviumBaseUrl : string) (r : completion string * World)
  : completion string * World :=
  match r with
  | (Normal claim, w) => (Normal (aeviumBaseUrl ++ "/invitation-claim/?" ++ claim), w)
  | (Throw e, w) => (Throw e, w)
  end.

(** The text [YYYY-MM-DDTHH:MM:SS] of a time value, in UTC. *)
Definition iso_seconds (t : Z) : string :=
  digits 4 (YearFromTime t) ++ "-" ++ digits 2 (MonthFromTime t) ++ "-"
    ++ digits 2 (DateFromTime t) ++ "T" ++ digits 2 (HourFromTime t) ++ ":"
    ++ digits 2 (MinFromTime t) ++ ":" ++ digits 2 (SecFromTime t).

(** ** The receiving side *)

(** Modelled from the spec: the repository has no claim type, the claim
    is the arguments of [generateInvitationClaim]; this is the
    InvitationClaim of section 3, its expiry kept as the text that is
    signed. *)
Record InvitationClaim : Type := mkClaim
  { claim_partner : string;
    claim_learnerKey : string;
    claim_salt : string;
    claim_expiresAt : string;
    claim_fields : Record_string }.

(** [sign(claim, secret)] is [generateInvitationClaim] on the parts of the
    claim. *)
Definition sign (c : InvitationClaim) (secret : string) : JS string :=
  generateInvitationClaim (claim_partner c) (claim_fields c) secret
    (claim_learnerKey c) (claim_salt c) (claim_expiresAt c).

(** Modelled from the spec: the verifier is not part of the repository;
    the ways verification fails, section 7. *)
Inductive VerificationError : Type :=
| InvalidClaimError
| SignatureMismatchError
| ClaimExpiredError.

Fixpoint has_char (c : ascii) (s : string) : bool :=
  match s with
  | EmptyString => false
  | String x s' => Ascii.eqb x c || has_char c s'
  end.

(** Modelled from the spec: the verifier is not part of the repository;
    this is the cutting of a query-string-like token at every separator. *)
Fixpoint split_on (sep : ascii) (s : string) : list string :=
  match s with
  | EmptyString => [EmptyString]
  | String c s' =>
      if Ascii.eqb c sep then EmptyString :: split_on sep s'
      else match split_on sep s' with
           | [] => [String c EmptyString]
           | x :: l => String c x :: l
           end
  end.

(** Modelled from the spec: the verifier is not part of the repository;
    a parameter is cut into name and value at its first equals sign. *)
Fixpoint split_first (sep : ascii) (s : string) : option (string * string) :=
  match s with
  | EmptyString => None
  | String c s' =>
      if Ascii.eqb c sep then Some (EmptyString, s')
      else match split_first sep s' with
           | Some (a, b) => Some (String c a, b)
           | None => None
           end
  end.

(** Modelled from the spec: the verifier is not part of the repository;
    the token parsed into an ordered mapping from names to values. *)
Fixpoint parse_params (segments : list string) : option (list (string * string)) :=
  match segments with
  | [] => Some []
  | seg :: rest =>
      match split_first "=" seg, parse_params rest with
      | Some p, Some l => Some (p :: l)
      | _, _ => None
      end
  end.

(** Modelled from the spec: the verifier is not part of the repository;
    what follows a prefix, for telling the [field_*] parameters apart. *)
Fixpoint strip_prefix (p s : string) : option string :=
  match p, s with
  | EmptyString, _ => Some s
  | String a p', String b s' =>
      if Ascii.eqb a b then strip_prefix p' s' else None
  | String _ _, EmptyString => None
  end.

(** Modelled from the spec: the verifier is not part of the repository;
    the [field_*] parameters of a parsed token, as the extra fields of the
    claim. *)
Fixpoint field_entries (params : list (string * string)) : Record_string :=
  match params with
  | [] => []
  | (name, value) :: rest =>
      match strip_prefix "field_" name with
      | Some key => (key, value) :: field_entries rest
      | None => field_entries rest
      end
  end.

(** Modelled from the spec: the verifier is not part of the repository;
    the bits in which two texts differ, gathered over every character
    whatever the outcome. *)
Fixpoint differing_bits (a b : string) (acc : Z) : Z :=
  match a, b with
  | String x a', String y b' =>
      differing_bits a' b' (Z.lor acc (Z.lxor (byte_of_ascii x) (byte_of_ascii y)))
  | _, _ => acc
  end.

(** Modelled from the spec: the verifier is not part of the repository;
    the constant-time comparison of two signatures. *)
Definition constant_time_eq (a b : string) : bool :=
  Nat.eqb (String.length a) (String.length b) && (differing_bits a b 0 =? 0).

(** Modelled from the spec: the verifier is not part of the repository;
    [verify(signedClaimString, secret, now)] of section 4.2: parse the
    token, take the signature apart, rebuild the canonical string from the
    other parameters as the encoder does, recompute the signature, compare
    in constant time, then check the expiry.  [parse] reads the expiry
    text as a time. *)
Definition verify (parse : string -> option Z)
    (signedClaimString secret : string) (now : Z)
  : VerificationError + InvitationClaim :=
  match parse_params (split_on "&" signedClaimString) with
  | None => inl InvalidClaimError
  | Some params =>
      match Object_get params "signature", Object_get params "partner",
            Object_get params "learner_key", Object_get params "salt",
            Object_get params "date_expires" with
      | Some signature, Some partner, Some learnerKey, Some salt, Some dateExpires =>
          let fields := field_entries params in
          let C' := claim_string partner fields learnerKey salt dateExpires in
          let sig' := hmac_sha256_hex secret C' in
          if constant_time_eq sig' signature
          then match parse dateExpires with
               | Some expiresAt =>
                   if now >? expiresAt then inl ClaimExpiredError
                   else inr (mkClaim partner learnerKey salt dateExpires fields)
               | None => inl InvalidClaimError
               end
          else inl SignatureMismatchError
      | _, _, _, _, _ => inl InvalidClaimError
      end
  end.

(** The claim with its extra fields in ascending order of their keys:
    the same claim as a mapping. *)
Definition sorted_entries (o : Record_string) : Record_string :=
  map (fun k => (k, template_get o k)) (Array_sort (Object_keys o)).

Definition normalised (c : InvitationClaim) : InvitationClaim :=
  mkClaim (claim_partner c) (claim_learnerKey c) (claim_salt c)
          (claim_expiresAt c) (sorted_entries (claim_fields c)).

(** No ampersand in a key or a value, no equals sign in a key. *)
Definition clean_entry (e : string * string) : bool :=
  negb (has_char "&" (fst e)) && negb (has_char "=" (fst e))
  && negb (has_char "&" (snd e)).

(** No ampersand in any text of the claim, no equals sign in a key. *)
Definition separator_free (c : InvitationClaim) : bool :=
  negb (has_char "&" (claim_partner c))
  && negb (has_char "&" (claim_learnerKey c))
  && negb (has_char "&" (claim_salt c))
  && negb (has_char "&" (claim_expiresAt c))
  && forallb clean_entry (claim_fields c).

(** The parameters of a token as the texts between the ampersands, and as
    the pairs a parser reads from them. *)
Definition fixed_segments (p lk s d : string) : list string :=
  [ "partner=" ++ p; "learner_key=" ++ lk; "salt=" ++ s; "date_expires=" ++ d ].

Definition fixed_params (p lk s d : string) : list (string * string) :=
  [ ("partner", p); ("learner_key", lk); ("salt", s); ("date_expires", d) ].

Definition field_segment (e : string * string) : string :=
  "field_" ++ fst e ++ "=" ++ snd e.

Definition field_param (e : string * string) : string * string :=
  ("field_" ++ fst e, snd e).

(** ** A concrete host for running the functions *)

Definition digit_val (c : ascii) : option Z :=
  let n := Z.of_N (N_of_ascii c) in
  if (48 <=? n) && (n <=? 57) then Some (n - 48) else None.

Fixpoint number_of_digits (acc : Z) (l : list ascii) : option Z :=
  match l with
  | [] => Some acc
  | c :: l' =>
      match digit_val c with
      | Some d => number_of_digits (acc * 10 + d) l'
      | None => None
      end
  end.

Definition is_leap (y : Z) : bool :=
  ((y mod 4 =? 0) && negb (y mod 100 =? 0)) || (y mod 400 =? 0).

Definition days_in_month (y m : Z) : Z :=
  if m =? 2 then (if is_leap y then 29 else 28)
  else if (m =? 4) || (m =? 6) || (m =? 9) || (m =? 11) then 30 else 31.

(** A date parser that reads [YYYY-MM-DDTHH:mm:ss] as a local time
    [tz] minutes ahead of UTC and gives NaN for every other text: one host
    among those a [World] stands for, used on the texts [toISOString]
    writes. *)
Definition iso_parse (tz : Z) (s : string) : option Z :=
  match list_ascii_of_string s with
  | [y1; y2; y3; y4; c1; m1; m2; c2; d1; d2; c3; h1; h2; c4; n1; n2; c5; s1; s2] =>
      if (Ascii.eqb c1 "-" && Ascii.eqb c2 "-" && Ascii.eqb c3 "T"
          && Ascii.eqb c4 ":" && Ascii.eqb c5 ":")%bool
      then
        match number_of_digits 0 [y1; y2; y3; y4], number_of_digits 0 [m1; m2],
              number_of_digits 0 [d1; d2], number_of_digits 0 [h1; h2],
              number_of_digits 0 [n1; n2], number_of_digits 0 [s1; s2] with
        | Some y, Some m, Some d, Some hh, Some mm, Some ss =>
            if ((1 <=? m) && (m <=? 12) && (1 <=? d) && (d <=? days_in_month y m)
                && (hh <=? 23) && (mm <=? 59) && (ss <=? 59))%bool
            then Some (((days_from_civil y m d * 24 + hh) * 60 + mm - tz) * 60000
                       + ss * 1000)
            else None
        | _, _, _, _, _, _ => None
        end
      else None
  | _ => None
  end.

(** A host at [tz] minutes from UTC whose clock always reads [now] and
    whose random source yields the bytes 0, 1, 2, ... *)
Definition host (tz now : Z) : World :=
  mkWorld (iso_parse tz) (fun _ => now) 0 (fun i => Z.of_nat i) 0 0.

(** ** Notions used to state what the functions do *)

(** No ampersand in any argument that goes into the claim string, no
    equals sign in a key. *)
Definition clean_arguments (partner : string) (invitationFields : Record_string)
    (learnerKey salt dateExpiresString : string) : bool :=
  negb (has_char "&" partner) && negb (has_char "&" learnerKey)
  && negb (has_char "&" salt) && negb (has_char "&" dateExpiresString)
  && forallb clean_entry invitationFields.

(** The expiry [generateSubscribeLink] works with: the one given, or the
    default computed from the clock. *)
Definition resolved_expiry (dateExpires : option Date) (w : World) : Date :=
  match dateExpires with
  | Some d => d
  | None => Date_of_number (World_now w + CLAIM_DURATION_SECONDS * 1000)
  end.

(** The value of a hexadecimal digit, and [Buffer.from(text, "hex")] on a
    text of lowercase digit pairs. *)
Definition hex_value (c : ascii) : Z :=
  let n := Z.of_N (N_of_ascii c) in
  if n <? 58 then n - 48 else n - 87.

Fixpoint Buffer_from_hex (s : string) : Buffer :=
  match s with
  | String hi (String lo s') => (16 * hex_value hi + hex_value lo) :: Buffer_from_hex s'
  | _ => []
  end.

(** ** The script entry of examples/subscribe-link.ts *)

(** [v || d] on a value read from the environment: the default stands in
    for a variable that is not set and for one set to the empty string. *)
Definition or_default (v : option string) (d : string) : string :=
  match v with
  | Some s => if String.eqb s "" then d else s
  | None => d
  end.

(** Whether a value read from the environment is truthy. *)
Definition truthy (v : option string) : bool :=
  match v with
  | Some s => negb (String.eqb s "")
  | None => false
  end.

(** A value [JSON.parse] returns.  A number is held by the text
    [ToString] gives it; the members of an object are its own properties in
    the order [Object.keys] lists them, with pairwise distinct keys. *)
#[warnings="-register-all"] Inductive JSON_value : Type :=
| JSON_null
| JSON_boolean (b : bool)
| JSON_number (text : string)
| JSON_string (s : string)
| JSON_array (elements : list JSON_value)
| JSON_object (members : list (string * JSON_value)).

(** [ToString] on such a value, as a template literal applies it; [None]
    is the TypeError of a value nothing converts.  An array is joined on
    commas by [Array.prototype.toString], a [null] element giving the empty
    string.  An object without a member [toString] inherits the one of
    [Object.prototype]; a member [toString] hides it and, a parsed value
    being no function, leaves [valueOf], which returns no primitive. *)
Fixpoint ToString (v : JSON_value) : option string :=
  match v with
  | JSON_null => Some "null"
  | JSON_boolean b => Some (if b then "true" else "false")
  | JSON_number text => Some text
  | JSON_string s => Some s
  | JSON_array elements =>
      option_map (join ",")
        ((fix texts (l : list JSON_value) : option (list string) :=
            match l with
            | [] => Some []
            | element :: l' =>
                match match element with
                      | JSON_null => Some ""
                      | _ => ToString element
                      end with
                | Some text =>
                    match texts l' with
                    | Some rest => Some (text :: rest)
                    | None => None
                    end
                | None => None
                end
            end) elements)
  | JSON_object members =>
      if existsb (fun member => String.eqb (fst member) "toString") members
      then None
      else Some "[object Object]"
  end.

(** An array index as a property key. *)
Definition index_key (i : nat) : string :=
  NilZero.string_of_uint (Nat.to_uint i).

Definition indexed {A : Type} (l : list A) : list (string * A) :=
  combine (map index_key (seq 0 (List.length l))) l.

(** The own enumerable properties of a value, as [Object.keys] and a
    property read see them: none for a boolean or a number, the code units
    of a string under their indices, the elements of an array under theirs,
    the members of an object.  [None] is for [null], which has none to
    list. *)
Definition own_properties (v : JSON_value) : option (list (string * JSON_value)) :=
  match v with
  | JSON_null => None
  | JSON_boolean _ => Some []
  | JSON_number _ => Some []
  | JSON_string s =>
      Some (indexed (map (fun unit => JSON_string (utf8_encode [unit]))
                         (code_units s)))
  | JSON_array elements => Some (indexed elements)
  | JSON_object members => Some members
  end.

(** [Object.keys(v)]. *)
Definition Object_keys_of (v : JSON_value) : JS (list string) :=
  match own_properties v with
  | Some properties => ret (map fst properties)
  | None => throw (TypeError "Cannot convert undefined or null to object")
  end.

Fixpoint property_of (properties : list (string * JSON_value)) (key : string)
    : option JSON_value :=
  match properties with
  | [] => None
  | (k, v) :: rest => if String.eqb k key then Some v else property_of rest key
  end.

(** The text a template literal gives a property: [undefined] for a
    property that is not there, [None] for one nothing converts. *)
Definition property_text (properties : list (string * JSON_value))
    (key : string) : option string :=
  match property_of properties key with
  | Some value => ToString value
  | None => Some "undefined"
  end.

(** [v[key]] inside a template literal. *)
Definition template_read (v : JSON_value) (key : string) : JS string :=
  match own_properties v with
  | Some properties =>
      match property_text properties key with
      | Some text => ret text
      | None => throw (TypeError "Cannot convert object to primitive value")
      end
  | None =>
      throw (TypeError ("Cannot read properties of null (reading '" ++ key ++ "')"))
  end.

(** [Array.prototype.map] with a callback that may throw. *)
Fixpoint Array_map {A B : Type} (f : A -> JS B) (l : list A) : JS (list B) :=
  match l with
  | [] => ret []
  | x :: rest =>
      y <- f x ;;
      ys <- Array_map f rest ;;
      ret (y :: ys)
  end.

(** [generateInvitationClaim] as it runs when the fields it is handed are
    a value of any kind, which is what the script below passes: the body of
    the function, with the failures the type of the parameter rules out. *)
Definition generateInvitationClaim_any (partner : string)
    (invitationFields : JSON_value)
    (invitationSecret learnerKey salt dateExpiresString : string) : JS string :=
  expires <- Date_of_string dateExpiresString ;;
  now <- Date_new ;;
  if Date_lt expires now
  then throw (Error "Expiration date must be in the future")
  else
    keys <- Object_keys_of invitationFields ;;
    let sortedFields := Array_sort keys in
    fields <- Array_map
                (fun key =>
                   value <- template_read invitationFields key ;;
                   ret ("field_" ++ key ++ "=" ++ value))
                sortedFields ;;
    let claim :=
      join "&"
        (("partner=" ++ partner)
         :: ("learner_key=" ++ learnerKey)
         :: ("salt=" ++ salt)
         :: ("date_expires=" ++ dateExpiresString)
         :: fields) in
    hmac <- createHmac "sha256" invitationSecret ;;
    let hmac := Hmac_update hmac claim in
    signature <- Hmac_digest_hex hmac ;;
    ret (claim ++ "&signature=" ++ signature).

(** [generateSubscribeLink] on such fields. *)
Definition generateSubscribeLink_any (aeviumBaseUrl partner : string)
    (invitationFields : JSON_value) (invitationSecret learnerKey : string)
    (salt : option string) (dateExpires : option Date) : JS string :=
  salt <- match salt with
          | Some s => ret s
          | None => b <- randomBytes 8 ;; ret (Buffer_toString_hex b)
          end ;;
  dateExpires <- match dateExpires with
                 | Some d => ret d
                 | None =>
                     now <- Date_new ;;
                     match now with
                     | Some t =>
                         ret (Date_of_number (t + CLAIM_DURATION_SECONDS * 1000))
                     | None => ret None
                     end
                 end ;;
  iso <- toISOString dateExpires ;;
  claim <- generateInvitationClaim_any partner invitationFields invitationSecret
             learnerKey salt (slice 0 19 iso) ;;
  ret (aeviumBaseUrl ++ "/invitation-claim/?" ++ claim).

(** The [Record<string, string>] a value stands for when it has properties
    and each of them has a text: its keys with the texts read under them. *)
Fixpoint all_some {A : Type} (l : list (option A)) : option (list A) :=
  match l with
  | [] => Some []
  | Some a :: rest => option_map (cons a) (all_some rest)
  | None :: _ => None
  end.

Definition record_of (v : JSON_value) : option Record_string :=
  match own_properties v with
  | Some properties =>
      all_some (map (fun key => option_map (pair key) (property_text properties key))
                    (map fst properties))
  | None => None
  end.

(** The message of the TypeError that fields of no use end on. *)
Definition fields_type_error (v : JSON_value) : string :=
  match own_properties v with
  | Some _ => "Cannot convert object to primitive value"
  | None => "Cannot convert undefined or null to object"
  end.

(** What a script writes: the parameters object sent to the error stream
    with its message, its members kept apart, and a line of the standard
    output. *)
Inductive Output : Type :=
| Stderr_parameters (message aeviumBaseUrl partner : string)
    (invitationFields : JSON_value) (invitationSecret learnerKey : string)
| Stdout_line (line : string).

(** What ends a script early. *)
Inductive Uncaught : Type :=
| Uncaught_exception (e : Exception)
| Uncaught_SyntaxError.

(** The process a script runs in: its environment variables, the host's
    [JSON.parse] ([None] for a text that is not JSON, on which a
    SyntaxError is thrown), the world and what was written so far. *)
Record Process : Type := mkProcess
  { env : string -> option string;
    JSON_parse : string -> option JSON_value;
    world : World;
    output : list Output }.

(** The block under [require.main === module]. *)
Definition subscribe_link_main (pr : Process) : option Uncaught * Process :=
  let aeviumBaseUrl := or_default (env pr "AEVIUM_BASE_URL") "" in
  let partner := or_default (env pr "AEVIUM_PARTNER") "example-partner" in
  let parsed :=
    if truthy (env pr "AEVIUM_INVITATION_FIELDS")
    then match env pr "AEVIUM_INVITATION_FIELDS" with
         | Some text => JSON_parse pr text
         | None => None
         end
    else Some (JSON_object [("code", JSON_string "ABC123")]) in
  match parsed with
  | None => (Some Uncaught_SyntaxError, pr)
  | Some invitationFields =>
      let invitationSecret :=
        or_default (env pr "AEVIUM_INVITATION_SECRET") "secret" in
      match randomBytes 16 (world pr) with
      | (Throw e, w1) =>
          (Some (Uncaught_exception e),
           mkProcess (env pr) (JSON_parse pr) w1 (output pr))
      | (Normal b, w1) =>
          let learnerKey := Buffer_toString_hex b in
          let logged :=
            app (output pr)
                [Stderr_parameters
                   "Generating subscribe link with the following parameters: "
                   aeviumBaseUrl partner invitationFields invitationSecret
                   learnerKey] in
          match generateSubscribeLink_any aeviumBaseUrl partner invitationFields
                  invitationSecret learnerKey None None w1 with
          | (Throw e, w2) =>
              (Some (Uncaught_exception e),
               mkProcess (env pr) (JSON_parse pr) w2 logged)
          | (Normal link, w2) =>
              (None,
               mkProcess (env pr) (JSON_parse pr) w2
                         (app logged [Stdout_line link]))
          end
      end
  end.

(** A process with an empty environment on the host at UTC. *)
Definition bare_process (now : Z) : Process :=
  mkProcess (fun _ => None) (fun _ => None) (host 0 now) [].

(** A process whose fields variable holds [text], which the parser reads
    as [value]. *)
Definition fields_process (text : string) (value : JSON_value) (now : Z)
    : Process :=
  mkProcess
    (fun name =>
       if String.eqb name "AEVIUM_INVITATION_FIELDS" then Some text else None)
    (fun t => if String.eqb t text then Some value else None)
    (host 0 now) [].

(** ** examples/benefit-grants.ts *)

(** [JSON.stringify] on a string: between two quotes, the quote and the
    backslash behind a backslash, the control characters as their short
    escape or as [\u00XX], every other character as it is. *)
Definition JSON_escape (c : ascii) : string :=
  let n := Z.of_N (N_of_ascii c) in
  if n =? 34 then String "092" (String c "")
  else if n =? 92 then "\\"
  else if n =? 8 then "\b"
  else if n =? 9 then "\t"
  else if n =? 10 then "\n"
  else if n =? 12 then "\f"
  else if n =? 13 then "\r"
  else if n <? 32
       then "\u00" ++ String (hex_digit (n / 16)) (String (hex_digit n) "")
       else String c "".

Fixpoint JSON_escape_all (s : string) : string :=
  match s with
  | EmptyString => ""
  | String c s' => JSON_escape c ++ JSON_escape_all s'
  end.

Definition JSON_quote (s : string) : string :=
  String "034" (JSON_escape_all s ++ String "034" "").

(** [JSON.stringify] on an object whose members are strings: the members
    in their order, no space. *)
Definition JSON_stringify (o : Record_string) : string :=
  "{" ++ join "," (map (fun e => JSON_quote (fst e) ++ ":" ++ JSON_quote (snd e)) o)
      ++ "}".

(** The two constants of the module, read from the environment when the
    module is loaded. *)
Definition API_ROOT (env : string -> option string) : string :=
  or_default (env "AEVIUM_BASE_URL") "" ++ "/api/partner/v1".

Definition API_KEY (env : string -> option string) : string :=
  or_default (env "AEVIUM_API_KEY") "".

(** What is handed to [fetch]: the URL and the members of the init object
    ([None] for a member that is not given). *)
Record Request : Type := mkRequest
  { req_url : string;
    req_method : option string;
    req_headers : list (string * string);
    req_body : option string }.

Section BenefitGrants.

(** The values a response body can denote, whatever they are; the module
    never looks into them. *)
Variable Json : Type.

(** A response: its status and what [response.json()] gives, [None] when
    the body is not JSON and the call rejects with a SyntaxError. *)
Record Response : Type := mkResponse
  { status : Z;
    json : option Json }.

(** [response.ok]: the status is in the range 200-299. *)
Definition Response_ok (r : Response) : bool :=
  (200 <=? status r) && (status r <=? 299).

(** What an asynchronous function rejects with. *)
Inductive Rejection : Type :=
| Rejected_exception (e : Exception)
| Rejected_fetch
| Rejected_SyntaxError
| Rejected_status (status : Z) (error : Json).

(** The client side of the API: the environment the module constants were
    read from, the world, the network ([respond n r] is what the [n]-th
    request gets when it is [r], [None] when [fetch] rejects), and the
    requests sent so far. *)
Record Client : Type := mkClient
  { client_env : string -> option string;
    client_world : World;
    respond : nat -> Request -> option Response;
    sent : list Request }.

Definition Async (A : Type) : Type := Client -> (Rejection + A) * Client.

(** [await fetch(url, init)]. *)
Definition fetch (r : Request) : Async Response :=
  fun c =>
    let c' := mkClient (client_env c) (client_world c) (respond c)
                       (app (sent c) [r]) in
    match respond c (List.length (sent c)) r with
    | Some response => (inr response, c')
    | None => (inl Rejected_fetch, c')
    end.

(** What both functions do with the response. *)
Definition grant_of_response (response : Response) : Rejection + Json :=
  if negb (Response_ok response)
  then match json response with
       | Some error => inl (Rejected_status (status response) error)
       | None => inl Rejected_SyntaxError
       end
  else match json response with
       | Some grant => inr grant
       | None => inl Rejected_SyntaxError
       end.

(** [d.toISOString()] where nothing but the date matters. *)
Definition Date_toISOString (d : Date) : Exception + string :=
  match d with
  | Some t => inr (iso_string t)
  | None => inl (RangeError "Invalid time value")
  end.

Definition grant_headers (env : string -> option string) : list (string * string) :=
  [ ("Content-Type", "application/json");
    ("Authorization", "Bearer " ++ API_KEY env) ].

Definition postBenefitGrant (learnerKey : string)
    (datePeriodStart datePeriodEnd : Date) (program level : string)
  : Async Json :=
  fun c =>
    match Date_toISOString datePeriodStart with
    | inl e => (inl (Rejected_exception e), c)
    | inr periodStart =>
        match Date_toISOString datePeriodEnd with
        | inl e => (inl (Rejected_exception e), c)
        | inr periodEnd =>
            let request :=
              mkRequest (API_ROOT (client_env c) ++ "/benefit-grants")
                (Some "POST") (grant_headers (client_env c))
                (Some (JSON_stringify
                         [ ("learnerKey", learnerKey);
                           ("datePeriodStart", periodStart);
                           ("datePeriodEnd", periodEnd);
                           ("program", program);
                           ("level", level) ])) in
            match fetch request c with
            | (inl r, c') => (inl r, c')
            | (inr response, c') => (grant_of_response response, c')
            end
        end
    end.

Definition getBenefitGrant (uid : string) : Async Json :=
  fun c =>
    let request :=
      mkRequest (API_ROOT (client_env c) ++ "/benefit-grants/" ++ uid)
        None (grant_headers (client_env c)) None in
    match fetch request c with
    | (inl r, c') => (inl r, c')
    | (inr response, c') => (grant_of_response response, c')
    end.

(** The rendering of [grant.uid] inside a template literal, [None] when
    reading the member throws a TypeError (the body was [null]). *)
Variable uid_text : Json -> option string.

(** What the error handlers of the script receive. *)
Inductive Caught : Type :=
| Caught_rejection (r : Rejection)
| Caught_TypeError.

(** What the script writes: lines, a grant under a message, a caught value
    under a message. *)
Inductive GrantOutput : Type :=
| Log_line (line : string)
| Log_grant (message : string) (grant : Json)
| Error_line (line : string)
| Error_caught (message : string) (caught : Caught).

(** The process of the script: command line, client, what was written. *)
Record GrantProcess : Type := mkGrantProcess
  { argv : nat -> option string;
    client : Client;
    written : list GrantOutput }.

(** [a || b] on two values that may be undefined. *)
Definition or_else (a b : option string) : option string :=
  if truthy a then a else b.

Definition thirty_days : Z := 30 * 24 * 60 * 60 * 1000.

(** The block under [require.main === module]; the result is the exit
    code [process.exit] was called with, if it was. *)
Definition benefit_grants_main (pr : GrantProcess) : option Z * GrantProcess :=
  let c := client pr in
  let learnerKey := argv pr 2%nat in
  let program :=
    or_else (argv pr 3%nat) (client_env c "AEVIUM_DEFAULT_BENEFIT_PROGRAM") in
  let level :=
    or_else (argv pr 4%nat)
            (client_env c "AEVIUM_DEFAULT_BENEFIT_PROGRAM_LEVEL") in
  match learnerKey, program, level with
  | Some learnerKey, Some program, Some level =>
      if truthy (Some learnerKey) && truthy (Some program) && truthy (Some level)
      then
        let w := client_world c in
        let periodStart := Some (World_now w) in
        let periodEnd :=
          Date_of_number (World_now (World_tick w) + thirty_days) in
        let c0 := mkClient (client_env c) (World_tick (World_tick w))
                           (respond c) (sent c) in
        match postBenefitGrant learnerKey periodStart periodEnd program level c0 with
        | (inl r, c1) =>
            (None,
             mkGrantProcess (argv pr) c1
               (app (written pr)
                    [Error_caught "Failed to create grant:" (Caught_rejection r)]))
        | (inr grant, c1) =>
            match uid_text grant with
            | None =>
                (None,
                 mkGrantProcess (argv pr) c1
                   (app (written pr)
                        [Error_caught "Failed to create grant:" Caught_TypeError]))
            | Some uid =>
                let created :=
                  app (written pr)
                      [ Log_line ("Created grant " ++ uid);
                        Log_line (String "010" "Fetching grant...") ] in
                match getBenefitGrant uid c1 with
                | (inr fetched, c2) =>
                    (None,
                     mkGrantProcess (argv pr) c2
                       (app created
                            [Log_grant "Confirmed existence of grant:" fetched]))
                | (inl r, c2) =>
                    (None,
                     mkGrantProcess (argv pr) c2
                       (app created
                            [Error_caught "Failed to fetch grant:"
                               (Caught_rejection r)]))
                end
            end
        end
      else
        (Some 1,
         mkGrantProcess (argv pr) c
           (app (written pr)
                [Error_line "Usage: node benefit-grants.js <learnerKey> <program> <level>"]))
  | _, _, _ =>
      (Some 1,
       mkGrantProcess (argv pr) c
         (app (written pr)
              [Error_line "Usage: node benefit-grants.js <learnerKey> <program> <level>"]))
  end.

End BenefitGrants.

Arguments mkResponse {Json} status json.
Arguments status {Json} r.
Arguments json {Json} r.
Arguments Response_ok {Json} r.
Arguments Rejected_exception {Json} e.
Arguments Rejected_fetch {Json}.
Arguments Rejected_SyntaxError {Json}.
Arguments Rejected_status {Json} status error.
Arguments mkClient {Json} client_env client_world respond sent.
Arguments client_env {Json} c.
Arguments client_world {Json} c.
Arguments respond {Json} c.
Arguments sent {Json} c.
Arguments fetch {Json} r.
Arguments grant_of_response {Json} response.
Arguments postBenefitGrant {Json}.
Arguments getBenefitGrant {Json}.
Arguments Caught_rejection {Json} r.
Arguments Caught_TypeError {Json}.
Arguments Log_line {Json} line.
Arguments Log_grant {Json} message grant.
Arguments Error_line {Json} line.
Arguments Error_caught {Json} message caught.
Arguments mkGrantProcess {Json} argv client written.
Arguments argv {Json} g.
Arguments client {Json} g.
Arguments written {Json} g.
Arguments benefit_grants_main {Json} uid_text pr.

(** The request [postBenefitGrant] builds from two valid dates, and the one
    [getBenefitGrant] builds. *)
Definition post_request (env : string -> option string) (learnerKey : string)
    (periodStart periodEnd : Z) (program level : string) : Request :=
  mkRequest (API_ROOT env ++ "/benefit-grants") (Some "POST")
    [ ("Content-Type", "application/json");
      ("Authorization", "Bearer " ++ API_KEY env) ]
    (Some (JSON_stringify
             [ ("learnerKey", learnerKey);
               ("datePeriodStart", iso_string periodStart);
               ("datePeriodEnd", iso_string periodEnd);
               ("program", program);
               ("level", level) ])).

Definition get_request (env : string -> option string) (uid : string) : Request :=
  mkRequest (API_ROOT env ++ "/benefit-grants/" ++ uid) None
    [ ("Content-Type", "application/json");
      ("Authorization", "Bearer " ++ API_KEY env) ]
    None.

(** Reading a JSON string back: what stands between the two quotes with
    its escapes undone, [None] for a text that is not a JSON string of
    one-byte characters. *)
Fixpoint JSON_string_body (s : string) : option string :=
  match s with
  | EmptyString => None
  | String c s1 =>
      let n := Z.of_N (N_of_ascii c) in
      if n =? 34
      then match s1 with
           | EmptyString => Some EmptyString
           | String _ _ => None
           end
      else if n =? 92
      then match s1 with
           | String e s2 =>
               let m := Z.of_N (N_of_ascii e) in
               if (m =? 34) || (m =? 92) || (m =? 47)
               then option_map (String e) (JSON_string_body s2)
               else if m =? 98 then option_map (String "008") (JSON_string_body s2)
               else if m =? 116 then option_map (String "009") (JSON_string_body s2)
               else if m =? 110 then option_map (String "010") (JSON_string_body s2)
               else if m =? 102 then option_map (String "012") (JSON_string_body s2)
               else if m =? 114 then option_map (String "013") (JSON_string_body s2)
               else if m =? 117
               then match s2 with
                    | String a (String b (String h (String l s3))) =>
                        if Ascii.eqb a "0" && Ascii.eqb b "0"
                        then option_map
                               (String (ascii_of_N
                                          (Z.to_N (16 * hex_value h + hex_value l))))
                               (JSON_string_body s3)
                        else None
                    | _ => None
                    end
               else None
           | EmptyString => None
           end
      else if n <? 32 then None
      else option_map (String c) (JSON_string_body s1)
  end.

Definition JSON_unquote (s : string) : option string :=
  match s with
  | String q body => if Ascii.eqb q "034" then JSON_string_body body else None
  | EmptyString => None
  end.

(** The line the grants script writes when an argument is missing. *)
Definition usage_line : string :=
  "Usage: node benefit-grants.js <learnerKey> <program> <level>".

(** A server that answers the first request with 201 and the later ones
    with 200, each time with the same grant, and a script run against it
    with its three arguments. *)
Definition grant_server (n : nat) (r : Request) : option (Response string) :=
  match n with
  | O => Some (mkResponse 201 (Some "grant-1"))
  | S _ => Some (mkResponse 200 (Some "grant-1"))
  end.

Definition grant_process : GrantProcess string :=
  mkGrantProcess
    (fun i => match i with
              | 2%nat => Some "lk_001"
              | 3%nat => Some "wellness"
              | 4%nat => Some "gold"
              | _ => None
              end)
    (mkClient (fun _ => None) (host 0 1735689600000) grant_server [])
    [].

(** * Properties *)

(** ** The crypto model agrees with published test vectors *)

Example sha256_constants :
  nth 0 SHA256.round_constants 0 = 0x428a2f98
  /\ nth 63 SHA256.round_constants 0 = 0xc67178f2
  /\ List.length SHA256.round_constants = 64%nat
  /\ SHA256.ha SHA256.initial = 0x6a09e667
  /\ SHA256.hh SHA256.initial = 0x5be0cd19.
Proof. repeat split. Qed.

Example sha256_abc :
  Buffer_toString_hex (SHA256.digest (bytes_of_string "abc"))
  = "ba7816bf8f01cfea414140de5dae2223b00361a396177a9cb410ff61f20015ad".
Proof. vm_compute. reflexivity. Qed.

Example hmac_rfc4231_case2 :
  hmac_sha256_hex "Jefe" "what do ya want for nothing?"
  = "5bdcc146bf60754e6a042426089575c75a003f089d2739839dec58b964ec3843".
Proof. vm_compute. reflexivity. Qed.

(** ** Shape of a hexadecimal digest *)

Lemma hex_digit_lower (n : Z) : is_lower_hex (hex_digit n).
Proof.
  unfold is_lower_hex, hex_digit.
  apply nth_In.
  change (List.length hex_alphabet) with 16%nat.
  pose proof (Z.mod_pos_bound n 16 ltac:(lia)). lia.
Qed.

Lemma hex_length (b : Buffer) :
  String.length (Buffer_toString_hex b) = (2 * List.length b)%nat.
Proof.
  induction b as [| x b IH]; simpl; [reflexivity | rewrite IH; lia].
Qed.

Lemma hex_lower (b : Buffer) : string_forall is_lower_hex (Buffer_toString_hex b).
Proof.
  induction b as [| x b IH]; simpl; auto using hex_digit_lower.
Qed.

Lemma sha256_digest_length (msg : Buffer) :
  List.length (SHA256.digest msg) = 32%nat.
Proof. reflexivity. Qed.

Lemma hmac_sha256_hex_length (secret message : string) :
  String.length (hmac_sha256_hex secret message) = 64%nat.
Proof.
  unfold hmac_sha256_hex, HMAC.sha256.
  rewrite hex_length, sha256_digest_length. reflexivity.
Qed.

Lemma hmac_sha256_hex_lower (secret message : string) :
  string_forall is_lower_hex (hmac_sha256_hex secret message).
Proof. apply hex_lower. Qed.

(** ** Running [generateInvitationClaim] *)

Lemma generateInvitationClaim_run partner invitationFields invitationSecret
    learnerKey salt dateExpiresString (w : World) :
  generateInvitationClaim partner invitationFields invitationSecret
    learnerKey salt dateExpiresString w
  = if Date_lt (Date_parse w dateExpiresString) (Some (World_now w))
    then (Throw (Error "Expiration date must be in the future"), World_tick w)
    else (Normal (signed_claim invitationSecret
                    (claim_string partner invitationFields learnerKey salt
                       dateExpiresString)),
          World_digest (World_tick w)).
Proof.
  unfold generateInvitationClaim, bind, Date_of_string, Date_new.
  change (Date_parse (World_tick w)) with (Date_parse w).
  destruct (Date_lt (Date_parse w dateExpiresString) (Some (World_now w)));
    reflexivity.
Qed.

(** ** Appending and joining *)

Lemma append_assoc (a b c : string) : (a ++ b) ++ c = a ++ (b ++ c).
Proof. induction a as [| x a IH]; simpl; [reflexivity | now rewrite IH]. Qed.

Lemma append_empty_r (a : string) : a ++ "" = a.
Proof. induction a as [| x a IH]; simpl; [reflexivity | now rewrite IH]. Qed.

Lemma length_append (a b : string) :
  String.length (a ++ b) = (String.length a + String.length b)%nat.
Proof. induction a as [| x a IH]; simpl; [reflexivity | now rewrite IH]. Qed.

Lemma join_cons (sep x : string) (l : list string) :
  join sep (x :: l) = x ++ concat_all (map (append sep) l).
Proof.
  revert x. induction l as [| y l IH]; intros x.
  - simpl. now rewrite append_empty_r.
  - change (join sep (x :: y :: l)) with (x ++ sep ++ join sep (y :: l)).
    rewrite IH. simpl. now rewrite append_assoc.
Qed.

Lemma claim_string_expand partner invitationFields learnerKey salt dateExpiresString :
  claim_string partner invitationFields learnerKey salt dateExpiresString
  = "partner=" ++ partner ++ "&learner_key=" ++ learnerKey ++ "&salt=" ++ salt
      ++ "&date_expires=" ++ dateExpiresString ++ field_params invitationFields.
Proof.
  unfold claim_string, field_params.
  rewrite join_cons. cbn [map concat_all fold_right].
  rewrite map_map.
  rewrite !append_assoc. reflexivity.
Qed.

(** ** The signed token *)

(** C1: when the expiry check lets the claim through, the function returns
    exactly the claim string, then [&signature=], then the HMAC-SHA256 of
    the claim string keyed with the secret, as 64 lowercase hexadecimal
    digits; one clock reading and one digest are the only effects. *)
Theorem signed_claim_is_claim_and_hex_hmac :
  forall partner invitationFields invitationSecret learnerKey salt
         dateExpiresString (w : World),
    Date_lt (Date_parse w dateExpiresString) (Some (World_now w)) = false ->
    let C := claim_string partner invitationFields learnerKey salt
               dateExpiresString in
    let signature :=
      Buffer_toString_hex
        (HMAC.sha256 (bytes_of_string invitationSecret) (bytes_of_string C)) in
    generateInvitationClaim partner invitationFields invitationSecret
      learnerKey salt dateExpiresString w
    = (Normal (C ++ "&signature=" ++ signature), World_digest (World_tick w))
    /\ String.length signature = 64%nat
    /\ string_forall is_lower_hex signature.
Proof.
  intros partner invitationFields invitationSecret learnerKey salt
         dateExpiresString w Hcheck C signature.
  split; [| split].
  - rewrite generateInvitationClaim_run, Hcheck. reflexivity.
  - apply hmac_sha256_hex_length.
  - apply hmac_sha256_hex_lower.
Qed.

Lemma signed_claim_is_claim_and_hex_hmac_witness :
  Date_lt (Date_parse (host 0 1735689600000) "2025-01-01T00:15:00")
          (Some (World_now (host 0 1735689600000))) = false
  /\ generateInvitationClaim "acme" [("code", "ABC123")] "s3cr3t" "lk_001"
       "deadbeef" "2025-01-01T00:15:00" (host 0 1735689600000)
     = (Normal
          ("partner=acme&learner_key=lk_001&salt=deadbeef&date_expires=2025-01-01T00:15:00&field_code=ABC123"
           ++ "&signature="
           ++ "3825fbe2b7b6399b08f55024a1c58042fe19f9000641da39c08bd694bf262612"),
        World_digest (World_tick (host 0 1735689600000))).
Proof.
  assert (Hc : Date_lt (Date_parse (host 0 1735689600000) "2025-01-01T00:15:00")
                       (Some (World_now (host 0 1735689600000))) = false)
    by (vm_compute; reflexivity).
  split; [exact Hc |].
  destruct (signed_claim_is_claim_and_hex_hmac "acme" [("code", "ABC123")]
              "s3cr3t" "lk_001" "deadbeef" "2025-01-01T00:15:00"
              (host 0 1735689600000) Hc) as [H _].
  rewrite H.
  apply (f_equal (fun c => (Normal c, World_digest (World_tick (host 0 1735689600000))))).
  vm_compute. reflexivity.
Defined.

(** C3: in the documented scenario, with the clock before the expiry, the
    token is the documented canonical string followed by [&signature=] and
    the digest, and everything before [&signature=] is that string. *)
Theorem scenario_canonical_portion :
  forall (w : World) (secret : string) (t : Z),
    Date_parse w "2025-01-01T00:15:00" = Some t ->
    World_now w < t ->
    exists token,
      fst (generateInvitationClaim "acme" [("code", "ABC123")] secret "lk_001"
             "deadbeef" "2025-01-01T00:15:00" w) = Normal token
      /\ token
         = "partner=acme&learner_key=lk_001&salt=deadbeef&date_expires=2025-01-01T00:15:00&field_code=ABC123"
             ++ "&signature="
             ++ hmac_sha256_hex secret
                  "partner=acme&learner_key=lk_001&salt=deadbeef&date_expires=2025-01-01T00:15:00&field_code=ABC123"
      /\ canonical_portion token
         = "partner=acme&learner_key=lk_001&salt=deadbeef&date_expires=2025-01-01T00:15:00&field_code=ABC123".
Proof.
  intros w secret t Hparse Hnow.
  eexists. split; [| split].
  - rewrite generateInvitationClaim_run, Hparse.
    unfold Date_lt.
    destruct (Z.ltb_spec t (World_now w)) as [Hlt | _]; [lia |].
    reflexivity.
  - reflexivity.
  - unfold signed_claim.
    generalize (hmac_sha256_hex secret
                  (claim_string "acme" [("code", "ABC123")] "lk_001" "deadbeef"
                     "2025-01-01T00:15:00")).
    intros sig. vm_compute. reflexivity.
Qed.

Lemma scenario_canonical_portion_witness :
  exists token,
    fst (generateInvitationClaim "acme" [("code", "ABC123")] "s3cr3t" "lk_001"
           "deadbeef" "2025-01-01T00:15:00" (host 0 1735689600000))
    = Normal token
    /\ token
       = "partner=acme&learner_key=lk_001&salt=deadbeef&date_expires=2025-01-01T00:15:00&field_code=ABC123"
           ++ "&signature="
           ++ hmac_sha256_hex "s3cr3t"
                "partner=acme&learner_key=lk_001&salt=deadbeef&date_expires=2025-01-01T00:15:00&field_code=ABC123"
    /\ canonical_portion token
       = "partner=acme&learner_key=lk_001&salt=deadbeef&date_expires=2025-01-01T00:15:00&field_code=ABC123".
Proof.
  apply (scenario_canonical_portion (host 0 1735689600000) "s3cr3t" 1735690500000).
  - vm_compute. reflexivity.
  - vm_compute. reflexivity.
Defined.

(** ** The expiry check *)

(** An expiry that the host reads as strictly before the clock is refused,
    and the refusal comes before any digest is computed. *)
Lemma past_expiry_throws :
  forall partner invitationFields invitationSecret learnerKey salt
         dateExpiresString (w : World) (t : Z),
    Date_parse w dateExpiresString = Some t ->
    t < World_now w ->
    generateInvitationClaim partner invitationFields invitationSecret
      learnerKey salt dateExpiresString w
    = (Throw (Error "Expiration date must be in the future"), World_tick w)
    /\ digests (World_tick w) = digests w.
Proof.
  intros partner invitationFields invitationSecret learnerKey salt
         dateExpiresString w t Hparse Hlt.
  split; [| reflexivity].
  rewrite generateInvitationClaim_run, Hparse. unfold Date_lt.
  destruct (Z.ltb_spec t (World_now w)); [reflexivity | lia].
Qed.

(** An expiry that the host reads as not before the clock is let through. *)
Lemma expiry_not_before_now_passes (w : World) (d : string) (t : Z) :
  Date_parse w d = Some t -> World_now w <= t ->
  Date_lt (Date_parse w d) (Some (World_now w)) = false.
Proof.
  intros -> Hle. unfold Date_lt.
  destruct (Z.ltb_spec t (World_now w)); [lia | reflexivity].
Qed.

(** C4: an expiry equal to the clock reading is not in the future, yet the
    check lets it through: at 2025-01-01T00:15:00 UTC the claim expiring at
    that very instant is signed, and a digest has been computed. *)
Theorem expiry_equal_to_now_is_signed :
  Date_parse (host 0 1735690500000) "2025-01-01T00:15:00"
  = Some (World_now (host 0 1735690500000))
  /\ fst (generateInvitationClaim "acme" [("code", "ABC123")] "s3cr3t" "lk_001"
            "deadbeef" "2025-01-01T00:15:00" (host 0 1735690500000))
     = Normal "partner=acme&learner_key=lk_001&salt=deadbeef&date_expires=2025-01-01T00:15:00&field_code=ABC123&signature=3825fbe2b7b6399b08f55024a1c58042fe19f9000641da39c08bd694bf262612"
  /\ digests (snd (generateInvitationClaim "acme" [("code", "ABC123")] "s3cr3t"
                     "lk_001" "deadbeef" "2025-01-01T00:15:00"
                     (host 0 1735690500000)))
     = 1%nat.
Proof.
  split; [| split]; vm_compute; reflexivity.
Qed.

(** C9: a string the host cannot read as a date raises nothing: the
    comparison with NaN is false, and the string is placed as it is after
    [date_expires=] in the signed token. *)
Theorem unparseable_expiry_is_signed :
  forall partner invitationFields invitationSecret learnerKey salt
         dateExpiresString (w : World),
    Date_parse w dateExpiresString = None ->
    generateInvitationClaim partner invitationFields invitationSecret
      learnerKey salt dateExpiresString w
    = (Normal
         (signed_claim invitationSecret
            ("partner=" ++ partner ++ "&learner_key=" ++ learnerKey
               ++ "&salt=" ++ salt ++ "&date_expires=" ++ dateExpiresString
               ++ field_params invitationFields)),
       World_digest (World_tick w)).
Proof.
  intros partner invitationFields invitationSecret learnerKey salt
         dateExpiresString w Hparse.
  rewrite generateInvitationClaim_run, Hparse, claim_string_expand.
  reflexivity.
Qed.

Lemma unparseable_expiry_is_signed_witness :
  Date_parse (host 0 1735689600000) "not-a-date" = None
  /\ fst (generateInvitationClaim "acme" [("code", "ABC123")] "s3cr3t" "lk_001"
            "deadbeef" "not-a-date" (host 0 1735689600000))
     = Normal "partner=acme&learner_key=lk_001&salt=deadbeef&date_expires=not-a-date&field_code=ABC123&signature=bb3a681674a4c0b3517ba4c402921122632ac14b9798f3efbf0ea5eeb497e424".
Proof.
  assert (Hp : Date_parse (host 0 1735689600000) "not-a-date" = None)
    by (vm_compute; reflexivity).
  split; [exact Hp |].
  rewrite (unparseable_expiry_is_signed "acme" [("code", "ABC123")] "s3cr3t"
             "lk_001" "deadbeef" "not-a-date" (host 0 1735689600000) Hp).
  cbn [fst]. apply (f_equal (@Normal string)). vm_compute. reflexivity.
Defined.

(** ** Inputs the function does not validate *)

(** C7, as stated, fails: with an empty partner and an empty learner key
    a token is returned. *)
Lemma empty_partner_and_learner_key_counterexample :
  fst (generateInvitationClaim "" [] "s3cr3t" "" "deadbeef"
         "2025-01-01T00:15:00" (host 0 1735689600000))
  = Normal "partner=&learner_key=&salt=deadbeef&date_expires=2025-01-01T00:15:00&signature=8dd223d12da8a12f1d4efc8e4ef0638da26a1b005670d770c31e8c3d0161a7d3".
Proof. vm_compute. reflexivity. Qed.

(** C7, amended: an empty partner or learner key is not refused; when the
    expiry check passes, the token is returned with the empty value in
    place after [partner=] or [learner_key=]. *)
Theorem empty_partner_or_learner_key_is_signed :
  forall partner invitationFields invitationSecret learnerKey salt
         dateExpiresString (w : World),
    partner = "" \/ learnerKey = "" ->
    Date_lt (Date_parse w dateExpiresString) (Some (World_now w)) = false ->
    generateInvitationClaim partner invitationFields invitationSecret
      learnerKey salt dateExpiresString w
    = (Normal
         (signed_claim invitationSecret
            ("partner=" ++ partner ++ "&learner_key=" ++ learnerKey
               ++ "&salt=" ++ salt ++ "&date_expires=" ++ dateExpiresString
               ++ field_params invitationFields)),
       World_digest (World_tick w)).
Proof.
  intros partner invitationFields invitationSecret learnerKey salt
         dateExpiresString w _ Hcheck.
  rewrite generateInvitationClaim_run, Hcheck, claim_string_expand.
  reflexivity.
Qed.

Lemma empty_partner_or_learner_key_is_signed_witness :
  ("" = "" \/ "lk_001" = "")
  /\ Date_lt (Date_parse (host 0 1735689600000) "2025-01-01T00:15:00")
             (Some (World_now (host 0 1735689600000))) = false
  /\ fst (generateInvitationClaim "" [("code", "ABC123")] "s3cr3t" "lk_001"
            "deadbeef" "2025-01-01T00:15:00" (host 0 1735689600000))
     = Normal
         (signed_claim "s3cr3t"
            "partner=&learner_key=lk_001&salt=deadbeef&date_expires=2025-01-01T00:15:00&field_code=ABC123").
Proof.
  assert (Hc : Date_lt (Date_parse (host 0 1735689600000) "2025-01-01T00:15:00")
                       (Some (World_now (host 0 1735689600000))) = false)
    by (vm_compute; reflexivity).
  split; [left; reflexivity | split; [exact Hc |]].
  rewrite (empty_partner_or_learner_key_is_signed "" [("code", "ABC123")]
             "s3cr3t" "lk_001" "deadbeef" "2025-01-01T00:15:00"
             (host 0 1735689600000) (or_introl eq_refl) Hc).
  cbn [fst]. apply (f_equal (fun c => Normal (signed_claim "s3cr3t" c))).
  vm_compute. reflexivity.
Defined.

(** C8, as stated, fails: with the empty secret a signed claim is
    returned, its signature being the HMAC under the empty key. *)
Lemma empty_secret_counterexample :
  fst (generateInvitationClaim "acme" [("code", "ABC123")] "" "lk_001"
         "deadbeef" "2025-01-01T00:15:00" (host 0 1735689600000))
  = Normal "partner=acme&learner_key=lk_001&salt=deadbeef&date_expires=2025-01-01T00:15:00&field_code=ABC123&signature=b07e1dd37026b1a8118600f0ea01e62d14890ba444dc95e900523d1719899261".
Proof. vm_compute. reflexivity. Qed.

(** C8, amended: the empty secret is not refused; when the expiry check
    passes, the claim is signed with HMAC-SHA256 under the empty key, which
    the HMAC pads to a block of 64 zero bytes. *)
Theorem empty_secret_is_signed :
  forall partner invitationFields learnerKey salt dateExpiresString (w : World),
    Date_lt (Date_parse w dateExpiresString) (Some (World_now w)) = false ->
    let C := claim_string partner invitationFields learnerKey salt
               dateExpiresString in
    generateInvitationClaim partner invitationFields "" learnerKey salt
      dateExpiresString w
    = (Normal
         (C ++ "&signature="
            ++ Buffer_toString_hex (HMAC.sha256 [] (bytes_of_string C))),
       World_digest (World_tick w))
    /\ HMAC.block_key [] = repeat 0 64.
Proof.
  intros partner invitationFields learnerKey salt dateExpiresString w Hcheck C.
  split; [| reflexivity].
  rewrite generateInvitationClaim_run, Hcheck. reflexivity.
Qed.

Lemma empty_secret_is_signed_witness :
  Date_lt (Date_parse (host 0 1735689600000) "2025-01-01T00:15:00")
          (Some (World_now (host 0 1735689600000))) = false
  /\ generateInvitationClaim "acme" [("code", "ABC123")] "" "lk_001"
       "deadbeef" "2025-01-01T00:15:00" (host 0 1735689600000)
     = (Normal
          (claim_string "acme" [("code", "ABC123")] "lk_001" "deadbeef"
             "2025-01-01T00:15:00"
           ++ "&signature="
           ++ Buffer_toString_hex
                (HMAC.sha256 []
                   (bytes_of_string
                      (claim_string "acme" [("code", "ABC123")] "lk_001"
                         "deadbeef" "2025-01-01T00:15:00")))),
        World_digest (World_tick (host 0 1735689600000))).
Proof.
  assert (Hc : Date_lt (Date_parse (host 0 1735689600000) "2025-01-01T00:15:00")
                       (Some (World_now (host 0 1735689600000))) = false)
    by (vm_compute; reflexivity).
  split; [exact Hc |].
  exact (proj1 (empty_secret_is_signed "acme" [("code", "ABC123")] "lk_001"
                  "deadbeef" "2025-01-01T00:15:00" (host 0 1735689600000) Hc)).
Defined.

(** ** The order on keys and the sorted array *)

Lemma ascii_compare_refl (a : ascii) : Ascii.compare a a = Eq.
Proof. unfold Ascii.compare. apply N.compare_refl. Qed.

Lemma ascii_compare_lt_trans (a b c : ascii) :
  Ascii.compare a b = Lt -> Ascii.compare b c = Lt -> Ascii.compare a c = Lt.
Proof.
  unfold Ascii.compare. rewrite !N.compare_lt_iff. apply N.lt_trans.
Qed.

Lemma string_compare_refl (s : string) : String.compare s s = Eq.
Proof.
  induction s as [| a s IH]; simpl; [reflexivity |].
  now rewrite ascii_compare_refl.
Qed.

Lemma string_compare_lt_trans :
  forall a b c : string,
    String.compare a b = Lt -> String.compare b c = Lt -> String.compare a c = Lt.
Proof.
  induction a as [| x a IH]; intros [| y b] [| z c]; simpl;
    try discriminate; try reflexivity.
  destruct (Ascii.compare x y) eqn:Hxy; try discriminate;
    destruct (Ascii.compare y z) eqn:Hyz; try discriminate; intros Hab Hbc.
  - apply Ascii.compare_eq_iff in Hxy, Hyz. subst.
    rewrite ascii_compare_refl. eauto.
  - apply Ascii.compare_eq_iff in Hxy. subst. now rewrite Hyz.
  - apply Ascii.compare_eq_iff in Hyz. subst. now rewrite Hxy.
  - now rewrite (ascii_compare_lt_trans x y z).
Qed.

Lemma units_compare_refl (u : list Z) : units_compare u u = Eq.
Proof.
  induction u as [| x u IH]; simpl; [reflexivity |].
  now rewrite Z.compare_refl.
Qed.

Lemma units_compare_eq :
  forall u v : list Z, units_compare u v = Eq -> u = v.
Proof.
  induction u as [| x u IH]; intros [| y v]; simpl; try discriminate;
    [reflexivity |].
  destruct (Z.compare_spec x y) as [-> | |]; try discriminate.
  intros E. now rewrite (IH v E).
Qed.

Lemma units_compare_antisym :
  forall u v : list Z, units_compare v u = CompOpp (units_compare u v).
Proof.
  induction u as [| x u IH]; intros [| y v]; simpl; try reflexivity.
  rewrite (Z.compare_antisym x y).
  destruct (x ?= y); simpl; [apply IH | reflexivity | reflexivity].
Qed.

Lemma units_compare_lt_trans :
  forall u v t : list Z,
    units_compare u v = Lt -> units_compare v t = Lt -> units_compare u t = Lt.
Proof.
  induction u as [| x u IH]; intros [| y v] [| z t]; simpl;
    try discriminate; try reflexivity.
  destruct (Z.compare_spec x y) as [-> | Hxy | Hxy]; try discriminate;
    destruct (Z.compare_spec y z) as [-> | Hyz | Hyz]; try discriminate;
    intros Huv Hvt.
  - eauto.
  - reflexivity.
  - now rewrite (proj2 (Z.compare_lt_iff x z) Hxy).
  - now rewrite (proj2 (Z.compare_lt_iff x z) (Z.lt_trans _ _ _ Hxy Hyz)).
Qed.

Lemma SortCompare_refl (a : string) : SortCompare a a = Eq.
Proof.
  unfold SortCompare. rewrite units_compare_refl. apply string_compare_refl.
Qed.

Lemma SortCompare_eq (a b : string) : SortCompare a b = Eq -> a = b.
Proof.
  unfold SortCompare.
  destruct (units_compare (code_units a) (code_units b)); try discriminate.
  apply String.compare_eq_iff.
Qed.

Lemma SortCompare_antisym (a b : string) :
  SortCompare b a = CompOpp (SortCompare a b).
Proof.
  unfold SortCompare.
  rewrite (units_compare_antisym (code_units a) (code_units b)).
  destruct (units_compare (code_units a) (code_units b)); simpl;
    [apply String.compare_antisym | reflexivity | reflexivity].
Qed.

Lemma SortCompare_lt_trans (a b c : string) :
  SortCompare a b = Lt -> SortCompare b c = Lt -> SortCompare a c = Lt.
Proof.
  unfold SortCompare.
  destruct (units_compare (code_units a) (code_units b)) eqn:Hab;
    try discriminate;
    destruct (units_compare (code_units b) (code_units c)) eqn:Hbc;
    try discriminate; intros H1 H2.
  - apply units_compare_eq in Hab, Hbc. rewrite Hab, Hbc.
    rewrite units_compare_refl. eapply string_compare_lt_trans; eauto.
  - apply units_compare_eq in Hab. rewrite Hab, Hbc. reflexivity.
  - apply units_compare_eq in Hbc. rewrite <- Hbc, Hab. reflexivity.
  - now rewrite (units_compare_lt_trans _ _ _ Hab Hbc).
Qed.

(** On text the order is that of the code units and of nothing else. *)
Lemma SortCompare_text (a b : string) :
  is_text a -> is_text b ->
  SortCompare a b = units_compare (code_units a) (code_units b).
Proof.
  unfold is_text, SortCompare. intros Ha Hb.
  destruct (units_compare (code_units a) (code_units b)) eqn:Hab;
    try reflexivity.
  apply units_compare_eq in Hab. rewrite <- Ha, <- Hb, Hab.
  apply string_compare_refl.
Qed.

Lemma byte_of_ascii_of_byte (b : Z) :
  0 <= b < 256 -> byte_of_ascii (ascii_of_byte b) = b.
Proof.
  intros Hb. unfold byte_of_ascii, ascii_of_byte.
  rewrite N_ascii_embedding by lia. lia.
Qed.

Lemma scalar_2_encoded (q r : Z) :
  2 <= q < 32 -> 0 <= r < 64 ->
  scalar_2 (0xC0 + q) (0x80 + r) = Some (64 * q + r).
Proof.
  intros Hq Hr. unfold scalar_2, continuation.
  rewrite !(proj2 (Z.leb_le _ _)) by lia. cbn [andb]. f_equal. lia.
Qed.

Lemma scalar_2_lead (b0 b1 : Z) : 0xE0 <= b0 -> scalar_2 b0 b1 = None.
Proof.
  intros H. unfold scalar_2.
  rewrite (proj2 (Z.leb_gt b0 0xDF)) by lia.
  now rewrite andb_false_r.
Qed.

Lemma scalar_3_lead (b0 b1 b2 : Z) : 0xF0 <= b0 -> scalar_3 b0 b1 b2 = None.
Proof.
  intros H. unfold scalar_3.
  rewrite (proj2 (Z.leb_gt b0 0xEF)) by lia.
  now rewrite andb_false_r.
Qed.

Lemma scalar_3_encoded (q r1 r0 : Z) :
  0 <= q < 16 -> 0 <= r1 < 64 -> 0 <= r0 < 64 ->
  0x800 <= 4096 * q + 64 * r1 + r0 ->
  ~ (0xD800 <= 4096 * q + 64 * r1 + r0 <= 0xDFFF) ->
  scalar_3 (0xE0 + q) (0x80 + r1) (0x80 + r0) = Some (4096 * q + 64 * r1 + r0).
Proof.
  intros Hq Hr1 Hr0 Hlow Hsur. unfold scalar_3, continuation.
  replace ((0xE0 + q - 0xE0) * 4096 + (0x80 + r1 - 0x80) * 64 + (0x80 + r0 - 0x80))
    with (4096 * q + 64 * r1 + r0) by lia.
  rewrite !(proj2 (Z.leb_le 0xE0 _)), !(proj2 (Z.leb_le _ 0xEF)),
    !(proj2 (Z.leb_le 0x80 _)), !(proj2 (Z.leb_le _ 0xBF)),
    !(proj2 (Z.leb_le 0x800 _)) by lia.
  cbn [andb].
  destruct (Z.leb_spec 0xD800 (4096 * q + 64 * r1 + r0));
    destruct (Z.leb_spec (4096 * q + 64 * r1 + r0) 0xDFFF);
    cbn [andb negb]; try reflexivity.
  exfalso. apply Hsur. lia.
Qed.

Lemma scalar_4_encoded (q r2 r1 r0 : Z) :
  0 <= q < 8 -> 0 <= r2 < 64 -> 0 <= r1 < 64 -> 0 <= r0 < 64 ->
  0x10000 <= 262144 * q + 4096 * r2 + 64 * r1 + r0 <= 0x10FFFF ->
  scalar_4 (0xF0 + q) (0x80 + r2) (0x80 + r1) (0x80 + r0)
  = Some (262144 * q + 4096 * r2 + 64 * r1 + r0).
Proof.
  intros Hq Hr2 Hr1 Hr0 Hcp. unfold scalar_4, continuation.
  replace ((0xF0 + q - 0xF0) * 262144 + (0x80 + r2 - 0x80) * 4096
           + (0x80 + r1 - 0x80) * 64 + (0x80 + r0 - 0x80))
    with (262144 * q + 4096 * r2 + 64 * r1 + r0) by lia.
  rewrite !(proj2 (Z.leb_le _ _)) by lia. reflexivity.
Qed.

Lemma code_units_1 (x : Z) (s : string) :
  0 <= x < 0x80 ->
  code_units (String (ascii_of_byte x) s) = x :: code_units s.
Proof.
  intros Hx. cbn [code_units]. rewrite byte_of_ascii_of_byte by lia.
  now rewrite (proj2 (Z.ltb_lt x 0x80)) by lia.
Qed.

Lemma code_units_2 (x : Z) (s : string) :
  0x80 <= x < 0x800 -> code_units (utf8_2 x s) = x :: code_units s.
Proof.
  intros Hx. unfold utf8_2.
  pose proof (Z.div_mod x 64 ltac:(lia)) as E.
  pose proof (Z.mod_pos_bound x 64 ltac:(lia)) as Hr.
  set (q := x / 64) in *. set (r := x mod 64) in *.
  assert (Hq : 2 <= q < 32) by lia.
  clearbody q r. cbn [code_units].
  rewrite !byte_of_ascii_of_byte by lia.
  rewrite (proj2 (Z.ltb_ge (0xC0 + q) 0x80)) by lia.
  rewrite scalar_2_encoded by lia. f_equal. lia.
Qed.

Lemma code_units_3 (x : Z) (s : string) :
  0x800 <= x < 0x10000 -> ~ (0xD800 <= x <= 0xDFFF) ->
  code_units (utf8_3 x s) = x :: code_units s.
Proof.
  intros Hx Hsur. unfold utf8_3.
  pose proof (Z.div_mod x 64 ltac:(lia)) as E0.
  pose proof (Z.mod_pos_bound x 64 ltac:(lia)) as Hr0.
  pose proof (Z.div_mod (x / 64) 64 ltac:(lia)) as E1.
  pose proof (Z.mod_pos_bound (x / 64) 64 ltac:(lia)) as Hr1.
  assert (Eq : x / 4096 = x / 64 / 64) by (rewrite Z.div_div by lia; reflexivity).
  rewrite Eq.
  set (r0 := x mod 64) in *. set (r1 := (x / 64) mod 64) in *.
  set (q := x / 64 / 64) in *. set (p := x / 64) in *.
  assert (Hq : 0 <= q < 16) by lia.
  assert (Ex : x = 4096 * q + 64 * r1 + r0) by lia.
  clearbody q r1 r0 p. cbn [code_units].
  rewrite !byte_of_ascii_of_byte by lia.
  rewrite (proj2 (Z.ltb_ge (0xE0 + q) 0x80)) by lia.
  rewrite scalar_2_lead by lia.
  rewrite scalar_3_encoded by lia. f_equal. lia.
Qed.

Lemma code_units_4 (cp : Z) (s : string) :
  0x10000 <= cp <= 0x10FFFF ->
  code_units (utf8_4 cp s)
  = (0xD800 + (cp - 0x10000) / 1024)
    :: (0xDC00 + (cp - 0x10000) mod 1024) :: code_units s.
Proof.
  intros Hcp. unfold utf8_4.
  pose proof (Z.div_mod cp 64 ltac:(lia)) as E0.
  pose proof (Z.mod_pos_bound cp 64 ltac:(lia)) as Hr0.
  pose proof (Z.div_mod (cp / 64) 64 ltac:(lia)) as E1.
  pose proof (Z.mod_pos_bound (cp / 64) 64 ltac:(lia)) as Hr1.
  pose proof (Z.div_mod (cp / 64 / 64) 64 ltac:(lia)) as E2.
  pose proof (Z.mod_pos_bound (cp / 64 / 64) 64 ltac:(lia)) as Hr2.
  assert (Eq2 : cp / 4096 = cp / 64 / 64) by (rewrite Z.div_div by lia; reflexivity).
  assert (Eq3 : cp / 262144 = cp / 64 / 64 / 64)
    by (rewrite !Z.div_div by lia; reflexivity).
  rewrite Eq2, Eq3.
  set (r0 := cp mod 64) in *. set (r1 := (cp / 64) mod 64) in *.
  set (r2 := (cp / 64 / 64) mod 64) in *.
  set (q := cp / 64 / 64 / 64) in *.
  set (p2 := cp / 64 / 64) in *. set (p1 := cp / 64) in *.
  assert (Hq : 0 <= q < 8) by lia.
  assert (Ex : cp = 262144 * q + 4096 * r2 + 64 * r1 + r0) by lia.
  clearbody q r2 r1 r0 p2 p1. cbn [code_units].
  rewrite !byte_of_ascii_of_byte by lia.
  rewrite (proj2 (Z.ltb_ge (0xF0 + q) 0x80)) by lia.
  rewrite scalar_2_lead by lia.
  rewrite scalar_3_lead by lia.
  rewrite scalar_4_encoded by lia.
  rewrite <- Ex. reflexivity.
Qed.

Lemma surrogate_bounds (x : Z) :
  (high_surrogate x = true <-> 0xD800 <= x <= 0xDBFF)
  /\ (low_surrogate x = true <-> 0xDC00 <= x <= 0xDFFF).
Proof.
  unfold high_surrogate, low_surrogate.
  rewrite !andb_true_iff, !Z.leb_le. tauto.
Qed.

(** Reading the code units of an encoded string gives the string back: a
    string of the host in which every surrogate has its pair is held without
    loss. *)
Lemma code_units_utf8_encode :
  forall u : list Z, well_paired u -> code_units (utf8_encode u) = u.
Proof.
  intros u.
  assert (H : forall n (u : list Z),
             (List.length u <= n)%nat -> well_paired u ->
             code_units (utf8_encode u) = u).
  { clear u. induction n as [| n IH]; intros [| x rest] Hlen Hwp;
      try reflexivity; [simpl in Hlen; lia |].
    cbn [List.length] in Hlen. cbn [well_paired] in Hwp.
    destruct Hwp as [Hx Hwp]. cbn [utf8_encode].
    destruct (Z.ltb_spec x 0x80) as [H1 | H1].
    { destruct (high_surrogate x) eqn:Hh;
        [apply surrogate_bounds in Hh; lia |].
      rewrite code_units_1 by lia. f_equal. apply IH; [lia | tauto]. }
    destruct (Z.ltb_spec x 0x800) as [H2 | H2].
    { destruct (high_surrogate x) eqn:Hh;
        [apply surrogate_bounds in Hh; lia |].
      rewrite code_units_2 by lia. f_equal. apply IH; [lia | tauto]. }
    destruct (high_surrogate x) eqn:Hh.
    - destruct rest as [| y rest']; [contradiction |].
      destruct Hwp as [Hy Hwp]. rewrite Hy.
      apply surrogate_bounds in Hh, Hy.
      rewrite code_units_4 by lia.
      replace (0x10000 + (x - 0xD800) * 1024 + (y - 0xDC00) - 0x10000)
        with ((x - 0xD800) * 1024 + (y - 0xDC00)) by lia.
      assert (Ediv : ((x - 0xD800) * 1024 + (y - 0xDC00)) / 1024 = x - 0xD800)
        by (rewrite Z.div_add_l by lia; rewrite Z.div_small by lia; lia).
      assert (Emod : ((x - 0xD800) * 1024 + (y - 0xDC00)) mod 1024 = y - 0xDC00)
        by (rewrite Z.add_comm, Z.mod_add by lia; apply Z.mod_small; lia).
      rewrite Ediv, Emod.
      f_equal; [lia |]. f_equal; [lia |].
      apply IH; [cbn [List.length] in Hlen; lia | exact Hwp].
    - destruct Hwp as [Hl Hwp]. rewrite Hl.
      assert (Hns : ~ (0xD800 <= x <= 0xDFFF)).
      { intros Hs. destruct (Z.le_gt_cases x 0xDBFF) as [Hle | Hgt].
        - assert (high_surrogate x = true) by (apply surrogate_bounds; lia).
          congruence.
        - assert (low_surrogate x = true) by (apply surrogate_bounds; lia).
          congruence. }
      rewrite code_units_3 by lia. f_equal. apply IH; [lia | exact Hwp]. }
  intros Hwp. exact (H (List.length u) u (le_n _) Hwp).
Qed.

Lemma utf8_encode_is_text (u : list Z) : well_paired u -> is_text (utf8_encode u).
Proof. intros H. unfold is_text. now rewrite code_units_utf8_encode. Qed.

(** X20: the sort orders the strings it holds as the host orders them.
    Two strings of the host in which every surrogate has its pair, held as
    their UTF-8 bytes, are compared as their code units are, unit by unit:
    a character beyond the basic plane, which begins with a surrogate, comes
    before U+E000 to U+FFFF although its bytes come after. *)
Theorem SortCompare_utf8_encode :
  forall u v : list Z,
    well_paired u -> well_paired v ->
    SortCompare (utf8_encode u) (utf8_encode v) = units_compare u v.
Proof.
  intros u v Hu Hv.
  rewrite SortCompare_text by now apply utf8_encode_is_text.
  now rewrite !code_units_utf8_encode.
Qed.

Lemma SortCompare_utf8_encode_witness :
  SortCompare (utf8_encode [0xD83D; 0xDE00]) (utf8_encode [0xFF5E]) = Lt
  /\ String.compare (utf8_encode [0xD83D; 0xDE00]) (utf8_encode [0xFF5E]) = Gt.
Proof.
  split; [| vm_compute; reflexivity].
  rewrite (SortCompare_utf8_encode [0xD83D; 0xDE00] [0xFF5E]).
  - reflexivity.
  - cbn. repeat split; lia.
  - cbn. repeat split; lia.
Defined.

Example Array_sort_surrogates_before_private_use :
  Array_sort [utf8_encode [0xFF5E]; utf8_encode [0xD83D; 0xDE00]; "z"]
  = ["z"; utf8_encode [0xD83D; 0xDE00]; utf8_encode [0xFF5E]]
  /\ bytes_of_string (utf8_encode [0xD83D; 0xDE00]) = [0xF0; 0x9F; 0x98; 0x80]
  /\ bytes_of_string (utf8_encode [0xFF5E]) = [0xEF; 0xBD; 0x9E].
Proof. vm_compute. repeat split. Qed.

Lemma string_le_cases (a b : string) :
  string_le a b <-> SortCompare a b = Lt \/ a = b.
Proof.
  unfold string_le. split.
  - destruct (SortCompare a b) eqn:H; intros E.
    + right. now apply SortCompare_eq.
    + now left.
    + contradiction.
  - intros [-> | ->]; [discriminate | rewrite SortCompare_refl; discriminate].
Qed.

Lemma string_le_refl (a : string) : string_le a a.
Proof. apply string_le_cases. now right. Qed.

Lemma string_le_trans (a b c : string) :
  string_le a b -> string_le b c -> string_le a c.
Proof.
  rewrite !string_le_cases. intros [Hab | ->] [Hbc | ->]; auto.
  left. eapply SortCompare_lt_trans; eauto.
Qed.

Lemma string_le_total (a b : string) : string_le a b \/ string_le b a.
Proof.
  unfold string_le. rewrite (SortCompare_antisym a b).
  destruct (SortCompare a b); simpl;
    [left | left | right]; discriminate.
Qed.

Lemma string_le_antisym (a b : string) : string_le a b -> string_le b a -> a = b.
Proof.
  unfold string_le. rewrite (SortCompare_antisym a b).
  destruct (SortCompare a b) eqn:H; simpl; intros H1 H2.
  - now apply SortCompare_eq.
  - contradiction.
  - contradiction.
Qed.


Create HintDb key_order.
#[local] Hint Resolve string_le_refl string_le_trans string_le_antisym : key_order.

Lemma sort_insert_perm (k : string) (l : list string) :
  Permutation (k :: l) (sort_insert k l).
Proof.
  induction l as [| h t IH]; simpl; [reflexivity |].
  destruct (SortCompare k h); try reflexivity.
  rewrite perm_swap. now constructor.
Qed.

Lemma Array_sort_perm (l : list string) : Permutation l (Array_sort l).
Proof.
  induction l as [| h t IH]; simpl; [constructor |].
  rewrite <- sort_insert_perm. now constructor.
Qed.

Lemma sort_insert_sorted (k : string) (l : list string) :
  StronglySorted string_le l -> StronglySorted string_le (sort_insert k l).
Proof.
  induction 1 as [| h t Hs IH Hall]; simpl.
  - repeat constructor.
  - assert (Hfront : string_le k h -> StronglySorted string_le (k :: h :: t)).
    { intros Hkh. constructor; [now constructor |].
      constructor; [exact Hkh |].
      eapply Forall_impl; [| exact Hall].
      intros x Hx. eauto with key_order. }
    destruct (SortCompare k h) eqn:Hkh.
    + apply Hfront. unfold string_le. rewrite Hkh. discriminate.
    + apply Hfront. unfold string_le. rewrite Hkh. discriminate.
    + constructor; [exact IH |].
      rewrite Forall_forall. intros x Hin.
      apply (Permutation_in _ (Permutation_sym (sort_insert_perm k t))) in Hin.
      destruct Hin as [<- | Hin].
      * destruct (string_le_total k h) as [Hle | Hle]; [| exact Hle].
        unfold string_le in Hle. congruence.
      * rewrite Forall_forall in Hall. now apply Hall.
Qed.

Lemma Array_sort_sorted (l : list string) : StronglySorted string_le (Array_sort l).
Proof.
  induction l as [| h t IH]; simpl; [constructor | now apply sort_insert_sorted].
Qed.

(** Two sorted arrays with the same elements are the same array. *)
Lemma sorted_perm_unique :
  forall l1 l2 : list string,
    StronglySorted string_le l1 -> StronglySorted string_le l2 ->
    Permutation l1 l2 -> l1 = l2.
Proof.
  induction l1 as [| a l1 IH]; intros l2 S1 S2 P.
  - apply Permutation_nil in P. now subst.
  - destruct l2 as [| b l2].
    + apply Permutation_sym, Permutation_nil in P. discriminate.
    + inversion S1 as [| ? ? S1' F1]; inversion S2 as [| ? ? S2' F2]; subst.
      assert (a = b) as ->.
      { rewrite Forall_forall in F1, F2.
        assert (Ha : In a (b :: l2)) by (eapply Permutation_in; [exact P | now left]).
        assert (Hb : In b (a :: l1))
          by (eapply Permutation_in; [exact (Permutation_sym P) | now left]).
        destruct Ha as [-> | Ha]; [reflexivity |].
        destruct Hb as [-> | Hb]; [reflexivity |].
        auto with key_order. }
      f_equal. apply IH; auto. eapply Permutation_cons_inv; eauto.
Qed.

Lemma Array_sort_perm_eq (l1 l2 : list string) :
  Permutation l1 l2 -> Array_sort l1 = Array_sort l2.
Proof.
  intros P. apply sorted_perm_unique; try apply Array_sort_sorted.
  rewrite <- !Array_sort_perm. exact P.
Qed.


(** ** Reading the properties of an object *)

Lemma Object_get_notin (o : Record_string) (k : string) :
  ~ In k (Object_keys o) -> Object_get o k = None.
Proof.
  induction o as [| [k' v'] o IH]; simpl; intros Hnotin; [reflexivity |].
  destruct (String.eqb_spec k' k) as [-> | Hne]; [tauto |].
  apply IH. tauto.
Qed.

Lemma Object_get_in (o : Record_string) (k v : string) :
  NoDup (Object_keys o) -> In (k, v) o -> Object_get o k = Some v.
Proof.
  induction o as [| [k' v'] o IH]; simpl; intros Hnd Hin; [contradiction |].
  inversion Hnd as [| ? ? Hnotin Hnd']; subst.
  destruct Hin as [E | Hin].
  - inversion E; subst. now rewrite String.eqb_refl.
  - destruct (String.eqb_spec k' k) as [-> | Hne]; [| now apply IH].
    exfalso. apply Hnotin. unfold Object_keys.
    change k with (fst (k, v)). now apply in_map.
Qed.

Lemma Object_get_perm (o1 o2 : Record_string) (k : string) :
  NoDup (Object_keys o1) -> Permutation o1 o2 ->
  Object_get o1 k = Object_get o2 k.
Proof.
  intros Hnd P.
  assert (Hnd2 : NoDup (Object_keys o2)).
  { eapply Permutation_NoDup; [| exact Hnd]. now apply Permutation_map. }
  destruct (in_dec string_dec k (Object_keys o1)) as [Hin | Hnotin].
  - unfold Object_keys in Hin. apply in_map_iff in Hin.
    destruct Hin as [[k' v] [E Hin]]. simpl in E. subst k'.
    rewrite (Object_get_in o1 k v Hnd Hin).
    symmetry. apply Object_get_in; [exact Hnd2 |].
    eapply Permutation_in; eauto.
  - rewrite (Object_get_notin o1 k Hnotin).
    symmetry. apply Object_get_notin. intros Hin. apply Hnotin.
    eapply Permutation_in; [| exact Hin].
    apply Permutation_sym. now apply Permutation_map.
Qed.

Lemma entries_of_keys (o : Record_string) :
  NoDup (Object_keys o) ->
  map (fun k => (k, template_get o k)) (Object_keys o) = o.
Proof.
  intros Hnd. unfold Object_keys. rewrite map_map.
  transitivity (map (fun e : string * string => e) o); [| apply map_id].
  apply map_ext_in.
  intros [k v] Hin. unfold template_get. simpl.
  now rewrite (Object_get_in o k v Hnd Hin).
Qed.


(** ** Determinism of the claim string *)

Lemma claim_string_perm partner learnerKey salt dateExpiresString
    (f1 f2 : Record_string) :
  NoDup (Object_keys f1) -> Permutation f1 f2 ->
  claim_string partner f1 learnerKey salt dateExpiresString
  = claim_string partner f2 learnerKey salt dateExpiresString.
Proof.
  intros Hnd P. unfold claim_string.
  rewrite (Array_sort_perm_eq (Object_keys f1) (Object_keys f2))
    by now apply Permutation_map.
  do 5 f_equal. apply map_ext. intros key. unfold template_get.
  now rewrite (Object_get_perm f1 f2 key Hnd P).
Qed.

Lemma sorted_entries_perm (o : Record_string) :
  NoDup (Object_keys o) -> Permutation (sorted_entries o) o.
Proof.
  intros Hnd. unfold sorted_entries.
  rewrite <- (entries_of_keys o Hnd) at 2.
  apply Permutation_map, Permutation_sym, Array_sort_perm.
Qed.





Example claim_string_code_unit_order_example :
  claim_string "acme"
    [(utf8_encode [0xFF5E], "a"); (utf8_encode [0xD83D; 0xDE00], "b")]
    "lk_001" "deadbeef" "2025-01-01T00:15:00"
  = "partner=acme&learner_key=lk_001&salt=deadbeef&date_expires=2025-01-01T00:15:00&field_"
      ++ utf8_encode [0xD83D; 0xDE00] ++ "=b&field_"
      ++ utf8_encode [0xFF5E] ++ "=a".
Proof. vm_compute. reflexivity. Qed.

Example claim_string_sorted_example :
  claim_string "acme" [("code", "ABC123"); ("campaign", "spring"); ("Zone", "9")]
    "lk_001" "deadbeef" "2025-01-01T00:15:00"
  = "partner=acme&learner_key=lk_001&salt=deadbeef&date_expires=2025-01-01T00:15:00&field_Zone=9&field_campaign=spring&field_code=ABC123".
Proof. vm_compute. reflexivity. Qed.

(** ** Running [generateSubscribeLink] *)

Lemma generateSubscribeLink_explicit aeviumBaseUrl partner invitationFields
    invitationSecret learnerKey salt (dateExpires : Date) (w : World) :
  generateSubscribeLink aeviumBaseUrl partner invitationFields invitationSecret
    learnerKey (Some salt) (Some dateExpires) w
  = match dateExpires with
    | Some t =>
        link_with aeviumBaseUrl
          (generateInvitationClaim partner invitationFields invitationSecret
             learnerKey salt (slice 0 19 (iso_string t)) w)
    | None => (Throw (RangeError "Invalid time value"), w)
    end.
Proof.
  destruct dateExpires as [t |]; [| reflexivity].
  cbv [generateSubscribeLink bind ret toISOString throw link_with].
  destruct (generateInvitationClaim partner invitationFields invitationSecret
              learnerKey salt (slice 0 19 (iso_string t)) w) as [[c | e] w'];
    reflexivity.
Qed.

Lemma generateSubscribeLink_default_date aeviumBaseUrl partner invitationFields
    invitationSecret learnerKey salt (w : World) :
  generateSubscribeLink aeviumBaseUrl partner invitationFields invitationSecret
    learnerKey (Some salt) None w
  = generateSubscribeLink aeviumBaseUrl partner invitationFields invitationSecret
      learnerKey (Some salt)
      (Some (Date_of_number (World_now w + CLAIM_DURATION_SECONDS * 1000)))
      (World_tick w).
Proof. reflexivity. Qed.

Lemma generateSubscribeLink_default_salt aeviumBaseUrl partner invitationFields
    invitationSecret learnerKey (dateExpires : option Date) (w : World) :
  generateSubscribeLink aeviumBaseUrl partner invitationFields invitationSecret
    learnerKey None dateExpires w
  = generateSubscribeLink aeviumBaseUrl partner invitationFields invitationSecret
      learnerKey (Some (Buffer_toString_hex (World_bytes 8 w))) dateExpires
      (World_draw 8 w).
Proof. reflexivity. Qed.

(** ** The text of a date *)

Lemma iso_seconds_length (t : Z) : String.length (iso_seconds t) = 19%nat.
Proof. reflexivity. Qed.

Lemma iso_string_slice (t : Z) :
  0 <= YearFromTime t <= 9999 ->
  slice 0 19 (iso_string t) = iso_seconds t.
Proof.
  intros [Hlo Hhi]. unfold iso_string, iso_year.
  destruct (Z.leb_spec 0 (YearFromTime t)); [| lia].
  destruct (Z.leb_spec (YearFromTime t) 9999); [| lia].
  reflexivity.
Qed.

(** Only the whole seconds of a time value show in the text. *)
Lemma iso_seconds_truncates (t : Z) :
  iso_seconds t = iso_seconds (1000 * (t / 1000)).
Proof.
  assert (Hday : (1000 * (t / 1000)) / msPerDay = t / msPerDay)
    by (unfold msPerDay; Z.div_mod_to_equations; lia).
  assert (Hhour : HourFromTime (1000 * (t / 1000)) = HourFromTime t)
    by (unfold HourFromTime, msPerDay; Z.div_mod_to_equations; lia).
  assert (Hmin : MinFromTime (1000 * (t / 1000)) = MinFromTime t)
    by (unfold MinFromTime; Z.div_mod_to_equations; lia).
  assert (Hsec : SecFromTime (1000 * (t / 1000)) = SecFromTime t)
    by (unfold SecFromTime; Z.div_mod_to_equations; lia).
  unfold iso_seconds, YearFromTime, MonthFromTime, DateFromTime.
  now rewrite Hday, Hhour, Hmin, Hsec.
Qed.

(** From year 0000 to year 9999 the year is written on four digits. *)
Lemma year_has_four_digits (t : Z) :
  -62167219200000 <= t < 253402300800000 -> 0 <= YearFromTime t <= 9999.
Proof.
  intros Ht.
  unfold YearFromTime, civil_from_days, msPerDay. cbn [fst snd].
  set (z := t / 86400000 + 719468).
  assert (Hz : -60 <= z < 3652365) by (subst z; Z.div_mod_to_equations; lia).
  clearbody z. clear Ht t.
  set (era := z / 146097).
  set (doe := z mod 146097).
  assert (Hdm : z = 146097 * era + doe /\ 0 <= doe < 146097).
  { subst era doe. Z.div_mod_to_equations. lia. }
  clearbody era doe.
  set (yoe := (doe - doe / 1460 + doe / 36524 - doe / 146096) / 365).
  assert (Hyoe : 0 <= yoe <= 399
                 /\ 365 * yoe + yoe / 4 - yoe / 100 <= doe
                 /\ doe < 365 * (yoe + 1) + (yoe + 1) / 4 - (yoe + 1) / 100
                          + (if yoe =? 399 then 1 else 0)).
  { subst yoe. destruct (_ =? 399) eqn:E; Z.div_mod_to_equations; lia. }
  clearbody yoe.
  set (doy := doe - (365 * yoe + yoe / 4 - yoe / 100)).
  set (mp := (5 * doy + 2) / 153).
  destruct (mp <? 10) eqn:Emp; destruct (_ <=? 2) eqn:Em.
  all: try (apply Z.ltb_lt in Emp); try (apply Z.ltb_ge in Emp);
       try (apply Z.leb_le in Em); try (apply Z.leb_gt in Em).
  all: subst mp doy; destruct (yoe =? 399) eqn:E;
       [apply Z.eqb_eq in E | apply Z.eqb_neq in E];
       Z.div_mod_to_equations; lia.
Qed.

(** Month, day, hour, minute and second always fit the two digits they are
    written on, the milliseconds their three. *)
Lemma calendar_fields_in_range (t : Z) :
  1 <= MonthFromTime t <= 12 /\ 1 <= DateFromTime t <= 31
  /\ 0 <= HourFromTime t <= 23 /\ 0 <= MinFromTime t <= 59
  /\ 0 <= SecFromTime t <= 59 /\ 0 <= msFromTime t <= 999.
Proof.
  unfold MonthFromTime, DateFromTime, HourFromTime, MinFromTime, SecFromTime,
    msFromTime, civil_from_days, msPerDay. cbn [fst snd].
  set (z := t / 86400000 + 719468).
  set (doe := z mod 146097).
  assert (Hdoe : 0 <= doe < 146097) by (apply Z.mod_pos_bound; lia).
  clearbody doe.
  set (yoe := (doe - doe / 1460 + doe / 36524 - doe / 146096) / 365).
  assert (Hyoe : 0 <= yoe <= 399
                 /\ 365 * yoe + yoe / 4 - yoe / 100 <= doe
                 /\ doe < 365 * (yoe + 1) + (yoe + 1) / 4 - (yoe + 1) / 100
                          + (if yoe =? 399 then 1 else 0)).
  { subst yoe. destruct (_ =? 399) eqn:E; Z.div_mod_to_equations; lia. }
  clearbody yoe.
  set (doy := doe - (365 * yoe + yoe / 4 - yoe / 100)).
  assert (Hdoy : 0 <= doy <= 365).
  { subst doy. destruct (yoe =? 399) eqn:E;
      [apply Z.eqb_eq in E | apply Z.eqb_neq in E];
      Z.div_mod_to_equations; lia. }
  clearbody doy.
  set (mp := (5 * doy + 2) / 153).
  repeat split;
    try (destruct (mp <? 10) eqn:Emp;
         [apply Z.ltb_lt in Emp | apply Z.ltb_ge in Emp]);
    subst mp; Z.div_mod_to_equations; lia.
Qed.

Example iso_string_examples :
  iso_string 1735690500123 = "2025-01-01T00:15:00.123Z"
  /\ iso_string 951782400000 = "2000-02-29T00:00:00.000Z"
  /\ iso_string (-1) = "1969-12-31T23:59:59.999Z"
  /\ iso_string 253402300800000 = "+010000-01-01T00:00:00.000Z"
  /\ iso_parse 0 (slice 0 19 (iso_string 1735690500123)) = Some 1735690500000
  /\ iso_parse 60 (slice 0 19 (iso_string 1735690500123)) = Some 1735686900000.
Proof. vm_compute. repeat split. Qed.

(** ** The subscribe link *)

(** C6: the link is the base URL, [/invitation-claim/?] and the outcome of
    signing the claim (a thrown exception is passed on).  Without an expiry
    from the caller, the expiry is the clock reading plus
    [CLAIM_DURATION_SECONDS = 900] seconds, and what is signed as
    [date_expires] is its [YYYY-MM-DDTHH:MM:SS] text, 19 characters that
    drop the milliseconds. *)
Theorem subscribe_link_composition :
  forall aeviumBaseUrl partner invitationFields invitationSecret learnerKey
         salt (w : World),
    (forall t : Z,
        generateSubscribeLink aeviumBaseUrl partner invitationFields
          invitationSecret learnerKey (Some salt) (Some (Some t)) w
        = link_with aeviumBaseUrl
            (generateInvitationClaim partner invitationFields invitationSecret
               learnerKey salt (slice 0 19 (iso_string t)) w))
    /\ CLAIM_DURATION_SECONDS = 900
    /\ (let expires := World_now w + CLAIM_DURATION_SECONDS * 1000 in
        -62167219200000 <= expires < 253402300800000 ->
        generateSubscribeLink aeviumBaseUrl partner invitationFields
          invitationSecret learnerKey (Some salt) None w
        = link_with aeviumBaseUrl
            (generateInvitationClaim partner invitationFields invitationSecret
               learnerKey salt (iso_seconds expires) (World_tick w))
        /\ String.length (iso_seconds expires) = 19%nat
        /\ iso_seconds expires = iso_seconds (1000 * (expires / 1000))).
Proof.
  intros aeviumBaseUrl partner invitationFields invitationSecret learnerKey
         salt w.
  split; [| split; [reflexivity |]].
  - intros t. apply generateSubscribeLink_explicit.
  - intros expires Hrange. split; [| split].
    + rewrite generateSubscribeLink_default_date. fold expires.
      unfold Date_of_number, TimeClip.
      destruct (Z.leb_spec (Z.abs expires) 8640000000000000) as [_ | Habs];
        [| lia].
      rewrite generateSubscribeLink_explicit.
      now rewrite (iso_string_slice expires (year_has_four_digits expires Hrange)).
    + apply iso_seconds_length.
    + apply iso_seconds_truncates.
Qed.

Lemma subscribe_link_composition_witness :
  -62167219200000 <= World_now (host 0 1735689600123) + CLAIM_DURATION_SECONDS * 1000
                  < 253402300800000
  /\ iso_seconds (World_now (host 0 1735689600123) + CLAIM_DURATION_SECONDS * 1000)
     = "2025-01-01T00:15:00"
  /\ generateSubscribeLink "https://aeviumeducation.com" "acme"
       [("code", "ABC123")] "s3cr3t" "lk_001" (Some "deadbeef") None
       (host 0 1735689600123)
     = link_with "https://aeviumeducation.com"
         (generateInvitationClaim "acme" [("code", "ABC123")] "s3cr3t" "lk_001"
            "deadbeef"
            (iso_seconds (World_now (host 0 1735689600123)
                          + CLAIM_DURATION_SECONDS * 1000))
            (World_tick (host 0 1735689600123))).
Proof.
  assert (Hr : -62167219200000
               <= World_now (host 0 1735689600123) + CLAIM_DURATION_SECONDS * 1000
               < 253402300800000)
    by (vm_compute; split; [discriminate | reflexivity]).
  split; [exact Hr | split; [vm_compute; reflexivity |]].
  exact (proj1 (proj2 (proj2 (subscribe_link_composition
                                "https://aeviumeducation.com" "acme"
                                [("code", "ABC123")] "s3cr3t" "lk_001"
                                "deadbeef" (host 0 1735689600123))) Hr)).
Defined.

Example subscribe_link_default_example :
  fst (generateSubscribeLink "https://aeviumeducation.com" "acme"
         [("code", "ABC123")] "s3cr3t" "lk_001" (Some "deadbeef") None
         (host 0 1735689600123))
  = Normal "https://aeviumeducation.com/invitation-claim/?partner=acme&learner_key=lk_001&salt=deadbeef&date_expires=2025-01-01T00:15:00&field_code=ABC123&signature=3825fbe2b7b6399b08f55024a1c58042fe19f9000641da39c08bd694bf262612".
Proof. vm_compute. reflexivity. Qed.

(** The expiry text is in UTC and carries no offset; a host that reads
    such a text as local time, one hour ahead of UTC, takes the default
    expiry for a time 45 minutes in the past and refuses it. *)
Example subscribe_link_default_ahead_of_utc :
  fst (generateSubscribeLink "https://aeviumeducation.com" "acme"
         [("code", "ABC123")] "s3cr3t" "lk_001" (Some "deadbeef") None
         (host 60 1735689600123))
  = Throw (Error "Expiration date must be in the future").
Proof. vm_compute. reflexivity. Qed.

(** ** The default salt *)

Lemma generateSubscribeLink_normal_shape aeviumBaseUrl partner invitationFields
    invitationSecret learnerKey salt (dateExpires : option Date)
    (w w' : World) (token : string) :
  generateSubscribeLink aeviumBaseUrl partner invitationFields invitationSecret
    learnerKey (Some salt) dateExpires w = (Normal token, w') ->
  exists d,
    token
    = aeviumBaseUrl ++ "/invitation-claim/?"
        ++ signed_claim invitationSecret
             ("partner=" ++ partner ++ "&learner_key=" ++ learnerKey
                ++ "&salt=" ++ salt ++ "&date_expires=" ++ d
                ++ field_params invitationFields).
Proof.
  assert (Hexplicit : forall (d : Date) (w0 : World),
             generateSubscribeLink aeviumBaseUrl partner invitationFields
               invitationSecret learnerKey (Some salt) (Some d) w0
             = (Normal token, w') ->
             exists d',
               token
               = aeviumBaseUrl ++ "/invitation-claim/?"
                   ++ signed_claim invitationSecret
                        ("partner=" ++ partner ++ "&learner_key=" ++ learnerKey
                           ++ "&salt=" ++ salt ++ "&date_expires=" ++ d'
                           ++ field_params invitationFields)).
  { intros d w0. rewrite generateSubscribeLink_explicit.
    destruct d as [t |]; [| discriminate].
    rewrite generateInvitationClaim_run.
    destruct (Date_lt _ _); [discriminate |].
    cbn [link_with]. intros E. inversion E; subst.
    exists (slice 0 19 (iso_string t)).
    now rewrite claim_string_expand. }
  destruct dateExpires as [d |].
  - apply Hexplicit.
  - rewrite generateSubscribeLink_default_date. apply Hexplicit.
Qed.

(** C10: without a salt from the caller, the salt in the token is the
    lowercase hexadecimal text of exactly eight bytes drawn from the random
    source, sixteen digits long. *)
Theorem default_salt_is_sixteen_hex_digits :
  forall aeviumBaseUrl partner invitationFields invitationSecret learnerKey
         (dateExpires : option Date) (w : World),
    let drawn := World_bytes 8 w in
    let salt := Buffer_toString_hex drawn in
    generateSubscribeLink aeviumBaseUrl partner invitationFields
      invitationSecret learnerKey None dateExpires w
    = generateSubscribeLink aeviumBaseUrl partner invitationFields
        invitationSecret learnerKey (Some salt) dateExpires (World_draw 8 w)
    /\ drawn = map (fun i => entropy w (entropy_drawn w + i)%nat mod 256) (seq 0 8)
    /\ List.length drawn = 8%nat
    /\ entropy_drawn (World_draw 8 w) = (entropy_drawn w + 8)%nat
    /\ String.length salt = 16%nat
    /\ string_forall is_lower_hex salt
    /\ (forall token w',
           generateSubscribeLink aeviumBaseUrl partner invitationFields
             invitationSecret learnerKey None dateExpires w = (Normal token, w') ->
           exists d,
             token
             = aeviumBaseUrl ++ "/invitation-claim/?"
                 ++ signed_claim invitationSecret
                      ("partner=" ++ partner ++ "&learner_key=" ++ learnerKey
                         ++ "&salt=" ++ salt ++ "&date_expires=" ++ d
                         ++ field_params invitationFields)).
Proof.
  intros aeviumBaseUrl partner invitationFields invitationSecret learnerKey
         dateExpires w drawn salt.
  split; [apply generateSubscribeLink_default_salt |].
  split; [reflexivity |].
  split; [reflexivity |].
  split; [reflexivity |].
  split; [reflexivity |].
  split; [apply hex_lower |].
  intros token w'. rewrite generateSubscribeLink_default_salt.
  apply generateSubscribeLink_normal_shape.
Qed.

Lemma default_salt_is_sixteen_hex_digits_witness :
  exists d,
    "https://aeviumeducation.com/invitation-claim/?partner=acme&learner_key=lk_001&salt=0001020304050607&date_expires=2025-01-01T00:15:00&field_code=ABC123&signature=46f4e85bd2b1db9fb7c6046e74e7b6e073354fa2a6f2a4b52980720eb8f5263c"
    = "https://aeviumeducation.com" ++ "/invitation-claim/?"
        ++ signed_claim "s3cr3t"
             ("partner=" ++ "acme" ++ "&learner_key=" ++ "lk_001" ++ "&salt="
                ++ Buffer_toString_hex (World_bytes 8 (host 0 1735689600123))
                ++ "&date_expires=" ++ d ++ field_params [("code", "ABC123")]).
Proof.
  destruct (default_salt_is_sixteen_hex_digits "https://aeviumeducation.com"
              "acme" [("code", "ABC123")] "s3cr3t" "lk_001" None
              (host 0 1735689600123))
    as (_ & _ & _ & _ & _ & _ & Htoken).
  set (r := generateSubscribeLink "https://aeviumeducation.com" "acme"
              [("code", "ABC123")] "s3cr3t" "lk_001" None None
              (host 0 1735689600123)) in *.
  apply (Htoken _ (snd r)).
  transitivity (fst r, snd r); [apply surjective_pairing |].
  apply (f_equal (fun c => (c, snd r))).
  vm_compute. reflexivity.
Defined.

Example default_salt_example :
  fst (generateSubscribeLink "https://aeviumeducation.com" "acme"
         [("code", "ABC123")] "s3cr3t" "lk_001" None None
         (host 0 1735689600123))
  = Normal
      ("https://aeviumeducation.com/invitation-claim/?"
       ++ signed_claim "s3cr3t"
            "partner=acme&learner_key=lk_001&salt=0001020304050607&date_expires=2025-01-01T00:15:00&field_code=ABC123").
Proof. vm_compute. reflexivity. Qed.

(** ** Cutting a token back into its parameters *)

Lemma has_char_append (c : ascii) (a b : string) :
  has_char c (a ++ b) = has_char c a || has_char c b.
Proof.
  induction a as [| x a IH]; simpl; [reflexivity |].
  now rewrite IH, orb_assoc.
Qed.

Lemma split_on_clean (sep : ascii) (a : string) :
  has_char sep a = false -> split_on sep a = [a].
Proof.
  induction a as [| x a IH]; simpl; [reflexivity |].
  intros H. apply orb_false_elim in H. destruct H as [Hx Ha].
  now rewrite Hx, (IH Ha).
Qed.

Lemma split_on_cons (sep : ascii) (a b : string) :
  has_char sep a = false ->
  split_on sep (a ++ String sep b) = a :: split_on sep b.
Proof.
  induction a as [| x a IH]; simpl.
  - intros _. now rewrite Ascii.eqb_refl.
  - intros H. apply orb_false_elim in H. destruct H as [Hx Ha].
    now rewrite Hx, (IH Ha).
Qed.

Lemma split_on_join (sep : ascii) (l : list string) :
  l <> [] ->
  Forall (fun s => has_char sep s = false) l ->
  split_on sep (join (String sep "") l) = l.
Proof.
  induction l as [| x l IH]; [congruence |].
  intros _ Hall. inversion Hall as [| ? ? Hx Hl]; subst.
  destruct l as [| y l].
  - simpl. now apply split_on_clean.
  - change (join (String sep "") (x :: y :: l))
      with (x ++ String sep (join (String sep "") (y :: l))).
    rewrite (split_on_cons sep x _ Hx). f_equal.
    apply IH; [discriminate | exact Hl].
Qed.

Lemma join_snoc (sep x : string) (l : list string) :
  l <> [] -> join sep (l ++ [x]) = join sep l ++ sep ++ x.
Proof.
  induction l as [| y l IH]; [congruence |]. intros _.
  destruct l as [| z l].
  - reflexivity.
  - change (join sep ((y :: z :: l) ++ [x]))
      with (y ++ sep ++ join sep ((z :: l) ++ [x])).
    rewrite IH by discriminate.
    change (join sep (y :: z :: l)) with (y ++ sep ++ join sep (z :: l)).
    now rewrite !append_assoc.
Qed.

Lemma split_first_append (sep : ascii) (a b : string) :
  has_char sep a = false ->
  split_first sep (a ++ String sep b) = Some (a, b).
Proof.
  induction a as [| x a IH]; simpl.
  - intros _. now rewrite Ascii.eqb_refl.
  - intros H. apply orb_false_elim in H. destruct H as [Hx Ha].
    now rewrite Hx, (IH Ha).
Qed.

Lemma strip_prefix_append (p s : string) : strip_prefix p (p ++ s) = Some s.
Proof.
  induction p as [| a p IH]; simpl; [now destruct s |].
  now rewrite Ascii.eqb_refl.
Qed.

Lemma eqb_prefixed_other (p k name : string) :
  strip_prefix p name = None -> String.eqb (p ++ k) name = false.
Proof.
  revert name. induction p as [| a p IH]; intros name; simpl.
  - destruct name; discriminate.
  - destruct name as [| b name]; [reflexivity |].
    destruct (Ascii.eqb a b); [apply IH | reflexivity].
Qed.

Lemma parse_params_app (l1 l2 : list string) (r1 r2 : list (string * string)) :
  parse_params l1 = Some r1 -> parse_params l2 = Some r2 ->
  parse_params (l1 ++ l2) = Some (r1 ++ r2)%list.
Proof.
  revert r1. induction l1 as [| seg l1 IH]; simpl; intros r1 H1 H2.
  - inversion H1; subst. exact H2.
  - destruct (split_first "=" seg) as [p |]; [| discriminate].
    destruct (parse_params l1) as [l |]; [| discriminate].
    inversion H1; subst. now rewrite (IH l eq_refl H2).
Qed.

Lemma field_segment_cut (e : string * string) :
  field_segment e = ("field_" ++ fst e) ++ String "=" (snd e).
Proof. unfold field_segment. symmetry. apply append_assoc. Qed.

Lemma parse_params_fields (entries : Record_string) :
  Forall (fun e => has_char "=" (fst e) = false) entries ->
  parse_params (map field_segment entries) = Some (map field_param entries).
Proof.
  induction 1 as [| e entries He Hall IH]; [reflexivity |].
  cbn [map parse_params]. rewrite IH, field_segment_cut.
  rewrite split_first_append; [reflexivity |].
  rewrite has_char_append. exact He.
Qed.

Lemma Object_get_skip_fields (entries : Record_string)
    (rest : list (string * string)) (name : string) :
  strip_prefix "field_" name = None ->
  Object_get (map field_param entries ++ rest)%list name = Object_get rest name.
Proof.
  intros Hname. induction entries as [| e entries IH]; [reflexivity |].
  cbn [map app]. unfold field_param at 1. cbn [Object_get].
  now rewrite (eqb_prefixed_other "field_" (fst e) name Hname).
Qed.

Lemma field_entries_fields (entries : Record_string)
    (rest : list (string * string)) :
  field_entries (map field_param entries ++ rest)%list
  = (entries ++ field_entries rest)%list.
Proof.
  induction entries as [| [k v] entries IH]; [reflexivity |].
  change (field_entries (map field_param ((k, v) :: entries) ++ rest)%list)
    with (match strip_prefix "field_" ("field_" ++ k) with
          | Some key => (key, v) :: field_entries (map field_param entries ++ rest)%list
          | None => field_entries (map field_param entries ++ rest)%list
          end).
  rewrite strip_prefix_append, IH. reflexivity.
Qed.

Lemma differing_bits_same (a : string) (acc : Z) : differing_bits a a acc = acc.
Proof.
  revert acc. induction a as [| x a IH]; intros acc; simpl; [reflexivity |].
  now rewrite IH, Z.lxor_nilpotent, Z.lor_0_r.
Qed.

Lemma constant_time_eq_refl (a : string) : constant_time_eq a a = true.
Proof.
  unfold constant_time_eq.
  now rewrite Nat.eqb_refl, differing_bits_same.
Qed.

Lemma hex_digit_not_ampersand (n : Z) : Ascii.eqb (hex_digit n) "&" = false.
Proof.
  pose proof (hex_digit_lower n) as H. unfold is_lower_hex in H.
  simpl in H.
  repeat (destruct H as [<- | H]; [reflexivity |]). contradiction.
Qed.

Lemma hex_no_ampersand (b : Buffer) : has_char "&" (Buffer_toString_hex b) = false.
Proof.
  induction b as [| x b IH]; simpl; [reflexivity |].
  now rewrite !hex_digit_not_ampersand, IH.
Qed.

Lemma claim_string_segments p f lk s d :
  claim_string p f lk s d
  = join "&" (app (fixed_segments p lk s d)
                  (map field_segment (sorted_entries f))).
Proof. unfold claim_string, sorted_entries. now rewrite map_map. Qed.

(** Splits the hypotheses that a conjunction of tests is true, and turns
    each test under [negb] into an equation. *)
Ltac split_tests :=
  repeat match goal with
         | H : (_ && _)%bool = true |- _ =>
             apply andb_prop in H; destruct H
         | H : negb _ = true |- _ => apply negb_true_iff in H
         end.

Lemma field_segment_clean (e : string * string) :
  clean_entry e = true -> has_char "&" (field_segment e) = false.
Proof.
  unfold clean_entry. intros H. split_tests.
  rewrite field_segment_cut, !has_char_append. simpl.
  match goal with
  | Hk : has_char "&" (fst e) = false, Hv : has_char "&" (snd e) = false |- _ =>
      now rewrite Hk, Hv
  end.
Qed.

Lemma clean_entry_key (e : string * string) :
  clean_entry e = true -> has_char "=" (fst e) = false.
Proof. unfold clean_entry. intros H. split_tests. assumption. Qed.

Section CleanToken.

(** The parts of a claim whose fields are already in order, none of them
    holding a separator. *)
Variables p lk s d : string.
Variable entries : Record_string.

Hypothesis clean_partner : has_char "&" p = false.
Hypothesis clean_learnerKey : has_char "&" lk = false.
Hypothesis clean_salt : has_char "&" s = false.
Hypothesis clean_expiry : has_char "&" d = false.
Hypothesis clean_fields : forallb clean_entry entries = true.

(** The parameters read back from a token built on clean parts. *)
Lemma parse_signed_claim (sig : string) :
  has_char "&" sig = false ->
  parse_params
    (split_on "&"
       (join "&" (app (fixed_segments p lk s d) (map field_segment entries))
        ++ "&signature=" ++ sig))
  = Some (app (fixed_params p lk s d)
              (app (map field_param entries) [("signature", sig)])).
Proof.
  intros Hsig.
  pose proof (proj1 (forallb_forall _ _) clean_fields) as Hentries.
  set (segs := app (fixed_segments p lk s d) (map field_segment entries)).
  change (join "&" segs ++ "&signature=" ++ sig)
    with (join "&" segs ++ "&" ++ ("signature=" ++ sig)).
  rewrite <- join_snoc by (subst segs; discriminate).
  subst segs. rewrite <- app_assoc.
  rewrite split_on_join.
  - apply parse_params_app; [reflexivity |].
    apply parse_params_app; [| reflexivity].
    apply parse_params_fields.
    rewrite Forall_forall. intros e He.
    apply clean_entry_key. now apply Hentries.
  - discriminate.
  - apply Forall_app. split.
    + repeat constructor; simpl; assumption.
    + apply Forall_app. split.
      * rewrite Forall_forall. intros seg Hseg.
        apply in_map_iff in Hseg. destruct Hseg as [e [<- He]].
        apply field_segment_clean. now apply Hentries.
      * repeat constructor. simpl. exact Hsig.
Qed.

(** Verifying the token signed for these parts gives them back. *)
Lemma verify_signed_claim (parse : string -> option Z) (secret : string)
    (now t : Z) :
  sorted_entries entries = entries ->
  parse d = Some t -> now <= t ->
  verify parse (signed_claim secret (claim_string p entries lk s d)) secret now
  = inr (mkClaim p lk s d entries).
Proof.
  intros Hsorted Hparse Hnow.
  unfold verify, signed_claim.
  remember (hmac_sha256_hex secret (claim_string p entries lk s d))
    as sig eqn:Esig.
  assert (Hsig : has_char "&" sig = false)
    by (subst sig; apply hex_no_ampersand).
  rewrite claim_string_segments, Hsorted.
  rewrite (parse_signed_claim sig Hsig).
  cbv beta iota zeta.
  change (Object_get _ "signature")
    with (Object_get (app (map field_param entries) [("signature", sig)])
            "signature").
  rewrite Object_get_skip_fields by reflexivity.
  change (Object_get [("signature", sig)] "signature") with (Some sig).
  change (Object_get _ "partner") with (Some p).
  change (Object_get _ "learner_key") with (Some lk).
  change (Object_get _ "salt") with (Some s).
  change (Object_get _ "date_expires") with (Some d).
  cbv beta iota zeta.
  change (field_entries _)
    with (field_entries (app (map field_param entries) [("signature", sig)])).
  rewrite field_entries_fields.
  change (field_entries [("signature", sig)]) with (@nil (string * string)).
  rewrite app_nil_r, <- Esig.
  rewrite constant_time_eq_refl, Hparse.
  destruct (Z.gtb_spec now t); [lia | reflexivity].
Qed.

End CleanToken.

Lemma sorted_entries_keys (o : Record_string) :
  Object_keys (sorted_entries o) = Array_sort (Object_keys o).
Proof.
  unfold sorted_entries, Object_keys. rewrite map_map. apply map_id.
Qed.

Lemma sorted_entries_idem (o : Record_string) :
  NoDup (Object_keys o) -> sorted_entries (sorted_entries o) = sorted_entries o.
Proof.
  intros Hnd. unfold sorted_entries at 1.
  rewrite sorted_entries_keys.
  rewrite (Array_sort_perm_eq (Array_sort (Object_keys o)) (Object_keys o))
    by (apply Permutation_sym, Array_sort_perm).
  transitivity (map (fun k => (k, template_get o k)) (Array_sort (Object_keys o)));
    [| reflexivity].
  apply map_ext. intros k. unfold template_get.
  rewrite <- (Object_get_perm o (sorted_entries o) k Hnd).
  - reflexivity.
  - apply Permutation_sym. now apply sorted_entries_perm.
Qed.

Lemma sorted_entries_clean (o : Record_string) :
  NoDup (Object_keys o) ->
  forallb clean_entry o = true -> forallb clean_entry (sorted_entries o) = true.
Proof.
  intros Hnd. rewrite !forallb_forall. intros H e He.
  apply H. eapply Permutation_in; [| exact He].
  now apply sorted_entries_perm.
Qed.

(** ** Signing, then verifying *)

(** C5, as stated, fails: a field value that holds an ampersand is read
    back as two fields.  The claim with the field [a = 1&field_b=2] and
    the claim with the fields [a = 1] and [b = 2] are signed into the same
    token, so that no verifier returns each of them from its token; the
    verifier of the specification accepts the token, under the same secret
    and before the expiry, and returns the second claim for the first. *)
Lemma round_trip_counterexample :
  exists token returned,
    fst (sign (mkClaim "acme" "lk_001" "deadbeef" "2025-01-01T00:15:00"
                 [("a", "1&field_b=2")])
           "s3cr3t" (host 0 1735689600000)) = Normal token
    /\ fst (sign (mkClaim "acme" "lk_001" "deadbeef" "2025-01-01T00:15:00"
                    [("a", "1"); ("b", "2")])
              "s3cr3t" (host 0 1735689600000)) = Normal token
    /\ verify (iso_parse 0) token "s3cr3t" 1735689600000 = inr returned
    /\ claim_fields returned = [("a", "1"); ("b", "2")]
    /\ ~ Permutation (claim_fields returned) [("a", "1&field_b=2")].
Proof.
  eexists. eexists.
  split; [vm_compute; reflexivity |].
  split; [vm_compute; reflexivity |].
  split; [vm_compute; reflexivity |].
  split; [reflexivity |].
  intros P. apply Permutation_length in P. discriminate.
Qed.

(** C5, amended: for a claim in which no text holds an ampersand and no
    field key holds an equals sign, signed while its expiry is not before
    the clock, verification under the same secret at a time before the
    expiry returns the claim: the same partner, learner key, salt and
    expiry, and the same fields, listed in ascending order of their keys. *)
Theorem round_trip_separator_free :
  forall (w : World) (c : InvitationClaim) (secret : string) (now t : Z),
    separator_free c = true ->
    NoDup (Object_keys (claim_fields c)) ->
    Date_parse w (claim_expiresAt c) = Some t ->
    World_now w <= t ->
    now < t ->
    exists token,
      fst (sign c secret w) = Normal token
      /\ verify (Date_parse w) token secret now = inr (normalised c)
      /\ claim_partner (normalised c) = claim_partner c
      /\ claim_learnerKey (normalised c) = claim_learnerKey c
      /\ claim_salt (normalised c) = claim_salt c
      /\ claim_expiresAt (normalised c) = claim_expiresAt c
      /\ Permutation (claim_fields (normalised c)) (claim_fields c)
      /\ (forall key, Object_get (claim_fields (normalised c)) key
                      = Object_get (claim_fields c) key).
Proof.
  intros w [p lk s d f] secret now t Hclean Hnd Hparse Hsign Hnow.
  cbn [claim_partner claim_learnerKey claim_salt claim_expiresAt claim_fields
       normalised] in *.
  unfold separator_free in Hclean.
  cbn [claim_partner claim_learnerKey claim_salt claim_expiresAt claim_fields]
    in Hclean.
  split_tests.
  exists (signed_claim secret (claim_string p f lk s d)).
  split; [| split].
  - unfold sign.
    cbn [claim_partner claim_learnerKey claim_salt claim_expiresAt claim_fields].
    rewrite generateInvitationClaim_run.
    now rewrite (expiry_not_before_now_passes w d t Hparse Hsign).
  - rewrite (claim_string_perm p lk s d f (sorted_entries f) Hnd)
      by (apply Permutation_sym; now apply sorted_entries_perm).
    apply verify_signed_claim with (t := t); auto.
    + now apply sorted_entries_clean.
    + now apply sorted_entries_idem.
    + lia.
  - repeat (split; [reflexivity |]). split.
    + now apply sorted_entries_perm.
    + intros key. symmetry. apply Object_get_perm; [exact Hnd |].
      apply Permutation_sym. now apply sorted_entries_perm.
Qed.

Lemma round_trip_separator_free_witness :
  exists token,
    fst (sign (mkClaim "acme" "lk_001" "deadbeef" "2025-01-01T00:15:00"
                 [("code", "ABC123"); ("campaign", "a=b")])
           "s3cr3t" (host 0 1735689600000)) = Normal token
    /\ verify (iso_parse 0) token "s3cr3t" 1735690499000
       = inr (mkClaim "acme" "lk_001" "deadbeef" "2025-01-01T00:15:00"
                [("campaign", "a=b"); ("code", "ABC123")]).
Proof.
  assert (Hnd : NoDup (Object_keys [("code", "ABC123"); ("campaign", "a=b")])).
  { repeat constructor; simpl; intuition discriminate. }
  destruct (round_trip_separator_free (host 0 1735689600000)
              (mkClaim "acme" "lk_001" "deadbeef" "2025-01-01T00:15:00"
                 [("code", "ABC123"); ("campaign", "a=b")])
              "s3cr3t" 1735690499000 1735690500000)
    as [token [Hsign [Hverify _]]].
  - vm_compute. reflexivity.
  - exact Hnd.
  - vm_compute. reflexivity.
  - vm_compute. discriminate.
  - vm_compute. reflexivity.
  - exists token. split; [exact Hsign |]. exact Hverify.
Defined.

(** * Further properties of the two modules *)

(** ** Outcomes and effects of [generateInvitationClaim] *)

(** X1: the function fails in one way only, with the error of the expiry
    check, and exactly when the host reads the expiry as a time strictly
    before the clock reading; then no digest was computed.  Otherwise it
    returns a token and one digest was computed.  Either way the clock was
    read once and no random byte was drawn. *)
Theorem generateInvitationClaim_outcomes :
  forall partner invitationFields invitationSecret learnerKey salt
         dateExpiresString (w : World),
    let r := generateInvitationClaim partner invitationFields invitationSecret
               learnerKey salt dateExpiresString w in
    (fst r = Throw (Error "Expiration date must be in the future")
       /\ (exists t, Date_parse w dateExpiresString = Some t /\ t < World_now w)
       /\ digests (snd r) = digests w
     \/ (exists token, fst r = Normal token)
       /\ (forall t, Date_parse w dateExpiresString = Some t -> World_now w <= t)
       /\ digests (snd r) = S (digests w))
    /\ clock_reads (snd r) = S (clock_reads w)
    /\ entropy_drawn (snd r) = entropy_drawn w.
Proof.
  intros partner invitationFields invitationSecret learnerKey salt
         dateExpiresString w r.
  subst r. rewrite generateInvitationClaim_run. unfold Date_lt.
  destruct (Date_parse w dateExpiresString) as [t |].
  - destruct (Z.ltb_spec t (World_now w)) as [Hlt | Hge].
    + split; [left | split; reflexivity].
      split; [reflexivity | split; [| reflexivity]].
      exists t. split; [reflexivity | exact Hlt].
    + split; [right | split; reflexivity].
      split; [eexists; reflexivity | split; [| reflexivity]].
      intros t' E. inversion E; subst. exact Hge.
  - split; [right | split; reflexivity].
    split; [eexists; reflexivity | split; [| reflexivity]].
    intros t' E. discriminate.
Qed.

(** ** The claim string tells claims apart *)

Lemma clean_arguments_segments partner invitationFields learnerKey salt
    dateExpiresString :
  clean_arguments partner invitationFields learnerKey salt dateExpiresString
  = true ->
  NoDup (Object_keys invitationFields) ->
  split_on "&"
    (claim_string partner invitationFields learnerKey salt dateExpiresString)
  = app (fixed_segments partner learnerKey salt dateExpiresString)
        (map field_segment (sorted_entries invitationFields)).
Proof.
  unfold clean_arguments. intros Hclean Hnd. split_tests.
  rewrite claim_string_segments. apply split_on_join; [discriminate |].
  apply Forall_app. split.
  - repeat constructor; simpl; assumption.
  - rewrite Forall_forall. intros seg Hseg.
    apply in_map_iff in Hseg. destruct Hseg as [e [<- He]].
    apply field_segment_clean.
    assert (Hall : forallb clean_entry (sorted_entries invitationFields) = true)
      by now apply sorted_entries_clean.
    rewrite forallb_forall in Hall. now apply Hall.
Qed.

Lemma field_segment_injective (e1 e2 : string * string) :
  clean_entry e1 = true -> clean_entry e2 = true ->
  field_segment e1 = field_segment e2 -> e1 = e2.
Proof.
  intros H1 H2 E.
  apply clean_entry_key in H1, H2.
  assert (Hcut : split_first "=" (field_segment e1)
                 = split_first "=" (field_segment e2)) by now rewrite E.
  rewrite !field_segment_cut in Hcut.
  rewrite !split_first_append in Hcut
    by (rewrite has_char_append; assumption).
  destruct e1 as [k1 v1], e2 as [k2 v2]. simpl in Hcut.
  inversion Hcut; subst. reflexivity.
Qed.

Lemma field_segments_injective (l1 l2 : Record_string) :
  forallb clean_entry l1 = true -> forallb clean_entry l2 = true ->
  map field_segment l1 = map field_segment l2 -> l1 = l2.
Proof.
  revert l2. induction l1 as [| e1 l1 IH]; intros [| e2 l2] H1 H2 E;
    try discriminate; [reflexivity |].
  cbn [forallb map] in H1, H2, E.
  apply andb_prop in H1, H2. destruct H1 as [He1 Hl1], H2 as [He2 Hl2].
  assert (Ehd : field_segment e1 = field_segment e2) by congruence.
  assert (Etl : map field_segment l1 = map field_segment l2) by congruence.
  f_equal; [now apply field_segment_injective | now apply IH].
Qed.

(** X2: as long as no argument holds an ampersand and no key an equals
    sign, two claims with the same claim string are the same claim: the
    same partner, learner key, salt and expiry text, and the same fields. *)
Theorem claim_string_injective :
  forall p1 lk1 s1 d1 (f1 : Record_string) p2 lk2 s2 d2 (f2 : Record_string),
    clean_arguments p1 f1 lk1 s1 d1 = true ->
    clean_arguments p2 f2 lk2 s2 d2 = true ->
    NoDup (Object_keys f1) -> NoDup (Object_keys f2) ->
    claim_string p1 f1 lk1 s1 d1 = claim_string p2 f2 lk2 s2 d2 ->
    p1 = p2 /\ lk1 = lk2 /\ s1 = s2 /\ d1 = d2 /\ Permutation f1 f2.
Proof.
  intros p1 lk1 s1 d1 f1 p2 lk2 s2 d2 f2 H1 H2 Hnd1 Hnd2 E.
  pose proof (clean_arguments_segments p1 f1 lk1 s1 d1 H1 Hnd1) as S1.
  pose proof (clean_arguments_segments p2 f2 lk2 s2 d2 H2 Hnd2) as S2.
  rewrite E, S2 in S1. unfold fixed_segments in S1. simpl in S1.
  inversion S1 as [[Ep Elk Es Ed Ef]].
  repeat (split; [reflexivity || assumption |]).
  unfold clean_arguments in H1, H2. split_tests.
  assert (Esorted : sorted_entries f2 = sorted_entries f1).
  { apply field_segments_injective; try assumption;
      now apply sorted_entries_clean. }
  rewrite <- (sorted_entries_perm f1 Hnd1), <- (sorted_entries_perm f2 Hnd2).
  now rewrite Esorted.
Qed.

Lemma claim_string_injective_witness :
  "acme" = "acme" /\ "lk_001" = "lk_001" /\ "deadbeef" = "deadbeef"
  /\ "2025-01-01T00:15:00" = "2025-01-01T00:15:00"
  /\ Permutation [("code", "ABC123"); ("campaign", "a=b")]
                 [("campaign", "a=b"); ("code", "ABC123")].
Proof.
  apply (claim_string_injective "acme" "lk_001" "deadbeef" "2025-01-01T00:15:00"
           [("code", "ABC123"); ("campaign", "a=b")]
           "acme" "lk_001" "deadbeef" "2025-01-01T00:15:00"
           [("campaign", "a=b"); ("code", "ABC123")]).
  - vm_compute. reflexivity.
  - vm_compute. reflexivity.
  - repeat constructor; simpl; intuition discriminate.
  - repeat constructor; simpl; intuition discriminate.
  - vm_compute. reflexivity.
Defined.

(** ** When [generateSubscribeLink] fails, and how *)

Lemma generateSubscribeLink_default_run aeviumBaseUrl partner invitationFields
    invitationSecret learnerKey salt (w : World) :
  -62167219200000 <= World_now w + CLAIM_DURATION_SECONDS * 1000
                  < 253402300800000 ->
  generateSubscribeLink aeviumBaseUrl partner invitationFields invitationSecret
    learnerKey (Some salt) None w
  = link_with aeviumBaseUrl
      (generateInvitationClaim partner invitationFields invitationSecret
         learnerKey salt
         (iso_seconds (World_now w + CLAIM_DURATION_SECONDS * 1000))
         (World_tick w)).
Proof.
  intros Hrange.
  rewrite generateSubscribeLink_default_date.
  unfold Date_of_number, TimeClip.
  destruct (Z.leb_spec (Z.abs (World_now w + CLAIM_DURATION_SECONDS * 1000))
              8640000000000000) as [_ | Habs]; [| lia].
  rewrite generateSubscribeLink_explicit.
  now rewrite (iso_string_slice _ (year_has_four_digits _ Hrange)).
Qed.

(** X3: the function fails with a RangeError exactly when the expiry it
    works with, the one given or the default, is an invalid date; nothing
    has been signed then. *)
Theorem subscribe_link_range_error :
  forall aeviumBaseUrl partner invitationFields invitationSecret learnerKey
         (salt : option string) (dateExpires : option Date) (w : World),
    let r := generateSubscribeLink aeviumBaseUrl partner invitationFields
               invitationSecret learnerKey salt dateExpires w in
    ((exists message, fst r = Throw (RangeError message))
     <-> resolved_expiry dateExpires w = None)
    /\ (resolved_expiry dateExpires w = None ->
        fst r = Throw (RangeError "Invalid time value")
        /\ digests (snd r) = digests w).
Proof.
  intros aeviumBaseUrl partner invitationFields invitationSecret learnerKey
         salt dateExpires w r.
  assert (Hsome : forall s (d : option Date) (w0 : World),
             let r0 := generateSubscribeLink aeviumBaseUrl partner
                         invitationFields invitationSecret learnerKey
                         (Some s) d w0 in
             ((exists message, fst r0 = Throw (RangeError message))
              <-> resolved_expiry d w0 = None)
             /\ (resolved_expiry d w0 = None ->
                 fst r0 = Throw (RangeError "Invalid time value")
                 /\ digests (snd r0) = digests w0)).
  { intros s d w0 r0. subst r0.
    assert (Hexplicit : forall (e : Date) (w1 : World),
               let r1 := generateSubscribeLink aeviumBaseUrl partner
                           invitationFields invitationSecret learnerKey
                           (Some s) (Some e) w1 in
               ((exists message, fst r1 = Throw (RangeError message)) <-> e = None)
               /\ (e = None ->
                   fst r1 = Throw (RangeError "Invalid time value")
                   /\ digests (snd r1) = digests w1)).
    { intros e w1 r1. subst r1. rewrite generateSubscribeLink_explicit.
      destruct e as [t |].
      - rewrite generateInvitationClaim_run.
        destruct (Date_lt _ _); cbn [link_with fst];
          (split; [split; [intros [m E]; discriminate | discriminate]
                  | discriminate]).
      - split; [split; [reflexivity | intros _; eexists; reflexivity] |].
        intros _. split; reflexivity. }
    destruct d as [e |].
    - apply Hexplicit.
    - rewrite generateSubscribeLink_default_date.
      destruct (Hexplicit
                  (Date_of_number (World_now w0 + CLAIM_DURATION_SECONDS * 1000))
                  (World_tick w0)) as [Hiff Hnone].
      split; [exact Hiff |].
      intros E. destruct (Hnone E) as [H1 H2]. split; [exact H1 |].
      rewrite H2. reflexivity. }
  subst r. destruct salt as [s |].
  - apply Hsome.
  - rewrite generateSubscribeLink_default_salt.
    destruct (Hsome (Buffer_toString_hex (World_bytes 8 w)) dateExpires
                (World_draw 8 w)) as [Hiff Hnone].
    assert (E : resolved_expiry dateExpires (World_draw 8 w)
                = resolved_expiry dateExpires w) by reflexivity.
    rewrite E in Hiff, Hnone. split; [exact Hiff |].
    intros H. destruct (Hnone H) as [H1 H2]. split; [exact H1 |].
    rewrite H2. reflexivity.
Qed.

(** X4: on a host that reads the expiry text as UTC, or as the local time
    of a zone behind UTC, the call without an expiry returns its link, as
    long as the clock moved by no more than 899 seconds between the two
    readings; what is signed is the expiry text of the first reading plus
    15 minutes. *)
Theorem default_link_returns_when_read_as_utc :
  forall aeviumBaseUrl partner invitationFields invitationSecret learnerKey
         salt (w : World) (behind : Z),
    let expires := World_now w + CLAIM_DURATION_SECONDS * 1000 in
    -62167219200000 <= expires < 253402300800000 ->
    Date_parse w (iso_seconds expires)
    = Some (1000 * (expires / 1000) + 60000 * behind) ->
    0 <= behind ->
    clock w (S (clock_reads w)) <= World_now w + 899000 ->
    generateSubscribeLink aeviumBaseUrl partner invitationFields
      invitationSecret learnerKey (Some salt) None w
    = (Normal
         (aeviumBaseUrl ++ "/invitation-claim/?"
            ++ signed_claim invitationSecret
                 (claim_string partner invitationFields learnerKey salt
                    (iso_seconds expires))),
       World_digest (World_tick (World_tick w))).
Proof.
  intros aeviumBaseUrl partner invitationFields invitationSecret learnerKey
         salt w behind expires Hrange Hparse Hbehind Hclock.
  rewrite generateSubscribeLink_default_run by exact Hrange.
  fold expires. rewrite generateInvitationClaim_run.
  change (Date_parse (World_tick w)) with (Date_parse w).
  rewrite Hparse. unfold Date_lt.
  change (World_now (World_tick w)) with (clock w (S (clock_reads w))).
  destruct (Z.ltb_spec (1000 * (expires / 1000) + 60000 * behind)
              (clock w (S (clock_reads w)))) as [Hlt | _].
  - exfalso. subst expires. unfold CLAIM_DURATION_SECONDS in *.
    Z.div_mod_to_equations. lia.
  - reflexivity.
Qed.

Lemma default_link_returns_when_read_as_utc_witness :
  generateSubscribeLink "https://aeviumeducation.com" "acme"
    [("code", "ABC123")] "s3cr3t" "lk_001" (Some "deadbeef") None
    (host 0 1735689600123)
  = (Normal
       ("https://aeviumeducation.com" ++ "/invitation-claim/?"
          ++ signed_claim "s3cr3t"
               (claim_string "acme" [("code", "ABC123")] "lk_001" "deadbeef"
                  (iso_seconds (World_now (host 0 1735689600123)
                                + CLAIM_DURATION_SECONDS * 1000)))),
     World_digest (World_tick (World_tick (host 0 1735689600123)))).
Proof.
  apply (default_link_returns_when_read_as_utc "https://aeviumeducation.com"
           "acme" [("code", "ABC123")] "s3cr3t" "lk_001" "deadbeef"
           (host 0 1735689600123) 0).
  - vm_compute. split; [discriminate | reflexivity].
  - vm_compute. reflexivity.
  - lia.
  - vm_compute. discriminate.
Defined.

(** X5: on a host that reads the expiry text as the local time of a zone
    more than 15 minutes ahead of UTC, the call without an expiry always
    fails: the default expiry, written in UTC and read back as local time,
    is taken for a time in the past.  Nothing is signed. *)
Theorem default_link_refused_ahead_of_utc :
  forall aeviumBaseUrl partner invitationFields invitationSecret learnerKey
         salt (w : World) (ahead : Z),
    let expires := World_now w + CLAIM_DURATION_SECONDS * 1000 in
    -62167219200000 <= expires < 253402300800000 ->
    Date_parse w (iso_seconds expires)
    = Some (1000 * (expires / 1000) - 60000 * ahead) ->
    15 < ahead ->
    World_now w <= clock w (S (clock_reads w)) ->
    generateSubscribeLink aeviumBaseUrl partner invitationFields
      invitationSecret learnerKey (Some salt) None w
    = (Throw (Error "Expiration date must be in the future"),
       World_tick (World_tick w))
    /\ digests (World_tick (World_tick w)) = digests w.
Proof.
  intros aeviumBaseUrl partner invitationFields invitationSecret learnerKey
         salt w ahead expires Hrange Hparse Hahead Hclock.
  split; [| reflexivity].
  rewrite generateSubscribeLink_default_run by exact Hrange.
  fold expires. rewrite generateInvitationClaim_run.
  change (Date_parse (World_tick w)) with (Date_parse w).
  rewrite Hparse. unfold Date_lt.
  change (World_now (World_tick w)) with (clock w (S (clock_reads w))).
  destruct (Z.ltb_spec (1000 * (expires / 1000) - 60000 * ahead)
              (clock w (S (clock_reads w)))) as [_ | Hge].
  - reflexivity.
  - exfalso. subst expires. unfold CLAIM_DURATION_SECONDS in *.
    Z.div_mod_to_equations. lia.
Qed.

Lemma default_link_refused_ahead_of_utc_witness :
  generateSubscribeLink "https://aeviumeducation.com" "acme"
    [("code", "ABC123")] "s3cr3t" "lk_001" (Some "deadbeef") None
    (host 60 1735689600123)
  = (Throw (Error "Expiration date must be in the future"),
     World_tick (World_tick (host 60 1735689600123)))
  /\ digests (World_tick (World_tick (host 60 1735689600123)))
     = digests (host 60 1735689600123).
Proof.
  apply (default_link_refused_ahead_of_utc "https://aeviumeducation.com"
           "acme" [("code", "ABC123")] "s3cr3t" "lk_001" "deadbeef"
           (host 60 1735689600123) 60).
  - vm_compute. split; [discriminate | reflexivity].
  - vm_compute. reflexivity.
  - lia.
  - vm_compute. discriminate.
Defined.

(** ** Expiries beyond the year 9999 *)

Lemma year_beyond_four_digits (t : Z) :
  253402300800000 <= t -> 9999 < YearFromTime t.
Proof.
  intros Ht.
  unfold YearFromTime, civil_from_days, msPerDay. cbn [fst snd].
  set (z := t / 86400000 + 719468).
  assert (Hz : 3652365 <= z) by (subst z; Z.div_mod_to_equations; lia).
  clearbody z. clear Ht t.
  set (era := z / 146097).
  set (doe := z mod 146097).
  assert (Hdm : z = 146097 * era + doe /\ 0 <= doe < 146097).
  { subst era doe. Z.div_mod_to_equations. lia. }
  clearbody era doe.
  set (yoe := (doe - doe / 1460 + doe / 36524 - doe / 146096) / 365).
  assert (Hyoe : 0 <= yoe <= 399
                 /\ 365 * yoe + yoe / 4 - yoe / 100 <= doe
                 /\ doe < 365 * (yoe + 1) + (yoe + 1) / 4 - (yoe + 1) / 100
                          + (if yoe =? 399 then 1 else 0)).
  { subst yoe. destruct (_ =? 399) eqn:E; Z.div_mod_to_equations; lia. }
  clearbody yoe.
  set (doy := doe - (365 * yoe + yoe / 4 - yoe / 100)).
  set (mp := (5 * doy + 2) / 153).
  destruct (mp <? 10) eqn:Emp; destruct (_ <=? 2) eqn:Em.
  all: try (apply Z.ltb_lt in Emp); try (apply Z.ltb_ge in Emp);
       try (apply Z.leb_le in Em); try (apply Z.leb_gt in Em).
  all: subst mp doy; destruct (yoe =? 399) eqn:E;
       [apply Z.eqb_eq in E | apply Z.eqb_neq in E];
       Z.div_mod_to_equations; lia.
Qed.

(** X6: an expiry in the year 10000 or later is written by the host with
    a sign and six digits of year, so that the 19 characters kept of it
    stop after the minutes: the text signed as [date_expires] has no
    seconds. *)
Theorem expiry_text_beyond_year_9999 :
  forall aeviumBaseUrl partner invitationFields invitationSecret learnerKey
         salt (t : Z) (w : World),
    253402300800000 <= t ->
    generateSubscribeLink aeviumBaseUrl partner invitationFields
      invitationSecret learnerKey (Some salt) (Some (Some t)) w
    = link_with aeviumBaseUrl
        (generateInvitationClaim partner invitationFields invitationSecret
           learnerKey salt
           ("+" ++ digits 6 (YearFromTime t) ++ "-"
              ++ digits 2 (MonthFromTime t) ++ "-" ++ digits 2 (DateFromTime t)
              ++ "T" ++ digits 2 (HourFromTime t) ++ ":"
              ++ digits 2 (MinFromTime t))
           w).
Proof.
  intros aeviumBaseUrl partner invitationFields invitationSecret learnerKey
         salt t w Ht.
  rewrite generateSubscribeLink_explicit. do 2 f_equal.
  pose proof (year_beyond_four_digits t Ht) as Hy.
  unfold iso_string, iso_year.
  destruct (Z.leb_spec (YearFromTime t) 9999) as [Hle | _]; [lia |].
  rewrite andb_false_r.
  destruct (Z.ltb_spec (YearFromTime t) 0) as [Hneg | _]; [lia |].
  rewrite (Z.abs_eq (YearFromTime t)) by lia.
  reflexivity.
Qed.

Lemma expiry_text_beyond_year_9999_witness :
  fst (generateSubscribeLink "https://aeviumeducation.com" "acme"
         [("code", "ABC123")] "s3cr3t" "lk_001" (Some "deadbeef")
         (Some (Some 253402300859000)) (host 0 1735689600123))
  = Normal
      ("https://aeviumeducation.com/invitation-claim/?"
       ++ signed_claim "s3cr3t"
            "partner=acme&learner_key=lk_001&salt=deadbeef&date_expires=+010000-01-01T00:00&field_code=ABC123").
Proof.
  rewrite (expiry_text_beyond_year_9999 "https://aeviumeducation.com" "acme"
             [("code", "ABC123")] "s3cr3t" "lk_001" "deadbeef"
             253402300859000 (host 0 1735689600123))
    by (vm_compute; discriminate).
  rewrite generateInvitationClaim_run.
  replace (Date_lt _ _) with false by (vm_compute; reflexivity).
  cbn [link_with fst].
  apply (f_equal (fun c => Normal ("https://aeviumeducation.com/invitation-claim/?"
                                   ++ signed_claim "s3cr3t" c))).
  vm_compute. reflexivity.
Defined.

(** ** The default salt keeps the bytes it was drawn from *)

Lemma hex_value_digit (n : Z) : hex_value (hex_digit n) = n mod 16.
Proof.
  unfold hex_digit.
  pose proof (Z.mod_pos_bound n 16 ltac:(lia)) as Hb.
  rewrite <- (Z2Nat.id (n mod 16)) at 2 by lia.
  assert (Hk : (Z.to_nat (n mod 16) < 16)%nat) by lia.
  remember (Z.to_nat (n mod 16)) as k eqn:Ek. clear Ek Hb.
  do 16 (destruct k as [| k]; [reflexivity |]). lia.
Qed.

Lemma Buffer_from_hex_toString (b : Buffer) :
  Forall (fun x => 0 <= x < 256) b ->
  Buffer_from_hex (Buffer_toString_hex b) = b.
Proof.
  induction 1 as [| x b Hx Hall IH]; [reflexivity |].
  cbn [Buffer_toString_hex Buffer_from_hex].
  rewrite !hex_value_digit, IH. f_equal.
  Z.div_mod_to_equations. lia.
Qed.

Lemma World_bytes_in_range (n : nat) (w : World) :
  Forall (fun x => 0 <= x < 256) (World_bytes n w).
Proof.
  unfold World_bytes. rewrite Forall_forall. intros x Hin.
  apply in_map_iff in Hin. destruct Hin as [i [<- _]].
  apply Z.mod_pos_bound. lia.
Qed.

(** X7: the default salt loses nothing of the eight bytes drawn: reading
    its sixteen digits back as hexadecimal gives the bytes, so that two
    draws give the same salt only when they gave the same bytes. *)
Theorem default_salt_keeps_the_bytes :
  forall (w1 w2 : World),
    Buffer_from_hex (Buffer_toString_hex (World_bytes 8 w1)) = World_bytes 8 w1
    /\ (Buffer_toString_hex (World_bytes 8 w1)
        = Buffer_toString_hex (World_bytes 8 w2)
        -> World_bytes 8 w1 = World_bytes 8 w2).
Proof.
  intros w1 w2. split.
  - apply Buffer_from_hex_toString, World_bytes_in_range.
  - intros E.
    rewrite <- (Buffer_from_hex_toString (World_bytes 8 w1))
      by apply World_bytes_in_range.
    rewrite <- (Buffer_from_hex_toString (World_bytes 8 w2))
      by apply World_bytes_in_range.
    now rewrite E.
Qed.

(** ** The script entry of examples/subscribe-link.ts *)

Lemma or_default_not_empty (v : option string) (d : string) :
  d <> "" -> or_default v d <> "".
Proof.
  intros Hd. unfold or_default. destruct v as [s |]; [| exact Hd].
  destruct (String.eqb_spec s ""); assumption.
Qed.

Lemma all_some_record (g : string -> option string) :
  forall (keys : list string) (o : Record_string),
    all_some (map (fun key => option_map (pair key) (g key)) keys) = Some o ->
    Object_keys o = keys
    /\ forall key, In key keys -> g key = Some (template_get o key).
Proof.
  induction keys as [| k keys IH]; intros o H.
  - inversion H. split; [reflexivity | intros key []].
  - cbn [map all_some] in H.
    destruct (g k) as [text |] eqn:Hk; [| discriminate].
    cbn [option_map] in H.
    destruct (all_some _) as [o' |] eqn:Ho'; [| discriminate].
    inversion H; subst o. destruct (IH o' eq_refl) as [Hkeys Htexts].
    split; [unfold Object_keys in *; cbn [map fst]; now rewrite Hkeys |].
    intros key Hin. unfold template_get. cbn [Object_get].
    destruct (String.eqb_spec k key) as [<- | Hne]; [exact Hk |].
    destruct Hin as [E | Hin]; [contradiction |].
    apply Htexts. exact Hin.
Qed.

Lemma all_some_none (g : string -> option string) :
  forall keys : list string,
    all_some (map (fun key => option_map (pair key) (g key)) keys) = None ->
    exists key, In key keys /\ g key = None.
Proof.
  induction keys as [| k keys IH]; intros H; [discriminate |].
  cbn [map all_some] in H.
  destruct (g k) as [text |] eqn:Hk.
  - cbn [option_map] in H.
    destruct (all_some _) as [o' |] eqn:Ho'; [discriminate |].
    destruct (IH eq_refl) as [key [Hin Hnone]].
    exists key. split; [now right | exact Hnone].
  - exists k. split; [now left | exact Hk].
Qed.

Lemma Array_map_returns {A B : Type} (f : A -> JS B) (g : A -> B) :
  forall (l : list A) (w : World),
    (forall x, In x l -> f x w = (Normal (g x), w)) ->
    Array_map f l w = (Normal (map g l), w).
Proof.
  induction l as [| x l IH]; intros w H; [reflexivity |].
  cbn [Array_map]. unfold bind.
  rewrite (H x (or_introl eq_refl)).
  rewrite IH by (intros y Hy; apply H; now right).
  reflexivity.
Qed.

Lemma Array_map_throws {A B : Type} (f : A -> JS B) (e : Exception) :
  forall (l : list A) (w : World),
    (forall x, In x l -> (exists b, f x w = (Normal b, w)) \/ f x w = (Throw e, w)) ->
    (exists x, In x l /\ f x w = (Throw e, w)) ->
    Array_map f l w = (Throw e, w).
Proof.
  induction l as [| x l IH]; intros w Hall [y [Hin Hy]]; [contradiction |].
  cbn [Array_map]. unfold bind.
  destruct (Hall x (or_introl eq_refl)) as [[b Hb] | Hx].
  - rewrite Hb.
    destruct Hin as [-> | Hin]; [rewrite Hb in Hy; discriminate |].
    rewrite IH; [reflexivity | |].
    + intros z Hz. apply Hall. now right.
    + exists y. split; assumption.
  - now rewrite Hx.
Qed.


Lemma generateInvitationClaim_any_run partner (v : JSON_value) invitationSecret
    learnerKey salt dateExpiresString (w : World) :
  generateInvitationClaim_any partner v invitationSecret learnerKey salt
    dateExpiresString w
  = if Date_lt (Date_parse w dateExpiresString) (Some (World_now w))
    then (Throw (Error "Expiration date must be in the future"), World_tick w)
    else match record_of v with
         | Some o =>
             (Normal (signed_claim invitationSecret
                        (claim_string partner o learnerKey salt
                           dateExpiresString)),
              World_digest (World_tick w))
         | None => (Throw (TypeError (fields_type_error v)), World_tick w)
         end.
Proof.
  unfold generateInvitationClaim_any, bind, Date_of_string, Date_new.
  change (Date_parse (World_tick w)) with (Date_parse w).
  destruct (Date_lt (Date_parse w dateExpiresString) (Some (World_now w)));
    [reflexivity |].
  unfold Object_keys_of, record_of, fields_type_error.
  destruct (own_properties v) as [properties |] eqn:Hp; [| reflexivity].
  cbv [ret].
  destruct (all_some _) as [o |] eqn:Ho.
  - apply all_some_record in Ho. destruct Ho as [Hkeys Htexts].
    rewrite (Array_map_returns _
               (fun key => "field_" ++ key ++ "=" ++ template_get o key)).
    + unfold claim_string. rewrite Hkeys. reflexivity.
    + intros key Hin. unfold template_read. rewrite Hp.
      rewrite Htexts; [reflexivity |].
      eapply Permutation_in; [apply Permutation_sym, Array_sort_perm | exact Hin].
  - apply all_some_none in Ho. destruct Ho as [key [Hin Hnone]].
    rewrite (Array_map_throws _
               (TypeError "Cannot convert object to primitive value"));
      [reflexivity | |].
    + intros k _. unfold template_read. rewrite Hp.
      destruct (property_text properties k); [left; eexists; reflexivity | right; reflexivity].
    + exists key. split.
      * eapply Permutation_in; [apply Array_sort_perm | exact Hin].
      * unfold template_read. rewrite Hp, Hnone. reflexivity.
Qed.

Lemma generateSubscribeLink_any_explicit aeviumBaseUrl partner
    (invitationFields : JSON_value) invitationSecret learnerKey salt
    (dateExpires : Date) (w : World) :
  generateSubscribeLink_any aeviumBaseUrl partner invitationFields
    invitationSecret learnerKey (Some salt) (Some dateExpires) w
  = match dateExpires with
    | Some t =>
        link_with aeviumBaseUrl
          (generateInvitationClaim_any partner invitationFields invitationSecret
             learnerKey salt (slice 0 19 (iso_string t)) w)
    | None => (Throw (RangeError "Invalid time value"), w)
    end.
Proof.
  destruct dateExpires as [t |]; [| reflexivity].
  cbv [generateSubscribeLink_any bind ret toISOString throw link_with].
  destruct (generateInvitationClaim_any partner invitationFields
              invitationSecret learnerKey salt (slice 0 19 (iso_string t)) w)
    as [[c | e] w']; reflexivity.
Qed.

Lemma generateSubscribeLink_any_defaults aeviumBaseUrl partner
    (invitationFields : JSON_value) invitationSecret learnerKey (w : World) :
  generateSubscribeLink_any aeviumBaseUrl partner invitationFields
    invitationSecret learnerKey None None w
  = generateSubscribeLink_any aeviumBaseUrl partner invitationFields
      invitationSecret learnerKey
      (Some (Buffer_toString_hex (World_bytes 8 w)))
      (Some (Date_of_number
               (World_now (World_draw 8 w) + CLAIM_DURATION_SECONDS * 1000)))
      (World_tick (World_draw 8 w)).
Proof. reflexivity. Qed.

(** On fields that stand for a record the function runs as on the record. *)
Lemma generateSubscribeLink_any_record aeviumBaseUrl partner
    (parsed : JSON_value) (invitationFields : Record_string) invitationSecret
    learnerKey (w : World) :
  record_of parsed = Some invitationFields ->
  generateSubscribeLink_any aeviumBaseUrl partner parsed invitationSecret
    learnerKey None None w
  = generateSubscribeLink aeviumBaseUrl partner invitationFields
      invitationSecret learnerKey None None w.
Proof.
  intros Hrecord.
  rewrite generateSubscribeLink_any_defaults, generateSubscribeLink_any_explicit.
  rewrite generateSubscribeLink_default_salt, generateSubscribeLink_default_date,
    generateSubscribeLink_explicit.
  destruct (Date_of_number _) as [t |]; [| reflexivity].
  now rewrite generateInvitationClaim_any_run, generateInvitationClaim_run,
    Hrecord.
Qed.

(** On fields that stand for no record the function throws, and signs
    nothing. *)
Lemma generateSubscribeLink_any_no_record aeviumBaseUrl partner
    (parsed : JSON_value) invitationSecret learnerKey (w : World) :
  record_of parsed = None ->
  exists e w',
    generateSubscribeLink_any aeviumBaseUrl partner parsed invitationSecret
      learnerKey None None w = (Throw e, w')
    /\ digests w' = digests w.
Proof.
  intros Hrecord.
  rewrite generateSubscribeLink_any_defaults, generateSubscribeLink_any_explicit.
  destruct (Date_of_number _) as [t |]; [| eexists; eexists; split; reflexivity].
  rewrite generateInvitationClaim_any_run, Hrecord.
  destruct (Date_lt _ _); cbn [link_with]; eexists; eexists; split; reflexivity.
Qed.

Lemma generateSubscribeLink_defaults_normal aeviumBaseUrl partner
    invitationFields invitationSecret learnerKey (w w' : World) (link : string) :
  generateSubscribeLink aeviumBaseUrl partner invitationFields invitationSecret
    learnerKey None None w = (Normal link, w') ->
  w' = World_digest (World_tick (World_tick (World_draw 8 w)))
  /\ exists d,
       link
       = aeviumBaseUrl ++ "/invitation-claim/?"
           ++ signed_claim invitationSecret
                ("partner=" ++ partner ++ "&learner_key=" ++ learnerKey
                   ++ "&salt=" ++ Buffer_toString_hex (World_bytes 8 w)
                   ++ "&date_expires=" ++ d ++ field_params invitationFields).
Proof.
  intros H. split.
  - rewrite generateSubscribeLink_default_salt in H.
    rewrite generateSubscribeLink_default_date in H.
    rewrite generateSubscribeLink_explicit in H.
    destruct (Date_of_number _) as [t |]; [| discriminate].
    rewrite generateInvitationClaim_run in H.
    destruct (Date_lt _ _); [discriminate |].
    cbn [link_with] in H. now inversion H.
  - rewrite generateSubscribeLink_default_salt in H.
    eapply generateSubscribeLink_normal_shape. exact H.
Qed.

(** X8: when the script ends normally it has written two things, the
    parameters on the error stream and then one link on the standard
    output.  The link is signed for a partner and with a secret that are
    never empty (an unset or empty variable gives way to the default), for
    a learner key of 32 hexadecimal digits made of 16 random bytes and a
    salt made of the 8 bytes that follow them; its extra parameters are the
    properties of the value written with the parameters, each with its
    text. *)
Theorem subscribe_link_main_prints_one_link :
  forall (pr pr' : Process),
    subscribe_link_main pr = (None, pr') ->
    let aeviumBaseUrl := or_default (env pr "AEVIUM_BASE_URL") "" in
    let partner := or_default (env pr "AEVIUM_PARTNER") "example-partner" in
    let invitationSecret :=
      or_default (env pr "AEVIUM_INVITATION_SECRET") "secret" in
    let learnerKey := Buffer_toString_hex (World_bytes 16 (world pr)) in
    let salt :=
      Buffer_toString_hex (World_bytes 8 (World_draw 16 (world pr))) in
    partner <> "" /\ invitationSecret <> ""
    /\ String.length learnerKey = 32%nat /\ String.length salt = 16%nat
    /\ entropy_drawn (world pr') = (entropy_drawn (world pr) + 24)%nat
    /\ digests (world pr') = S (digests (world pr))
    /\ exists (parsed : JSON_value) (invitationFields : Record_string) d,
         record_of parsed = Some invitationFields
         /\ output pr'
            = app (output pr)
                  [ Stderr_parameters
                      "Generating subscribe link with the following parameters: "
                      aeviumBaseUrl partner parsed invitationSecret learnerKey;
                    Stdout_line
                      (aeviumBaseUrl ++ "/invitation-claim/?"
                         ++ signed_claim invitationSecret
                              ("partner=" ++ partner ++ "&learner_key="
                                 ++ learnerKey ++ "&salt=" ++ salt
                                 ++ "&date_expires=" ++ d
                                 ++ field_params invitationFields)) ].
Proof.
  intros pr pr' H aeviumBaseUrl partner invitationSecret learnerKey salt.
  split; [apply or_default_not_empty; discriminate |].
  split; [apply or_default_not_empty; discriminate |].
  split; [reflexivity |]. split; [reflexivity |].
  unfold subscribe_link_main in H.
  fold aeviumBaseUrl partner invitationSecret in H.
  destruct (if truthy (env pr "AEVIUM_INVITATION_FIELDS") then _ else _)
    as [parsed |]; [| discriminate].
  cbv [randomBytes] in H. fold learnerKey in H.
  destruct (record_of parsed) as [invitationFields |] eqn:Hrecord.
  - rewrite (generateSubscribeLink_any_record _ _ _ _ _ _ _ Hrecord) in H.
    destruct (generateSubscribeLink aeviumBaseUrl partner invitationFields
                invitationSecret learnerKey None None (World_draw 16 (world pr)))
      as [[link | e] w2] eqn:Hlink; [| discriminate].
    apply generateSubscribeLink_defaults_normal in Hlink.
    destruct Hlink as [Hw [d Hd]].
    inversion H; subst pr'. cbn [world output].
    split; [subst w2; cbn; lia |].
    split; [subst w2; reflexivity |].
    exists parsed, invitationFields, d. split; [exact Hrecord |].
    rewrite Hd. rewrite <- app_assoc. reflexivity.
  - destruct (generateSubscribeLink_any_no_record aeviumBaseUrl partner parsed
                invitationSecret learnerKey (World_draw 16 (world pr)) Hrecord)
      as (e & w' & Hthrow & _).
    rewrite Hthrow in H. discriminate.
Qed.

Lemma subscribe_link_main_prints_one_link_witness :
  exists parsed invitationFields d,
    record_of parsed = Some invitationFields
    /\ output (snd (subscribe_link_main (bare_process 1735689600123)))
       = app (output (bare_process 1735689600123))
          [ Stderr_parameters
              "Generating subscribe link with the following parameters: "
              (or_default (env (bare_process 1735689600123) "AEVIUM_BASE_URL") "")
              (or_default (env (bare_process 1735689600123) "AEVIUM_PARTNER")
                 "example-partner")
              parsed
              (or_default
                 (env (bare_process 1735689600123) "AEVIUM_INVITATION_SECRET")
                 "secret")
              (Buffer_toString_hex
                 (World_bytes 16 (world (bare_process 1735689600123))));
            Stdout_line
              (or_default (env (bare_process 1735689600123) "AEVIUM_BASE_URL") ""
                 ++ "/invitation-claim/?"
                 ++ signed_claim
                      (or_default
                         (env (bare_process 1735689600123)
                            "AEVIUM_INVITATION_SECRET")
                         "secret")
                      ("partner="
                         ++ or_default
                              (env (bare_process 1735689600123) "AEVIUM_PARTNER")
                              "example-partner"
                         ++ "&learner_key="
                         ++ Buffer_toString_hex
                              (World_bytes 16
                                 (world (bare_process 1735689600123)))
                         ++ "&salt="
                         ++ Buffer_toString_hex
                              (World_bytes 8
                                 (World_draw 16
                                    (world (bare_process 1735689600123))))
                         ++ "&date_expires=" ++ d
                         ++ field_params invitationFields)) ].
Proof.
  set (pr := bare_process 1735689600123).
  assert (Hrun : subscribe_link_main pr = (None, snd (subscribe_link_main pr))).
  { transitivity (fst (subscribe_link_main pr), snd (subscribe_link_main pr));
      [apply surjective_pairing |].
    apply (f_equal (fun o => (o, snd (subscribe_link_main pr)))).
    vm_compute. reflexivity. }
  destruct (subscribe_link_main_prints_one_link pr _ Hrun)
    as (_ & _ & _ & _ & _ & _ & Hout).
  exact Hout.
Defined.

Example subscribe_link_main_example :
  exists w,
    subscribe_link_main (bare_process 1735689600123)
    = (None,
       mkProcess (fun _ => None) (fun _ => None) w
         [ Stderr_parameters
             "Generating subscribe link with the following parameters: "
             "" "example-partner" (JSON_object [("code", JSON_string "ABC123")])
             "secret" "000102030405060708090a0b0c0d0e0f";
           Stdout_line
             ("/invitation-claim/?"
              ++ signed_claim "secret"
                   "partner=example-partner&learner_key=000102030405060708090a0b0c0d0e0f&salt=1011121314151617&date_expires=2025-01-01T00:15:00&field_code=ABC123") ]).
Proof.
  eexists. unfold subscribe_link_main, bare_process.
  cbn [env JSON_parse world output truthy or_default randomBytes].
  set (r := generateSubscribeLink_any _ _ _ _ _ _ _ _).
  assert (E : r = (fst r, snd r)) by apply surjective_pairing.
  assert (F : fst r
              = Normal
                  ("/invitation-claim/?"
                   ++ signed_claim "secret"
                        "partner=example-partner&learner_key=000102030405060708090a0b0c0d0e0f&salt=1011121314151617&date_expires=2025-01-01T00:15:00&field_code=ABC123"))
    by (vm_compute; reflexivity).
  rewrite E, F. f_equal.
Qed.

(** The claim string of fields that are not an object of strings: the
    elements of an array and the code units of a text go under their
    indices, a number, [null] and a nested value under the text a template
    literal gives them. *)
Example record_of_examples :
  record_of (JSON_array [JSON_number "1"; JSON_null;
                         JSON_array [JSON_string "a"; JSON_null; JSON_boolean true];
                         JSON_object [("k", JSON_number "2")]])
  = Some [("0", "1"); ("1", "null"); ("2", "a,,true"); ("3", "[object Object]")]
  /\ record_of (JSON_string "ab") = Some [("0", "a"); ("1", "b")]
  /\ record_of (JSON_number "5") = Some []
  /\ record_of JSON_null = None
  /\ record_of (JSON_object
                  [("a", JSON_object [("toString", JSON_number "1")])]) = None
  /\ map bytes_of_string
       (map snd
          (match record_of (JSON_string (utf8_encode [0xD83D; 0xDE00])) with
           | Some o => o
           | None => []
           end))
     = [[0xEF; 0xBF; 0xBD]; [0xEF; 0xBF; 0xBD]].
Proof. vm_compute. repeat split. Qed.

(** X9: the script has two kinds of outcome.  Either the text of
    [AEVIUM_INVITATION_FIELDS] is not JSON, and the script ends on the
    SyntaxError having drawn no random byte and written nothing; or the
    parameters, the secret among them, are written to the error stream,
    followed by at most one line of standard output, the link.  The fields
    are the value the variable parses to, whatever its kind, or
    [code = ABC123] when the variable is unset or empty; a value that stands
    for no record ([null], or one with a property no text can be made of)
    gets no link: the script ends on an exception after the parameters were
    written, and nothing is signed. *)
Theorem subscribe_link_main_outcomes :
  forall (pr : Process),
    let r := subscribe_link_main pr in
    (r = (Some Uncaught_SyntaxError, pr)
     /\ exists text,
          env pr "AEVIUM_INVITATION_FIELDS" = Some text /\ text <> ""
          /\ JSON_parse pr text = None)
    \/ (exists invitationFields rest,
           output (snd r)
           = app (output pr)
                 (Stderr_parameters
                    "Generating subscribe link with the following parameters: "
                    (or_default (env pr "AEVIUM_BASE_URL") "")
                    (or_default (env pr "AEVIUM_PARTNER") "example-partner")
                    invitationFields
                    (or_default (env pr "AEVIUM_INVITATION_SECRET") "secret")
                    (Buffer_toString_hex (World_bytes 16 (world pr)))
                  :: rest)
           /\ (fst r = None /\ (exists link, rest = [Stdout_line link])
               \/ (exists e, fst r = Some (Uncaught_exception e)) /\ rest = [])
           /\ (record_of invitationFields = None ->
               (exists e, fst r = Some (Uncaught_exception e))
               /\ digests (world (snd r)) = digests (world pr))
           /\ (truthy (env pr "AEVIUM_INVITATION_FIELDS") = true ->
               exists text,
                 env pr "AEVIUM_INVITATION_FIELDS" = Some text
                 /\ JSON_parse pr text = Some invitationFields)
           /\ (truthy (env pr "AEVIUM_INVITATION_FIELDS") = false ->
               invitationFields = JSON_object [("code", JSON_string "ABC123")])).
Proof.
  intros pr r. subst r.
  assert (Hwritten : forall parsed,
    let r :=
      match generateSubscribeLink_any (or_default (env pr "AEVIUM_BASE_URL") "")
              (or_default (env pr "AEVIUM_PARTNER") "example-partner") parsed
              (or_default (env pr "AEVIUM_INVITATION_SECRET") "secret")
              (Buffer_toString_hex (World_bytes 16 (world pr))) None None
              (World_draw 16 (world pr)) with
      | (Throw e, w2) =>
          (Some (Uncaught_exception e),
           mkProcess (env pr) (JSON_parse pr) w2
             (app (output pr)
                [Stderr_parameters
                   "Generating subscribe link with the following parameters: "
                   (or_default (env pr "AEVIUM_BASE_URL") "")
                   (or_default (env pr "AEVIUM_PARTNER") "example-partner")
                   parsed
                   (or_default (env pr "AEVIUM_INVITATION_SECRET") "secret")
                   (Buffer_toString_hex (World_bytes 16 (world pr)))]))
      | (Normal link, w2) =>
          (None,
           mkProcess (env pr) (JSON_parse pr) w2
             (app
                (app (output pr)
                   [Stderr_parameters
                      "Generating subscribe link with the following parameters: "
                      (or_default (env pr "AEVIUM_BASE_URL") "")
                      (or_default (env pr "AEVIUM_PARTNER") "example-partner")
                      parsed
                      (or_default (env pr "AEVIUM_INVITATION_SECRET") "secret")
                      (Buffer_toString_hex (World_bytes 16 (world pr)))])
                [Stdout_line link]))
      end in
    exists rest,
      output (snd r)
      = app (output pr)
            (Stderr_parameters
               "Generating subscribe link with the following parameters: "
               (or_default (env pr "AEVIUM_BASE_URL") "")
               (or_default (env pr "AEVIUM_PARTNER") "example-partner")
               parsed
               (or_default (env pr "AEVIUM_INVITATION_SECRET") "secret")
               (Buffer_toString_hex (World_bytes 16 (world pr)))
             :: rest)
      /\ (fst r = None /\ (exists link, rest = [Stdout_line link])
          \/ (exists e, fst r = Some (Uncaught_exception e)) /\ rest = [])
      /\ (record_of parsed = None ->
          (exists e, fst r = Some (Uncaught_exception e))
          /\ digests (world (snd r)) = digests (world pr))).
  { intros parsed r. subst r.
    destruct (record_of parsed) as [o |] eqn:Hrecord.
    - destruct (generateSubscribeLink_any _ _ _ _ _ None None _)
        as [[link | e] w2]; cbn [fst snd output]; eexists;
        (split; [rewrite <- ?app_assoc; reflexivity |]);
        (split; [| discriminate]).
      + left. split; [reflexivity | eexists; reflexivity].
      + right. split; [eexists; reflexivity | reflexivity].
    - destruct (generateSubscribeLink_any_no_record
                  (or_default (env pr "AEVIUM_BASE_URL") "")
                  (or_default (env pr "AEVIUM_PARTNER") "example-partner") parsed
                  (or_default (env pr "AEVIUM_INVITATION_SECRET") "secret")
                  (Buffer_toString_hex (World_bytes 16 (world pr)))
                  (World_draw 16 (world pr)) Hrecord)
        as (e & w' & Hthrow & Hdigests).
      rewrite Hthrow. cbn [fst snd output world]. exists [].
      split; [reflexivity |].
      split; [right; split; [eexists; reflexivity | reflexivity] |].
      intros _. split; [eexists; reflexivity | exact Hdigests]. }
  unfold subscribe_link_main. cbv [randomBytes].
  destruct (env pr "AEVIUM_INVITATION_FIELDS") as [text |] eqn:Eenv.
  - cbn [truthy]. destruct (String.eqb_spec text "") as [-> | Hne]; cbn [negb].
    + right. destruct (Hwritten (JSON_object [("code", JSON_string "ABC123")]))
        as (rest & Hout & Hend & Hnone).
      eexists; exists rest.
      split; [exact Hout |]. split; [exact Hend |]. split; [exact Hnone |].
      split; [discriminate | reflexivity].
    + destruct (JSON_parse pr text) as [parsed |] eqn:Eparse.
      * right. destruct (Hwritten parsed) as (rest & Hout & Hend & Hnone).
        exists parsed, rest.
        split; [exact Hout |]. split; [exact Hend |]. split; [exact Hnone |].
        split; [| discriminate].
        intros _. exists text. split; [reflexivity | assumption].
      * left. split; [reflexivity |]. exists text. repeat split; assumption.
  - cbn [truthy]. right.
    destruct (Hwritten (JSON_object [("code", JSON_string "ABC123")]))
      as (rest & Hout & Hend & Hnone).
    eexists; exists rest.
    split; [exact Hout |]. split; [exact Hend |]. split; [exact Hnone |].
    split; [discriminate | reflexivity].
Qed.

(** X19: fields that parse to [null], or to a value one of whose
    properties has no text, end the script on a TypeError once the default
    expiry has passed its test: the parameters were written, the learner key
    and the salt drawn and the clock read twice, but nothing is signed and
    no link is printed. *)
Theorem subscribe_link_main_type_error :
  forall (pr : Process) (text : string) (parsed : JSON_value),
    env pr "AEVIUM_INVITATION_FIELDS" = Some text -> text <> "" ->
    JSON_parse pr text = Some parsed ->
    record_of parsed = None ->
    let expires := World_now (world pr) + CLAIM_DURATION_SECONDS * 1000 in
    -62167219200000 <= expires < 253402300800000 ->
    Date_lt (Date_parse (world pr) (iso_seconds expires))
            (Some (clock (world pr) (S (clock_reads (world pr))))) = false ->
    subscribe_link_main pr
    = (Some (Uncaught_exception (TypeError (fields_type_error parsed))),
       mkProcess (env pr) (JSON_parse pr)
         (World_tick (World_tick (World_draw 8 (World_draw 16 (world pr)))))
         (app (output pr)
            [Stderr_parameters
               "Generating subscribe link with the following parameters: "
               (or_default (env pr "AEVIUM_BASE_URL") "")
               (or_default (env pr "AEVIUM_PARTNER") "example-partner")
               parsed
               (or_default (env pr "AEVIUM_INVITATION_SECRET") "secret")
               (Buffer_toString_hex (World_bytes 16 (world pr)))])).
Proof.
  intros pr text parsed Henv Htext Hparse Hrecord expires Hrange Hcheck.
  unfold subscribe_link_main. rewrite Henv. cbn [truthy].
  destruct (String.eqb_spec text "") as [-> | _]; [contradiction |].
  cbn [negb]. rewrite Hparse. cbv [randomBytes].
  rewrite generateSubscribeLink_any_defaults, generateSubscribeLink_any_explicit.
  change (World_now (World_draw 8 (World_draw 16 (world pr))))
    with (World_now (world pr)).
  fold expires. unfold Date_of_number, TimeClip.
  destruct (Z.leb_spec (Z.abs expires) 8640000000000000) as [_ | Habs]; [| lia].
  rewrite (iso_string_slice _ (year_has_four_digits _ Hrange)).
  rewrite generateInvitationClaim_any_run, Hrecord.
  change (Date_parse (World_tick (World_draw 8 (World_draw 16 (world pr)))))
    with (Date_parse (world pr)).
  change (World_now (World_tick (World_draw 8 (World_draw 16 (world pr)))))
    with (clock (world pr) (S (clock_reads (world pr)))).
  rewrite Hcheck. reflexivity.
Qed.

Lemma subscribe_link_main_type_error_witness :
  fst (subscribe_link_main (fields_process "null" JSON_null 1735689600123))
  = Some (Uncaught_exception
            (TypeError "Cannot convert undefined or null to object"))
  /\ output (snd (subscribe_link_main
                    (fields_process "null" JSON_null 1735689600123)))
     = [Stderr_parameters
          "Generating subscribe link with the following parameters: "
          "" "example-partner" JSON_null "secret"
          "000102030405060708090a0b0c0d0e0f"].
Proof.
  set (pr := fields_process "null" JSON_null 1735689600123).
  assert (Hrange : -62167219200000
                   <= World_now (world pr) + CLAIM_DURATION_SECONDS * 1000
                   < 253402300800000)
    by (vm_compute; split; [discriminate | reflexivity]).
  assert (Hcheck : Date_lt
                     (Date_parse (world pr)
                        (iso_seconds
                           (World_now (world pr) + CLAIM_DURATION_SECONDS * 1000)))
                     (Some (clock (world pr) (S (clock_reads (world pr)))))
                   = false) by (vm_compute; reflexivity).
  pose proof (subscribe_link_main_type_error pr "null" JSON_null eq_refl
                ltac:(discriminate) eq_refl eq_refl Hrange Hcheck) as H.
  rewrite H. split; reflexivity.
Defined.

(** ** examples/benefit-grants.ts: the request body *)

Lemma JSON_string_body_escape (s : string) :
  JSON_string_body (JSON_escape_all s ++ String "034" "") = Some s.
Proof.
  induction s as [| c s IH]; [reflexivity |].
  cbn [JSON_escape_all]. rewrite append_assoc.
  destruct c as [[] [] [] [] [] [] [] []];
    cbn -[JSON_escape_all]; rewrite IH; reflexivity.
Qed.

(** X10: the text [JSON.stringify] writes for a string reads back as the
    string: whatever quotes, backslashes or control characters a learner
    key, a program or a level holds, they stay inside their own JSON
    string, and two different values never give the same text. *)
Theorem JSON_quote_round_trip :
  forall s1 s2 : string,
    JSON_unquote (JSON_quote s1) = Some s1
    /\ (JSON_quote s1 = JSON_quote s2 -> s1 = s2).
Proof.
  intros s1 s2.
  assert (H : forall s, JSON_unquote (JSON_quote s) = Some s).
  { intros s. unfold JSON_unquote, JSON_quote.
    rewrite Ascii.eqb_refl. apply JSON_string_body_escape. }
  split; [apply H |].
  intros E. pose proof (H s1) as H1. rewrite E, H in H1. now inversion H1.
Qed.

Example JSON_stringify_example :
  JSON_quote (String "a" (String "034" (String "092" (String "010" (String "001" "z")))))
  = String "034" ("a" ++ String "092" (String "034" ("\\\n\u0001z" ++ String "034" "")))
  /\ JSON_stringify [("k", "v"); ("n", "")]
     = "{" ++ String "034" ("k" ++ String "034" (":" ++ String "034" ("v"
           ++ String "034" ("," ++ String "034" ("n" ++ String "034" (":"
           ++ String "034" (String "034" "}"))))))).
Proof. vm_compute. split; reflexivity. Qed.

(** ** examples/benefit-grants.ts: the two calls *)

Section GrantCalls.

Variable Json : Type.

Lemma Response_ok_range (r : Response Json) :
  Response_ok r = true <-> 200 <= status r <= 299.
Proof.
  unfold Response_ok. rewrite andb_true_iff, !Z.leb_le. tauto.
Qed.

Lemma grant_of_response_resolves (r : Response Json) (grant : Json) :
  grant_of_response r = inr grant
  <-> 200 <= status r <= 299 /\ json r = Some grant.
Proof.
  rewrite <- Response_ok_range. unfold grant_of_response.
  destruct (Response_ok r), (json r) as [j |]; cbn [negb]; split;
    try discriminate; try (intros [? ?]; discriminate).
  - intros E. inversion E. auto.
  - intros [_ E]. inversion E. reflexivity.
Qed.

Lemma postBenefitGrant_run learnerKey (periodStart periodEnd : Z)
    program level (c : Client Json) :
  postBenefitGrant learnerKey (Some periodStart) (Some periodEnd) program level c
  = let request := post_request (client_env c) learnerKey periodStart periodEnd
                     program level in
    let c' := mkClient (client_env c) (client_world c) (respond c)
                       (app (sent c) [request]) in
    match respond c (List.length (sent c)) request with
    | Some response => (grant_of_response response, c')
    | None => (inl Rejected_fetch, c')
    end.
Proof.
  unfold postBenefitGrant, fetch, Date_toISOString, post_request, grant_headers.
  cbv zeta.
  destruct (respond c (List.length (sent c)) _); reflexivity.
Qed.

Lemma getBenefitGrant_run uid (c : Client Json) :
  getBenefitGrant uid c
  = let request := get_request (client_env c) uid in
    let c' := mkClient (client_env c) (client_world c) (respond c)
                       (app (sent c) [request]) in
    match respond c (List.length (sent c)) request with
    | Some response => (grant_of_response response, c')
    | None => (inl Rejected_fetch, c')
    end.
Proof.
  unfold getBenefitGrant, fetch, get_request, grant_headers. cbv zeta.
  destruct (respond c (List.length (sent c)) _); reflexivity.
Qed.

(** X11: [postBenefitGrant] sends one request or none.  With an invalid
    date it rejects with a RangeError before anything is sent.  With two
    valid dates it sends exactly one request, whatever the answer: a POST
    to [<API_ROOT>/benefit-grants] carrying the bearer key, whose body
    holds the five members in their order, the two dates in the full text
    of [toISOString], milliseconds and [Z] included. *)
Theorem postBenefitGrant_sends_one_request_or_none :
  forall learnerKey (datePeriodStart datePeriodEnd : Date) program level
         (c : Client Json),
    let r := postBenefitGrant learnerKey datePeriodStart datePeriodEnd
               program level c in
    ((datePeriodStart = None \/ datePeriodEnd = None)
     /\ r = (inl (Rejected_exception (RangeError "Invalid time value")), c))
    \/ (exists periodStart periodEnd,
           datePeriodStart = Some periodStart /\ datePeriodEnd = Some periodEnd
           /\ sent (snd r)
              = app (sent c)
                    [post_request (client_env c) learnerKey periodStart
                       periodEnd program level]
           /\ client_env (snd r) = client_env c
           /\ client_world (snd r) = client_world c).
Proof.
  intros learnerKey datePeriodStart datePeriodEnd program level c r. subst r.
  destruct datePeriodStart as [periodStart |]; [| left; split; auto].
  destruct datePeriodEnd as [periodEnd |]; [| left; split; auto].
  right. exists periodStart, periodEnd.
  rewrite postBenefitGrant_run. cbv zeta.
  split; [reflexivity |]. split; [reflexivity |].
  split; [| split]; destruct (respond c _ _); reflexivity.
Qed.

(** X12: a call resolves with a grant only on an answer whose status is
    in the range 200-299 and whose body is JSON, and it resolves with that
    body; this holds for [postBenefitGrant] and for [getBenefitGrant]. *)
Theorem grant_calls_resolve_only_on_success :
  forall learnerKey (periodStart periodEnd : Z) program level uid
         (c : Client Json) (grant : Json),
    (fst (postBenefitGrant learnerKey (Some periodStart) (Some periodEnd)
            program level c) = inr grant
     <-> exists response,
           respond c (List.length (sent c))
             (post_request (client_env c) learnerKey periodStart periodEnd
                program level) = Some response
           /\ 200 <= status response <= 299 /\ json response = Some grant)
    /\ (fst (getBenefitGrant uid c) = inr grant
        <-> exists response,
              respond c (List.length (sent c)) (get_request (client_env c) uid)
              = Some response
              /\ 200 <= status response <= 299 /\ json response = Some grant).
Proof.
  intros learnerKey periodStart periodEnd program level uid c grant.
  rewrite postBenefitGrant_run, getBenefitGrant_run. cbv zeta.
  split.
  - destruct (respond c _ (post_request _ _ _ _ _ _)) as [response |];
      cbn [fst]; split.
    + intros E. exists response. split; [reflexivity |].
      now apply grant_of_response_resolves.
    + intros [r' [E H]]. inversion E; subst r'.
      now apply grant_of_response_resolves.
    + discriminate.
    + intros [r' [E _]]. discriminate.
  - destruct (respond c _ (get_request _ _)) as [response |]; cbn [fst]; split.
    + intros E. exists response. split; [reflexivity |].
      now apply grant_of_response_resolves.
    + intros [r' [E H]]. inversion E; subst r'.
      now apply grant_of_response_resolves.
    + discriminate.
    + intros [r' [E _]]. discriminate.
Qed.

(** X13: on an answer whose status is outside 200-299, a call rejects
    with the status and the body when the body is JSON; when it is not,
    the call rejects with the SyntaxError of reading it, and the status is
    lost to the caller. *)
Theorem failed_grant_call_rejection :
  forall learnerKey (periodStart periodEnd : Z) program level
         (c : Client Json) (response : Response Json),
    respond c (List.length (sent c))
      (post_request (client_env c) learnerKey periodStart periodEnd program level)
    = Some response ->
    ~ 200 <= status response <= 299 ->
    fst (postBenefitGrant learnerKey (Some periodStart) (Some periodEnd)
           program level c)
    = inl (match json response with
           | Some error => Rejected_status (status response) error
           | None => Rejected_SyntaxError
           end).
Proof.
  intros learnerKey periodStart periodEnd program level c response Hr Hstatus.
  rewrite postBenefitGrant_run. cbv zeta. rewrite Hr. cbn [fst].
  unfold grant_of_response.
  destruct (Response_ok response) eqn:Hok.
  - apply Response_ok_range in Hok. contradiction.
  - cbn [negb]. destruct (json response); reflexivity.
Qed.

(** ** examples/benefit-grants.ts: the script entry *)

Variable uid_text : Json -> option string.

(** X14: the script ends in one of three ways.  With a learner key, a
    program or a level missing or empty it writes the usage line and exits
    with code 1, having sent nothing.  Otherwise it never exits with a
    code: either the grant is not created, which it reports, having sent
    one request at most; or it reports the created grant and sends a
    second request, for the grant whose identifier it just reported, and
    reports how that went.  No rejection is left unhandled. *)
Theorem benefit_grants_main_outcomes :
  forall (pr : GrantProcess Json),
    let r := benefit_grants_main uid_text pr in
    let env := client_env (client pr) in
    let learnerKey := argv pr 2%nat in
    let program :=
      or_else (argv pr 3%nat) (env "AEVIUM_DEFAULT_BENEFIT_PROGRAM") in
    let level :=
      or_else (argv pr 4%nat) (env "AEVIUM_DEFAULT_BENEFIT_PROGRAM_LEVEL") in
    (truthy learnerKey && truthy program && truthy level = false
     /\ r = (Some 1,
             mkGrantProcess (argv pr) (client pr)
               (app (written pr) [Error_line usage_line])))
    \/ (truthy learnerKey && truthy program && truthy level = true
        /\ fst r = None
        /\ ((exists caught,
                written (snd r)
                = app (written pr)
                      [Error_caught "Failed to create grant:" caught]
                /\ (List.length (sent (client (snd r)))
                    <= List.length (sent (client pr)) + 1)%nat)
            \/ (exists uid last request,
                   written (snd r)
                   = app (written pr)
                         [ Log_line ("Created grant " ++ uid);
                           Log_line (String "010" "Fetching grant...");
                           last ]
                   /\ ((exists grant,
                           last = Log_grant "Confirmed existence of grant:" grant)
                       \/ (exists rejection,
                              last = Error_caught "Failed to fetch grant:"
                                       (Caught_rejection rejection)))
                   /\ sent (client (snd r))
                      = app (sent (client pr)) [request; get_request env uid]))).
Proof.
  intros pr r env learnerKey program level. subst r.
  unfold benefit_grants_main. fold env. fold learnerKey program level.
  destruct learnerKey as [lk |], program as [pg |], level as [lv |];
    try (left; split;
         [cbn [truthy andb]; rewrite ?andb_false_r; reflexivity | reflexivity]).
  destruct (truthy (Some lk) && truthy (Some pg) && truthy (Some lv)) eqn:Hargs;
    [| left; split; reflexivity].
  right. split; [reflexivity |].
  set (w := client_world (client pr)).
  destruct (Date_of_number (World_now (World_tick w) + thirty_days)) as [e |].
  - rewrite postBenefitGrant_run. cbv zeta. cbn [client_env sent respond].
    fold env.
    destruct (respond (client pr) _ (post_request _ _ _ _ _ _)) as [response |].
    + destruct (grant_of_response response) as [rejection | grant].
      * split; [reflexivity |]. left. eexists. split; [reflexivity |].
        cbn [snd client sent]. rewrite length_app. cbn [List.length]. lia.
      * destruct (uid_text grant) as [uid |].
        -- rewrite getBenefitGrant_run. cbv zeta. cbn [client_env sent respond].
           fold env.
           destruct (respond (client pr) _ (get_request _ _)) as [response2 |];
             [destruct (grant_of_response response2) as [rejection | fetched] |];
             (split; [reflexivity |]); right;
             cbn [snd client sent written];
             eexists; eexists; eexists;
             (split; [rewrite <- app_assoc; reflexivity |]);
             (split; [| rewrite <- app_assoc; reflexivity]).
           ++ right. eexists. reflexivity.
           ++ left. eexists. reflexivity.
           ++ right. eexists. reflexivity.
        -- split; [reflexivity |]. left. eexists. split; [reflexivity |].
           cbn [snd client sent]. rewrite length_app. cbn [List.length]. lia.
    + split; [reflexivity |]. left. eexists. split; [reflexivity |].
      cbn [snd client sent]. rewrite length_app. cbn [List.length]. lia.
  - cbv [postBenefitGrant Date_toISOString].
    split; [reflexivity |]. left. eexists. split; [reflexivity |].
    cbn [snd client sent]. lia.
Qed.

Lemma truthy_Some (s : string) : s <> "" -> truthy (Some s) = true.
Proof.
  intros H. cbn [truthy]. destruct (String.eqb_spec s ""); [contradiction |].
  reflexivity.
Qed.

(** X15: with its three arguments and an answer in the range 200-299
    carrying a grant whose identifier can be read, the script asks for a
    grant over a period that starts at the first reading of the clock and
    ends thirty days after the second, then fetches the grant under the
    identifier it was given: two requests, the creation and then the
    fetch, and three things written, the last of which tells how the fetch
    went. *)
Theorem benefit_grants_main_creates_then_fetches :
  forall (pr : GrantProcess Json) (learnerKey program level : string)
         (created : Response Json) (grant : Json) (uid : string),
    let c := client pr in
    let env := client_env c in
    let w := client_world c in
    let periodStart := World_now w in
    let periodEnd := clock w (S (clock_reads w)) + thirty_days in
    let creation :=
      post_request env learnerKey periodStart periodEnd program level in
    argv pr 2%nat = Some learnerKey -> learnerKey <> "" ->
    or_else (argv pr 3%nat) (env "AEVIUM_DEFAULT_BENEFIT_PROGRAM") = Some program ->
    program <> "" ->
    or_else (argv pr 4%nat) (env "AEVIUM_DEFAULT_BENEFIT_PROGRAM_LEVEL")
    = Some level ->
    level <> "" ->
    Z.abs periodEnd <= 8640000000000000 ->
    respond c (List.length (sent c)) creation = Some created ->
    200 <= status created <= 299 ->
    json created = Some grant ->
    uid_text grant = Some uid ->
    let r := benefit_grants_main uid_text pr in
    fst r = None
    /\ thirty_days = 2592000000
    /\ sent (client (snd r)) = app (sent c) [creation; get_request env uid]
    /\ clock_reads (client_world (client (snd r))) = S (S (clock_reads w))
    /\ written (snd r)
       = app (written pr)
             [ Log_line ("Created grant " ++ uid);
               Log_line (String "010" "Fetching grant...");
               match respond c (S (List.length (sent c))) (get_request env uid) with
               | Some fetched =>
                   match grant_of_response fetched with
                   | inr g => Log_grant "Confirmed existence of grant:" g
                   | inl rejection =>
                       Error_caught "Failed to fetch grant:"
                         (Caught_rejection rejection)
                   end
               | None =>
                   Error_caught "Failed to fetch grant:"
                     (Caught_rejection Rejected_fetch)
               end ].
Proof.
  intros pr learnerKey program level created grant uid c env w periodStart
         periodEnd creation Hlk Hlk' Hpg Hpg' Hlv Hlv' Hend Hcreated Hstatus
         Hjson Huid r.
  subst r. unfold benefit_grants_main.
  fold c. fold env. rewrite Hlk, Hpg, Hlv.
  rewrite !truthy_Some by assumption. cbn [andb]. fold w.
  change (World_now (World_tick w)) with (clock w (S (clock_reads w))).
  fold periodEnd. unfold Date_of_number, TimeClip.
  destruct (Z.leb_spec (Z.abs periodEnd) 8640000000000000) as [_ | Hbad];
    [| lia].
  rewrite postBenefitGrant_run. cbv zeta. cbn [client_env sent respond].
  fold periodStart. fold creation. rewrite Hcreated.
  assert (Hgrant : grant_of_response created = inr grant)
    by (apply grant_of_response_resolves; auto).
  rewrite Hgrant, Huid.
  rewrite getBenefitGrant_run. cbv zeta. cbn [client_env sent respond].
  rewrite length_app. cbn [List.length].
  replace (List.length (sent c) + 1)%nat with (S (List.length (sent c))) by lia.
  destruct (respond c (S (List.length (sent c))) (get_request env uid))
    as [fetched |];
    [destruct (grant_of_response fetched) as [rejection | g] |];
    cbn [fst snd client sent written client_world];
    (split; [reflexivity |]); (split; [reflexivity |]);
    (split; [rewrite <- app_assoc; reflexivity |]);
    (split; [reflexivity |]); rewrite <- app_assoc; reflexivity.
Qed.

End GrantCalls.

(** ** Writing a date and reading it back *)

Lemma civil_round_trip (days : Z) :
  days_from_civil (fst (fst (civil_from_days days)))
                  (snd (fst (civil_from_days days)))
                  (snd (civil_from_days days)) = days.
Proof.
  unfold civil_from_days, days_from_civil. cbn [fst snd].
  set (z := days + 719468).
  set (era := z / 146097).
  set (doe := z mod 146097).
  assert (Hdm : z = 146097 * era + doe /\ 0 <= doe < 146097).
  { subst era doe. Z.div_mod_to_equations. lia. }
  clearbody era doe.
  set (yoe := (doe - doe / 1460 + doe / 36524 - doe / 146096) / 365).
  assert (Hyoe : 0 <= yoe <= 399
                 /\ 365 * yoe + yoe / 4 - yoe / 100 <= doe
                 /\ doe < 365 * (yoe + 1) + (yoe + 1) / 4 - (yoe + 1) / 100
                          + (if yoe =? 399 then 1 else 0)).
  { subst yoe. destruct (_ =? 399) eqn:E; Z.div_mod_to_equations; lia. }
  clearbody yoe.
  set (doy := doe - (365 * yoe + yoe / 4 - yoe / 100)).
  assert (Hdoy : 0 <= doy <= 365).
  { subst doy. destruct (yoe =? 399) eqn:E;
      [apply Z.eqb_eq in E | apply Z.eqb_neq in E];
      Z.div_mod_to_equations; lia. }
  set (mp := (5 * doy + 2) / 153).
  assert (Hmp : 0 <= mp <= 11) by (subst mp; Z.div_mod_to_equations; lia).
  set (m := if mp <? 10 then mp + 3 else mp - 9).
  assert (Hm : (mp < 10 /\ m = mp + 3 /\ 2 < m)
               \/ (10 <= mp /\ m = mp - 9 /\ m <= 2)).
  { subst m. destruct (Z.ltb_spec mp 10); lia. }
  clearbody m.
  assert (Hy' : (if m <=? 2
                 then yoe + era * 400 + (if m <=? 2 then 1 else 0) - 1
                 else yoe + era * 400 + (if m <=? 2 then 1 else 0))
                = yoe + era * 400).
  { destruct (Z.leb_spec m 2); lia. }
  rewrite Hy'.
  assert (Hmp' : (if 2 <? m then m - 3 else m + 9) = mp).
  { destruct (Z.ltb_spec 2 m); lia. }
  rewrite Hmp'.
  assert (Hera : (yoe + era * 400) / 400 = era
                 /\ (yoe + era * 400) mod 400 = yoe).
  { Z.div_mod_to_equations. lia. }
  destruct Hera as [He1 He2]. rewrite He1, He2.
  subst doy z. lia.
Qed.

Lemma civil_day_valid (days : Z) :
  1 <= snd (civil_from_days days)
    <= days_in_month (fst (fst (civil_from_days days)))
                     (snd (fst (civil_from_days days))).
Proof.
  unfold civil_from_days. cbn [fst snd].
  set (z := days + 719468).
  set (era := z / 146097).
  set (doe := z mod 146097).
  assert (Hdm : 0 <= doe < 146097) by (subst doe; apply Z.mod_pos_bound; lia).
  clearbody era doe.
  set (yoe := (doe - doe / 1460 + doe / 36524 - doe / 146096) / 365).
  assert (Hyoe : 0 <= yoe <= 399
                 /\ 365 * yoe + yoe / 4 - yoe / 100 <= doe
                 /\ doe < 365 * (yoe + 1) + (yoe + 1) / 4 - (yoe + 1) / 100
                          + (if yoe =? 399 then 1 else 0)).
  { subst yoe. destruct (_ =? 399) eqn:E; Z.div_mod_to_equations; lia. }
  clearbody yoe.
  set (doy := doe - (365 * yoe + yoe / 4 - yoe / 100)).
  assert (Hdoy : 0 <= doy <= 365
                 /\ (doy = 365 ->
                     (yoe + 1) mod 400 = 0
                     \/ ((yoe + 1) mod 4 = 0 /\ (yoe + 1) mod 100 <> 0))).
  { subst doy. destruct (yoe =? 399) eqn:E;
      [apply Z.eqb_eq in E | apply Z.eqb_neq in E];
      Z.div_mod_to_equations; lia. }
  clearbody doy. clear Hyoe Hdm.
  set (mp := (5 * doy + 2) / 153).
  assert (Hmp : 0 <= mp <= 11 /\ 153 * mp <= 5 * doy + 2 < 153 * (mp + 1))
    by (subst mp; Z.div_mod_to_equations; lia).
  clearbody mp.
  set (m := if mp <? 10 then mp + 3 else mp - 9).
  assert (Hm : (mp < 10 /\ m = mp + 3) \/ (10 <= mp /\ m = mp - 9)).
  { subst m. destruct (Z.ltb_spec mp 10); lia. }
  clearbody m.
  set (y := yoe + era * 400 + (if m <=? 2 then 1 else 0)).
  assert (Hy : m <= 2 -> y = yoe + 1 + era * 400).
  { subst y. destruct (Z.leb_spec m 2); lia. }
  clearbody y.
  unfold days_in_month, is_leap.
  destruct Hdoy as [Hd Hleap].
  destruct (Z.eqb_spec m 2) as [E2 | E2].
  - assert (Hmp11 : mp = 11) by lia. subst mp. specialize (Hy ltac:(lia)).
    assert (H4 : y mod 4 = (yoe + 1) mod 4)
      by (subst y; Z.div_mod_to_equations; lia).
    assert (H100 : y mod 100 = (yoe + 1) mod 100)
      by (subst y; Z.div_mod_to_equations; lia).
    assert (H400 : y mod 400 = (yoe + 1) mod 400)
      by (subst y; Z.div_mod_to_equations; lia).
    rewrite H4, H100, H400. clear H4 H100 H400 Hy.
    change ((153 * 11 + 2) / 5) with 337.
    destruct (Z.eqb_spec ((yoe + 1) mod 4) 0);
      destruct (Z.eqb_spec ((yoe + 1) mod 100) 0);
      destruct (Z.eqb_spec ((yoe + 1) mod 400) 0); cbn [negb andb orb];
      try lia.
    all: Z.div_mod_to_equations; lia.
  - clear Hleap Hy.
    destruct (Z.eqb_spec m 4); destruct (Z.eqb_spec m 6);
      destruct (Z.eqb_spec m 9); destruct (Z.eqb_spec m 11);
      cbn [orb]; try lia;
      try (assert (Hk : mp = m - 3) by lia; subst m;
           Z.div_mod_to_equations; lia).
    assert (Hcase : mp = 0 \/ mp = 2 \/ mp = 4 \/ mp = 5 \/ mp = 7 \/ mp = 9
                    \/ mp = 10) by lia.
    repeat (destruct Hcase as [-> | Hcase]); try subst mp;
      Z.div_mod_to_equations; lia.
Qed.

Lemma digit_val_char (d : Z) : digit_val (digit_char d) = Some (d mod 10).
Proof.
  unfold digit_val, digit_char.
  pose proof (Z.mod_pos_bound d 10 ltac:(lia)) as Hb.
  rewrite N_ascii_embedding by lia.
  rewrite Z2N.id by lia.
  destruct (Z.leb_spec 48 (48 + d mod 10)); [| lia].
  destruct (Z.leb_spec (48 + d mod 10) 57); [| lia].
  cbn [andb]. f_equal. lia.
Qed.

Lemma number_of_two_digits (x : Z) :
  0 <= x <= 99 ->
  number_of_digits 0 (list_ascii_of_string (digits 2 x)) = Some x.
Proof.
  intros Hx. cbn [digits list_ascii_of_string number_of_digits].
  do 2 (rewrite ?digit_val_char; cbn [number_of_digits]). f_equal.
  change (10 ^ Z.of_nat 1) with 10. change (10 ^ Z.of_nat 0) with 1.
  Z.div_mod_to_equations. lia.
Qed.

Lemma number_of_four_digits (x : Z) :
  0 <= x <= 9999 ->
  number_of_digits 0 (list_ascii_of_string (digits 4 x)) = Some x.
Proof.
  intros Hx. cbn [digits list_ascii_of_string number_of_digits].
  do 4 (rewrite ?digit_val_char; cbn [number_of_digits]). f_equal.
  change (10 ^ Z.of_nat 3) with 1000. change (10 ^ Z.of_nat 2) with 100.
  change (10 ^ Z.of_nat 1) with 10. change (10 ^ Z.of_nat 0) with 1.
  Z.div_mod_to_equations. lia.
Qed.

Lemma iso_parse_seconds (tz t : Z) :
  -62167219200000 <= t < 253402300800000 ->
  iso_parse tz (iso_seconds t) = Some (1000 * (t / 1000) - 60000 * tz).
Proof.
  intros Ht.
  pose proof (year_has_four_digits t Ht) as Hyear.
  pose proof (calendar_fields_in_range t)
    as (Hmonth & Hday & Hhour & Hmin & Hsec & _).
  pose proof (civil_day_valid (t / msPerDay)) as Hvalid.
  pose proof (civil_round_trip (t / msPerDay)) as Hround.
  fold (YearFromTime t) (MonthFromTime t) (DateFromTime t) in Hvalid, Hround.
  unfold iso_parse.
  change (list_ascii_of_string (iso_seconds t))
    with (list_ascii_of_string (digits 4 (YearFromTime t))
          ++ "-"%char :: list_ascii_of_string (digits 2 (MonthFromTime t))
          ++ "-"%char :: list_ascii_of_string (digits 2 (DateFromTime t))
          ++ "T"%char :: list_ascii_of_string (digits 2 (HourFromTime t))
          ++ ":"%char :: list_ascii_of_string (digits 2 (MinFromTime t))
          ++ ":"%char :: list_ascii_of_string (digits 2 (SecFromTime t)))%list.
  cbn [digits list_ascii_of_string app].
  cbv beta iota.
  change (Ascii.eqb "-" "-") with true. change (Ascii.eqb "T" "T") with true.
  change (Ascii.eqb ":" ":") with true. cbn [andb].
  change [digit_char (YearFromTime t / 10 ^ Z.of_nat 3);
          digit_char (YearFromTime t / 10 ^ Z.of_nat 2);
          digit_char (YearFromTime t / 10 ^ Z.of_nat 1);
          digit_char (YearFromTime t / 10 ^ Z.of_nat 0)]
    with (list_ascii_of_string (digits 4 (YearFromTime t))).
  repeat match goal with
         | |- context [ [digit_char (?x / 10 ^ Z.of_nat 1);
                         digit_char (?x / 10 ^ Z.of_nat 0)] ] =>
             change [digit_char (x / 10 ^ Z.of_nat 1);
                     digit_char (x / 10 ^ Z.of_nat 0)]
               with (list_ascii_of_string (digits 2 x))
         end.
  rewrite number_of_four_digits by lia.
  rewrite !number_of_two_digits by lia.
  rewrite Hround.
  replace ((1 <=? MonthFromTime t) && (MonthFromTime t <=? 12)
           && (1 <=? DateFromTime t)
           && (DateFromTime t <=? days_in_month (YearFromTime t) (MonthFromTime t))
           && (HourFromTime t <=? 23) && (MinFromTime t <=? 59)
           && (SecFromTime t <=? 59)) with true.
  - f_equal. unfold HourFromTime, MinFromTime, SecFromTime, msPerDay.
    Z.div_mod_to_equations. lia.
  - symmetry. rewrite !andb_true_iff, !Z.leb_le. lia.
Qed.

(** X16: what the host reads back from the expiry text is the expiry cut
    to the whole second, moved by the offset of the local zone: writing a
    date with [toISOString], keeping 19 characters and reading them with
    [new Date] loses the milliseconds and, off UTC, shifts the time. *)
Theorem expiry_text_read_back :
  forall (tz t : Z),
    -62167219200000 <= t < 253402300800000 ->
    iso_parse tz (slice 0 19 (iso_string t))
    = Some (1000 * (t / 1000) - 60000 * tz).
Proof.
  intros tz t Ht.
  rewrite (iso_string_slice t (year_has_four_digits t Ht)).
  now apply iso_parse_seconds.
Qed.

Lemma expiry_text_read_back_witness :
  iso_parse 60 (slice 0 19 (iso_string 1735690500123))
  = Some (1000 * (1735690500123 / 1000) - 60000 * 60).
Proof.
  apply (expiry_text_read_back 60 1735690500123). lia.
Defined.

(** X17: with an expiry given by the caller, the check is made on the
    text and not on the date: the call is refused exactly when the expiry
    cut to the whole second, as the host reads it back, is before the
    clock.  An expiry later than the clock by less than a second can so be
    refused. *)
Theorem explicit_expiry_is_checked_on_its_text :
  forall aeviumBaseUrl partner invitationFields invitationSecret learnerKey
         salt (w : World) (t tz : Z),
    -62167219200000 <= t < 253402300800000 ->
    Date_parse w (iso_seconds t) = Some (1000 * (t / 1000) - 60000 * tz) ->
    generateSubscribeLink aeviumBaseUrl partner invitationFields
      invitationSecret learnerKey (Some salt) (Some (Some t)) w
    = if 1000 * (t / 1000) - 60000 * tz <? World_now w
      then (Throw (Error "Expiration date must be in the future"), World_tick w)
      else (Normal
              (aeviumBaseUrl ++ "/invitation-claim/?"
                 ++ signed_claim invitationSecret
                      (claim_string partner invitationFields learnerKey salt
                         (iso_seconds t))),
            World_digest (World_tick w)).
Proof.
  intros aeviumBaseUrl partner invitationFields invitationSecret learnerKey
         salt w t tz Ht Hparse.
  rewrite generateSubscribeLink_explicit.
  rewrite (iso_string_slice t (year_has_four_digits t Ht)).
  rewrite generateInvitationClaim_run, Hparse. unfold Date_lt.
  destruct (1000 * (t / 1000) - 60000 * tz <? World_now w); reflexivity.
Qed.

Lemma explicit_expiry_is_checked_on_its_text_witness :
  World_now (host 0 1735689600600) < 1735689600900
  /\ fst (generateSubscribeLink "https://aeviumeducation.com" "acme"
            [("code", "ABC123")] "s3cr3t" "lk_001" (Some "deadbeef")
            (Some (Some 1735689600900)) (host 0 1735689600600))
     = Throw (Error "Expiration date must be in the future").
Proof.
  split; [vm_compute; reflexivity |].
  rewrite (explicit_expiry_is_checked_on_its_text "https://aeviumeducation.com"
             "acme" [("code", "ABC123")] "s3cr3t" "lk_001" "deadbeef"
             (host 0 1735689600600) 1735689600900 0).
  - replace (_ <? _) with true by (vm_compute; reflexivity). reflexivity.
  - lia.
  - apply (iso_parse_seconds 0 1735689600900). lia.
Defined.

(** ** Runs of the grants module on a concrete server *)

Lemma failed_grant_call_rejection_witness :
  fst (postBenefitGrant "lk_001" (Some 1735689600000) (Some 1738281600000)
         "wellness" "gold"
         (mkClient (fun _ => None) (host 0 1735689600000)
                   (fun _ _ => Some (mkResponse 502 (@None string))) []))
  = inl Rejected_SyntaxError.
Proof.
  refine (failed_grant_call_rejection string "lk_001" 1735689600000
            1738281600000 "wellness" "gold"
            (mkClient (fun _ => None) (host 0 1735689600000)
                      (fun _ _ => Some (mkResponse 502 (@None string))) [])
            (mkResponse 502 None) eq_refl _).
  cbn [status]. lia.
Defined.

Lemma benefit_grants_main_creates_then_fetches_witness :
  fst (benefit_grants_main (@Some string) grant_process) = None
  /\ sent (client (snd (benefit_grants_main (@Some string) grant_process)))
     = [ post_request (fun _ => None) "lk_001" 1735689600000
           (1735689600000 + thirty_days) "wellness" "gold";
         get_request (fun _ => None) "grant-1" ]
  /\ written (snd (benefit_grants_main (@Some string) grant_process))
     = [ Log_line "Created grant grant-1";
         Log_line (String "010" "Fetching grant...");
         Log_grant "Confirmed existence of grant:" "grant-1" ].
Proof.
  assert (Hend : Z.abs (clock (client_world (client grant_process))
                          (S (clock_reads (client_world (client grant_process))))
                        + thirty_days) <= 8640000000000000)
    by (vm_compute; discriminate).
  assert (Hstatus : 200 <= status (mkResponse 201 (Some "grant-1")) <= 299)
    by (cbn [status]; lia).
  pose proof (benefit_grants_main_creates_then_fetches string (@Some string)
                grant_process "lk_001" "wellness" "gold"
                (mkResponse 201 (Some "grant-1")) "grant-1" "grant-1"
                eq_refl ltac:(discriminate) eq_refl ltac:(discriminate)
                eq_refl ltac:(discriminate) Hend eq_refl Hstatus eq_refl eq_refl)
    as H.
  cbv zeta in H. destruct H as (Hcode & _ & Hsent & _ & Hwritten).
  split; [exact Hcode |]. split; [exact Hsent | exact Hwritten].
Defined.

(** ** The token gives its claim string back *)

Lemma append_same_length_suffix :
  forall a1 a2 b1 b2 : string,
    a1 ++ b1 = a2 ++ b2 -> String.length b1 = String.length b2 -> a1 = a2.
Proof.
  induction a1 as [| x a1 IH]; intros [| y a2] b1 b2 E Hlen; simpl in E.
  - reflexivity.
  - exfalso. subst b1. simpl in Hlen. rewrite length_append in Hlen. lia.
  - exfalso. subst b2. simpl in Hlen. rewrite length_append in Hlen. lia.
  - inversion E; subst. f_equal. eapply IH; eauto.
Qed.

(** X18: a token is its claim string followed by 75 characters, the
    marker and the signature; so the claim string can be read off any
    token, and two tokens that are equal were made from the same claim
    string, whatever the secrets. *)
Theorem token_determines_claim_string :
  forall secret1 secret2 claim1 claim2 : string,
    String.length (signed_claim secret1 claim1)
    = (String.length claim1 + 75)%nat
    /\ (signed_claim secret1 claim1 = signed_claim secret2 claim2 ->
        claim1 = claim2).
Proof.
  intros secret1 secret2 claim1 claim2.
  assert (Hlen : forall secret claim,
             String.length ("&signature=" ++ hmac_sha256_hex secret claim)
             = 75%nat).
  { intros secret claim. rewrite length_append, hmac_sha256_hex_length.
    reflexivity. }
  split.
  - unfold signed_claim. now rewrite length_append, Hlen.
  - unfold signed_claim. intros E.
    apply (append_same_length_suffix _ _ _ _ E). now rewrite !Hlen.
Qed.
